(** * audio-utsl: a shallow embedding of [src/audio_utsl.c]

    The playback pipeline of audio-utsl: an output ([Au_Output]) owns a
    PortAudio stream, a reader thread that decodes a file into a ring
    buffer of frame blocks ([FRBuf]), and the real-time callback that
    drains it.  The embedding keeps the C names.  The collaborators
    (PortAudio, libsndfile, pthreads) are modelled by the state they keep
    for this program and by an environment record [Env] giving the result
    of every call that may fail. *)

From Stdlib Require Import String ZArith QArith Qround Qabs Qpower.
From Stdlib Require Import List Bool Lia Lqa.
From Stdlib Require DecimalString SpecFloat.
Import ListNotations.
Local Open Scope Z_scope.

(** ** Machine integers *)

Module MachInt.

(** [int] is 32 bits wide (the STATIC_ASSERT of the source). *)
Definition INT_MAX : Z := 2147483647.
Definition LONG_MAX : Z := 9223372036854775807.

(** Two's complement wrap-around of a signed [w]-bit value. *)
Definition wrap_signed (w : Z) (x : Z) : Z :=
  (x + 2 ^ (w - 1)) mod 2 ^ w - 2 ^ (w - 1).

Definition wrap_int (x : Z) : Z := wrap_signed 32 x.
Definition wrap_long (x : Z) : Z := wrap_signed 64 x.
Definition wrap_uint (x : Z) : Z := x mod 2 ^ 32.

End MachInt.
Import MachInt.

(** ** Constants and enumerations *)

Definition BOOL := bool.
Definition TRUE : BOOL := true.
Definition FALSE : BOOL := false.

(** The maximum number of channels we support *)
Definition PA_MAX_CHANNELS : Z := 2.
(** The number of frames in a PortAudio buffer *)
Definition PA_BUFFER_FRAMECOUNT : Z := 256.
(** The number of PortAudio buffers in a libsndfile ring buffer. *)
Definition PA_RING_BUFFERCOUNT : Z := 32.
(** [sizeof(float)], by the STATIC_ASSERT of the source. *)
Definition sizeof_float : Z := 4.
(** [sizeof(((FRBuf * )0)->data)] *)
Definition sizeof_FRBuf_data : Z :=
  PA_BUFFER_FRAMECOUNT * PA_MAX_CHANNELS * sizeof_float.

Inductive Au_SampleFormat : Set :=
  AUSF_F32 | AUSF_I32 | AUSF_I24 | AUSF_I16 | AUSF_I8 | AUSF_UI8 | AUSF_CUSTOM.

(** A C enum is an [int]: the enumerators are 0..6 and every other value
    falls to the [default:] label of a switch. *)
Definition Au_SampleFormat_of_int (v : Z) : option Au_SampleFormat :=
  if v =? 0 then Some AUSF_F32
  else if v =? 1 then Some AUSF_I32
  else if v =? 2 then Some AUSF_I24
  else if v =? 3 then Some AUSF_I16
  else if v =? 4 then Some AUSF_I8
  else if v =? 5 then Some AUSF_UI8
  else if v =? 6 then Some AUSF_CUSTOM
  else None.

Definition int_of_Au_SampleFormat (f : Au_SampleFormat) : Z :=
  match f with
  | AUSF_F32 => 0 | AUSF_I32 => 1 | AUSF_I24 => 2 | AUSF_I16 => 3
  | AUSF_I8 => 4 | AUSF_UI8 => 5 | AUSF_CUSTOM => 6
  end.

(** PAPlayCallback_() State.  Sent by the SF reader to the playback thread. *)
Inductive PPPS : Set := PPPS_Playing | PPPS_Stopped.

(** What a stream callback returns to PortAudio. *)
Inductive PaStreamCallbackResult : Set := paContinue | paComplete.

(** The callback stored in [pau->pa_callback] (the tone generator of the
    high-level test API is not part of the pipeline). *)
Inductive PaStreamCallback : Set := fn_PAEmptyCallback_ | fn_PAPlayCallback_.

(** A PortAudio stream, as far as this program observes it: callbacks are
    delivered only while it is active, and a callback that returns
    [paComplete] ends the delivery. *)
Inductive PaStream : Set := PaStopped | PaActive | PaFinished.

(** ** Time values

    [PaTime] is a C [double], an IEEE 754 binary64 number.  A finite
    double is kept as the rational number it denotes.  The program
    stores no infinity and no NaN: its doubles are the literals 0, -1.0,
    -2.0 and -3.0, the conversions of a [long] and of an [int], their
    quotient by a sample rate of at least 1, and a difference of two of
    these. *)

(** Arithmetic on doubles: the exact result, rounded to the nearest
    number of the format, a tie going to the even significand.  The
    format has significands of 53 bits and a least exponent of -1074 for
    the unit in the last place; results beyond its largest number,
    which the operations of the program do not produce, are not
    modelled. *)
Module Double.

Definition prec : Z := 53.
Definition emin : Z := -1074.

Definition pow2 (e : Z) : Q := ((2 # 1) ^ e)%Q.

(** The magnitude of [x]: the [k] with [2^(k-1) <= |x| < 2^k], and 0 for
    [x = 0]. *)
Definition mag (x : Q) : Z :=
  let n := Z.abs (Qnum x) in
  if n =? 0 then 0
  else
    let k := Z.log2 n - Z.log2 (Zpos (Qden x)) in
    if Qle_bool (pow2 k) (Qabs x) then k + 1 else k.

(** The exponent of the unit in the last place of the doubles around
    [x]. *)
Definition ulp_exp (x : Q) : Z := Z.max (mag x - prec) emin.

(** The integer nearest to [y], the even one of two that are equally
    near. *)
Definition round_half_even (y : Q) : Z :=
  let f := Qfloor y in
  match (y - inject_Z f ?= 1 # 2)%Q with
  | Lt => f
  | Eq => if Z.even f then f else f + 1
  | Gt => f + 1
  end.

Definition round (x : Q) : Q :=
  (inject_Z (round_half_even (x / pow2 (ulp_exp x))) * pow2 (ulp_exp x))%Q.

(** [(double)z], [x / y] and [x - y]. *)
Definition of_Z (z : Z) : Q := round (inject_Z z).
Definition div (x y : Q) : Q := round (x / y).
Definition sub (x y : Q) : Q := round (x - y).

End Double.

Definition PaTime := Q.
Definition time_zero : PaTime := 0 # 1.
Definition time_unset : PaTime := (-1) # 1.

(** The three values [Au_GetTimeInPlayback] returns instead of a time. *)
Definition time_null_handle : PaTime := (-1) # 1.
Definition time_no_session : PaTime := (-2) # 1.
Definition time_lock_failed : PaTime := (-3) # 1.

(** [(PaTime)pfr->pos_frames/pau->sample_rate]: both operands are
    converted to [double], and the quotient is a [double]. *)
Definition frames_to_time (pos_frames sample_rate : Z) : PaTime :=
  Double.div (Double.of_Z pos_frames) (Double.of_Z sample_rate).

(** The rationals that are doubles: rounding leaves them as they are. *)
Definition is_double (x : Q) : Prop := (Double.round x == x)%Q.

(** The same operations as the specification of binary64 arithmetic in
    the standard library has them ([SpecFloat], with 53 bits and the
    exponent bound 1024), for comparison: the rational a finite number
    denotes, the conversion of an integer, and the quotient and the
    difference of two converted integers. *)
Definition SF2Q (f : SpecFloat.spec_float) : Q :=
  match f with
  | SpecFloat.S754_finite s m e =>
      ((if s then - (1) else 1) * inject_Z (Z.pos m) * Double.pow2 e)%Q
  | _ => 0%Q
  end.

Definition Z2SF (z : Z) : SpecFloat.spec_float :=
  SpecFloat.binary_normalize Double.prec 1024 z 0 false.

Definition binary64_quotient (a b : Z) : Q :=
  SF2Q (SpecFloat.SFdiv Double.prec 1024 (Z2SF a) (Z2SF b)).

Definition binary64_difference (a b c : Z) : Q :=
  SF2Q (SpecFloat.SFsub Double.prec 1024
          (SpecFloat.SFdiv Double.prec 1024 (Z2SF a) (Z2SF b)) (Z2SF c)).

(** Sample rates and frame positions on which the two are compared:
    the usual rates and the extremes of an [int], the first two hundred
    block positions, and positions around 2^53 and at the end of a
    [long]. *)
Definition sample_rates : list Z :=
  [1; 3; 7; 8000; 11025; 22050; 44100; 48000; 88200; 96000; 192000;
   2147483647].

Definition sample_positions : list Z :=
  map (fun k => 256 * Z.of_nat k) (seq 0 200) ++
  [1; 3; 255; 9007199254740991; 9007199254740992; 9007199254740993;
   9007199254740995; 9223372036854775552; 9223372036854775807].

(** ** The file decoder (libsndfile)

    An open file is its header and the interleaved samples not yet read,
    each sample given as the integer the decode call stores for it.  A
    read of [n] frames delivers [min n (frames left)] whole frames. *)
Record SNDFILE : Type := mkSNDFILE {
  sf_samplerate : Z;
  sf_channels : Z;
  sf_samples : list Z
}.

Definition byte := Z.

(** Little-endian bytes of one sample of [width] bytes. *)
Definition sample_bytes (width : nat) (v : Z) : list byte :=
  map (fun i => (v / 256 ^ Z.of_nat i) mod 256) (seq 0 width).

Definition frames_left (fd : SNDFILE) : Z :=
  if sf_channels fd <=? 0 then 0
  else Z.of_nat (length (sf_samples fd)) / sf_channels fd.

(** [sf_readf_float], [sf_readf_int], [sf_readf_short]: the number of
    frames read, the bytes stored at the destination, and the file after
    the read.  [width] is the size of the destination's sample type. *)
Definition sf_readf (width : nat) (fd : SNDFILE) (frames : Z)
  : Z * list byte * SNDFILE :=
  let n := Z.min frames (frames_left fd) in
  let k := Z.to_nat (n * sf_channels fd) in
  (n,
   flat_map (sample_bytes width) (firstn k (sf_samples fd)),
   mkSNDFILE (sf_samplerate fd) (sf_channels fd) (skipn k (sf_samples fd))).

(** ** Frame blocks and the ring buffer *)

(** A buffer from the file reader to the PA callback.  [data] is the byte
    array of the struct, indexed by offset; only offsets below
    [sizeof_FRBuf_data] belong to it. *)
Record FRBuf : Type := mkFRBuf {
  state : PPPS;
  pos_frames : Z;
  data : nat -> byte
}.

(** Storing [bytes] at the start of a byte array. *)
Definition store_bytes (bytes : list byte) (old : nat -> byte) : nat -> byte :=
  fun off => nth off bytes (old off).

(** Reading [n] bytes from the start of a byte array ([memcpy] source). *)
Definition load_bytes (arr : nat -> byte) (n : nat) : list byte :=
  map arr (seq 0 n).

(** The array of [PA_RING_BUFFERCOUNT] blocks behind [sf_buffer_data]. *)
Definition FRBuf_array := Z -> FRBuf.

Definition array_set (a : FRBuf_array) (i : Z) (b : FRBuf) : FRBuf_array :=
  fun j => if j =? i then b else a j.

(** Modelled from the spec: the ring buffer of [pa_ringbuffer.h], which
    is included by the source but not part of it.  The spec gives a
    power-of-two slot count, a write cursor and a read cursor that are
    monotonic counters used modulo the capacity, with
    [0 <= write - read <= capacity]; [write_available] and
    [read_available] report the free and the filled slot counts, the
    regions handed out never exceed them, [advance_write] and
    [advance_read] publish and release, and [flush] discards what is
    queued.  The element storage is the caller's array
    ([sf_buffer_data]); a region is given by the index of its first
    slot. *)
Module RingBuffer.

Record PaUtilRingBuffer : Set := mkRing {
  bufferSize : Z;
  writeIndex : Z;
  readIndex : Z
}.

Definition is_power_of_two (n : Z) : bool :=
  (0 <? n) && (Z.land (n - 1) n =? 0).

Definition PaUtil_FlushRingBuffer (rb : PaUtilRingBuffer) : PaUtilRingBuffer :=
  mkRing (bufferSize rb) 0 0.

(** [None] stands for the -1 returned when the count is no power of two. *)
Definition PaUtil_InitializeRingBuffer (elementCount : Z)
  : option PaUtilRingBuffer :=
  if is_power_of_two elementCount then Some (mkRing elementCount 0 0)
  else None.

Definition PaUtil_GetRingBufferReadAvailable (rb : PaUtilRingBuffer) : Z :=
  writeIndex rb - readIndex rb.

Definition PaUtil_GetRingBufferWriteAvailable (rb : PaUtilRingBuffer) : Z :=
  bufferSize rb - PaUtil_GetRingBufferReadAvailable rb.

(** The first region of a request for [elementCount] slots: the number
    of slots granted and the index of the first one. *)
Definition PaUtil_GetRingBufferWriteRegions (rb : PaUtilRingBuffer)
    (elementCount : Z) : Z * Z :=
  (Z.min elementCount (PaUtil_GetRingBufferWriteAvailable rb),
   writeIndex rb mod bufferSize rb).

Definition PaUtil_GetRingBufferReadRegions (rb : PaUtilRingBuffer)
    (elementCount : Z) : Z * Z :=
  (Z.min elementCount (PaUtil_GetRingBufferReadAvailable rb),
   readIndex rb mod bufferSize rb).

Definition PaUtil_AdvanceRingBufferWriteIndex (rb : PaUtilRingBuffer)
    (elementCount : Z) : PaUtilRingBuffer :=
  mkRing (bufferSize rb) (writeIndex rb + elementCount) (readIndex rb).

Definition PaUtil_AdvanceRingBufferReadIndex (rb : PaUtilRingBuffer)
    (elementCount : Z) : PaUtilRingBuffer :=
  mkRing (bufferSize rb) (writeIndex rb) (readIndex rb + elementCount).

End RingBuffer.
Import RingBuffer.

(** ** The output instance *)

(** Where the reader thread stands in [SFFileReader_]. *)
Inductive ReaderPc : Set :=
| RNotCreated                 (* [pthread_create] failed: the storage holds no thread id *)
| RStart                      (* created, has not run yet *)
| RWait                       (* at [sem_wait] *)
| RFill (buffers_avail : Z)   (* at the head of the [for] loop *)
| RDone.                      (* returned *)

(** The internal details of a single output (HAU).  A pointer member that
    refers to a [_storage] member is kept together with it: [None] is the
    NULL pointer and [Some v] the pointer with the storage holding [v].
    [format] is the raw enum value. *)
Record Au_Output : Type := mkOutput {
  (* --- General parameters --- *)
  format : Z;
  sample_rate : Z;
  channels : Z;
  (* --- PortAudio - output --- *)
  pa_stream : option PaStream;
  pa_callback : PaStreamCallback;
  (* --- libsndfile - input --- *)
  sf_reader_thread : option ReaderPc;
  sf_reader_semaphore : option Z;
  sf_reader_should_exit : BOOL;
  sf_fd : option SNDFILE;
  (* --- Playback buffer --- *)
  sf_buffer : option PaUtilRingBuffer;
  sf_buffer_data : option FRBuf_array;
  playback_time : PaTime;
  playback_start_time : PaTime;
  is_playing : BOOL;
  playback_time_mutex : option unit;
  playback_frames : Z
}.

(** Field updates, [pau->field = v]. *)
Definition set_pa_stream v p :=
  mkOutput (format p) (sample_rate p) (channels p) v (pa_callback p)
    (sf_reader_thread p) (sf_reader_semaphore p) (sf_reader_should_exit p)
    (sf_fd p) (sf_buffer p) (sf_buffer_data p) (playback_time p)
    (playback_start_time p) (is_playing p) (playback_time_mutex p)
    (playback_frames p).
Definition set_pa_callback v p :=
  mkOutput (format p) (sample_rate p) (channels p) (pa_stream p) v
    (sf_reader_thread p) (sf_reader_semaphore p) (sf_reader_should_exit p)
    (sf_fd p) (sf_buffer p) (sf_buffer_data p) (playback_time p)
    (playback_start_time p) (is_playing p) (playback_time_mutex p)
    (playback_frames p).
Definition set_sf_reader_thread v p :=
  mkOutput (format p) (sample_rate p) (channels p) (pa_stream p)
    (pa_callback p) v (sf_reader_semaphore p) (sf_reader_should_exit p)
    (sf_fd p) (sf_buffer p) (sf_buffer_data p) (playback_time p)
    (playback_start_time p) (is_playing p) (playback_time_mutex p)
    (playback_frames p).
Definition set_sf_reader_semaphore v p :=
  mkOutput (format p) (sample_rate p) (channels p) (pa_stream p)
    (pa_callback p) (sf_reader_thread p) v (sf_reader_should_exit p)
    (sf_fd p) (sf_buffer p) (sf_buffer_data p) (playback_time p)
    (playback_start_time p) (is_playing p) (playback_time_mutex p)
    (playback_frames p).
Definition set_sf_reader_should_exit v p :=
  mkOutput (format p) (sample_rate p) (channels p) (pa_stream p)
    (pa_callback p) (sf_reader_thread p) (sf_reader_semaphore p) v (sf_fd p)
    (sf_buffer p) (sf_buffer_data p) (playback_time p)
    (playback_start_time p) (is_playing p) (playback_time_mutex p)
    (playback_frames p).
Definition set_sf_fd v p :=
  mkOutput (format p) (sample_rate p) (channels p) (pa_stream p)
    (pa_callback p) (sf_reader_thread p) (sf_reader_semaphore p)
    (sf_reader_should_exit p) v (sf_buffer p) (sf_buffer_data p)
    (playback_time p) (playback_start_time p) (is_playing p)
    (playback_time_mutex p) (playback_frames p).
Definition set_sf_buffer v p :=
  mkOutput (format p) (sample_rate p) (channels p) (pa_stream p)
    (pa_callback p) (sf_reader_thread p) (sf_reader_semaphore p)
    (sf_reader_should_exit p) (sf_fd p) v (sf_buffer_data p)
    (playback_time p) (playback_start_time p) (is_playing p)
    (playback_time_mutex p) (playback_frames p).
Definition set_sf_buffer_data v p :=
  mkOutput (format p) (sample_rate p) (channels p) (pa_stream p)
    (pa_callback p) (sf_reader_thread p) (sf_reader_semaphore p)
    (sf_reader_should_exit p) (sf_fd p) (sf_buffer p) v (playback_time p)
    (playback_start_time p) (is_playing p) (playback_time_mutex p)
    (playback_frames p).
Definition set_playback_time v p :=
  mkOutput (format p) (sample_rate p) (channels p) (pa_stream p)
    (pa_callback p) (sf_reader_thread p) (sf_reader_semaphore p)
    (sf_reader_should_exit p) (sf_fd p) (sf_buffer p) (sf_buffer_data p) v
    (playback_start_time p) (is_playing p) (playback_time_mutex p)
    (playback_frames p).
Definition set_playback_start_time v p :=
  mkOutput (format p) (sample_rate p) (channels p) (pa_stream p)
    (pa_callback p) (sf_reader_thread p) (sf_reader_semaphore p)
    (sf_reader_should_exit p) (sf_fd p) (sf_buffer p) (sf_buffer_data p)
    (playback_time p) v (is_playing p) (playback_time_mutex p)
    (playback_frames p).
Definition set_is_playing v p :=
  mkOutput (format p) (sample_rate p) (channels p) (pa_stream p)
    (pa_callback p) (sf_reader_thread p) (sf_reader_semaphore p)
    (sf_reader_should_exit p) (sf_fd p) (sf_buffer p) (sf_buffer_data p)
    (playback_time p) (playback_start_time p) v (playback_time_mutex p)
    (playback_frames p).
Definition set_playback_time_mutex v p :=
  mkOutput (format p) (sample_rate p) (channels p) (pa_stream p)
    (pa_callback p) (sf_reader_thread p) (sf_reader_semaphore p)
    (sf_reader_should_exit p) (sf_fd p) (sf_buffer p) (sf_buffer_data p)
    (playback_time p) (playback_start_time p) (is_playing p) v
    (playback_frames p).
Definition set_playback_frames v p :=
  mkOutput (format p) (sample_rate p) (channels p) (pa_stream p)
    (pa_callback p) (sf_reader_thread p) (sf_reader_semaphore p)
    (sf_reader_should_exit p) (sf_fd p) (sf_buffer p) (sf_buffer_data p)
    (playback_time p) (playback_start_time p) (is_playing p)
    (playback_time_mutex p) v.

(** [memset(pau, 0, sizeof(Au_Output))] followed by the three stores of
    the parameters and of the idle callback. *)
Definition zeroed_output (fmt rate chans : Z) : Au_Output :=
  {| format := fmt; sample_rate := rate; channels := chans;
     pa_stream := None; pa_callback := fn_PAEmptyCallback_;
     sf_reader_thread := None; sf_reader_semaphore := None;
     sf_reader_should_exit := FALSE; sf_fd := None;
     sf_buffer := None; sf_buffer_data := None;
     playback_time := time_zero; playback_start_time := time_zero;
     is_playing := FALSE; playback_time_mutex := None;
     playback_frames := 0 |}.

(** ** Program state, calls to the collaborators, and the monad *)

(** The calls the program makes to its collaborators, in order. *)
Inductive Call : Set :=
| C_malloc_output | C_free_output
| C_Pa_OpenDefaultStream | C_Pa_StartStream | C_Pa_StopStream | C_Pa_CloseStream
| C_sf_open | C_sf_close
| C_pthread_mutex_init | C_pthread_mutex_destroy
| C_malloc_buffer | C_free_buffer
| C_PaUtil_InitializeRingBuffer | C_PaUtil_FlushRingBuffer
| C_sem_init | C_sem_post | C_sem_destroy
| C_pthread_create | C_pthread_join | C_pthread_cancel
| C_sched_yield | C_Pa_Sleep.

(** The globals of the translation unit, the one output a handle may
    point to ([None]: not allocated, or freed), and the calls made. *)
Record State : Type := mkState {
  AuInitialized_ : BOOL;
  AU_SFFR_Count : Z;
  AU_PAPC_Count : Z;
  output : option Au_Output;
  calls : list Call
}.

(** An opaque handle: NULL or the address of the output. *)
Inductive HAU : Set := NULL | Handle.

(** The results every fallible collaborator call has in one API call or
    one callback invocation. *)
Record Env : Type := mkEnv {
  malloc_output_ok : bool;
  Pa_OpenDefaultStream_ok : bool;
  sf_open : string -> option SNDFILE;
  pthread_mutex_init_ok : bool;
  malloc_buffer : option FRBuf_array;   (* the fresh memory, contents arbitrary *)
  sem_init_ok : bool;
  pthread_create_ok : bool;
  Pa_StartStream_ok : bool;
  pthread_join_ok : bool;
  pthread_mutex_lock_ok : bool;
  pthread_mutex_trylock_ok : bool
}.

(** What C leaves undefined and the program can run into. *)
Inductive Fault : Set :=
| NullSemaphore | NullMutex | NullRingBuffer | UseAfterFree | BufferOverrun
| InvalidThread.

Inductive outcome (A : Type) : Type :=
| Done (a : A)
| Crash (f : Fault).
Arguments Done {A} a.
Arguments Crash {A} f.

Definition M (A : Type) : Type := State -> outcome (A * State).

Definition ret {A} (a : A) : M A := fun s => Done (a, s).
Definition bind {A B} (m : M A) (k : A -> M B) : M B :=
  fun s => match m s with
           | Done (a, s') => k a s'
           | Crash f => Crash f
           end.
Definition crash {A} (f : Fault) : M A := fun _ => Crash f.

Declare Scope au_scope.
Delimit Scope au_scope with au.
Notation "x <- m ;; k" := (bind m (fun x => k))
  (at level 61, m at next level, right associativity) : au_scope.
Notation "m ;; k" := (bind m (fun _ => k))
  (at level 61, right associativity) : au_scope.
Local Open Scope au_scope.

Definition call (c : Call) : M unit :=
  fun s => Done (tt, mkState (AuInitialized_ s) (AU_SFFR_Count s)
                             (AU_PAPC_Count s) (output s) (calls s ++ [c])).

(** [*pau]: reading through a handle whose output was freed is a fault. *)
Definition get_pau : M Au_Output :=
  fun s => match output s with
           | Some p => Done (p, s)
           | None => Crash UseAfterFree
           end.

Definition put_output (o : option Au_Output) : M unit :=
  fun s => Done (tt, mkState (AuInitialized_ s) (AU_SFFR_Count s)
                             (AU_PAPC_Count s) o (calls s)).

(** [pau->field = v] *)
Definition store (f : Au_Output -> Au_Output) : M unit :=
  p <- get_pau ;; put_output (Some (f p)).

Definition get_SFFR_Count : M Z := fun s => Done (AU_SFFR_Count s, s).
Definition set_SFFR_Count (v : Z) : M unit :=
  fun s => Done (tt, mkState (AuInitialized_ s) v (AU_PAPC_Count s)
                             (output s) (calls s)).
Definition set_PAPC_Count (v : Z) : M unit :=
  fun s => Done (tt, mkState (AuInitialized_ s) (AU_SFFR_Count s) v
                             (output s) (calls s)).
Definition get_state : M State := fun s => Done (s, s).

Definition when (b : bool) (m : M unit) : M unit := if b then m else ret tt.

Definition is_some {A} (o : option A) : bool :=
  match o with Some _ => true | None => false end.

(** Common entry code for several Au_* functions (the POW macro). *)
Definition POW {A} (handle : HAU) (fail : A) (body : M A) : M A :=
  s <- get_state ;;
  if negb (AuInitialized_ s) then ret fail
  else match handle with
       | NULL => ret fail
       | Handle => body
       end.

(** ** Internal helpers *)

(** The sample width [bufferSizeBytes_] switches on, [None] where it
    returns -1. *)
Definition format_size (fmt : Z) : option Z :=
  match Au_SampleFormat_of_int fmt with
  | Some AUSF_F32 => Some 4
  | Some AUSF_I32 => Some 4
  | Some AUSF_I24 => Some 3
  | Some AUSF_I16 => Some 2
  | Some AUSF_I8 => Some 1
  | Some AUSF_UI8 => Some 1
  | Some AUSF_CUSTOM => None
  | None => None
  end.

(** Get the size of a PortAudio buffer, in bytes.
    @return The size, or -1 on error. *)
Definition bufferSizeBytes_ (pau : option Au_Output) : Z :=
  match pau with
  | None => -1
  | Some p =>
      match format_size (format p) with
      | None => -1
      | Some sz =>
          wrap_int (wrap_int (PA_BUFFER_FRAMECOUNT * channels p) * sz)
      end
  end.

(** ** PortAudio callbacks *)

(** The MARK_NOT_PLAYING macro of [PAPlayCallback_]. *)
Definition MARK_NOT_PLAYING (env : Env) : M unit :=
  pau <- get_pau ;;
  match playback_time_mutex pau with
  | None => crash NullMutex
  | Some _ =>
      when (pthread_mutex_lock_ok env) (store (set_is_playing FALSE))
  end.

(** PortAudio callback to play data received from a file.  The result is
    the return code and, when the [memcpy] was reached, the bytes stored
    in [output]. *)
Definition PAPlayCallback_ (env : Env) (frameCount : Z)
  : M (PaStreamCallbackResult * option (list byte)) :=
  s <- get_state ;;
  set_PAPC_Count (wrap_uint (AU_PAPC_Count s + 1)) ;;
  (* Let the reader get working on more data *)
  pau <- get_pau ;;
  match sf_reader_semaphore pau with
  | None => crash NullSemaphore
  | Some count =>
      call C_sem_post ;;
      store (set_sf_reader_semaphore (Some (count + 1))) ;;
      if negb (frameCount =? PA_BUFFER_FRAMECOUNT) then
        MARK_NOT_PLAYING env ;; ret (paComplete, None)
      else
        (* Get the next block of info, if any *)
        match sf_buffer pau, sf_buffer_data pau with
        | None, _ | _, None => crash NullRingBuffer
        | Some rb, Some slots =>
            let read_avail := PaUtil_GetRingBufferReadAvailable rb in
            if read_avail <=? 0 then
              MARK_NOT_PLAYING env ;; ret (paComplete, None)
            else
              let '(ok, index) := PaUtil_GetRingBufferReadRegions rb 1 in
              if ok <=? 0 then
                MARK_NOT_PLAYING env ;; ret (paComplete, None)
              else
                let pfr := slots index in
                let st := state pfr in
                match playback_time_mutex pau with
                | None => crash NullMutex
                | Some _ =>
                    (* Initialize the sync information if necessary. *)
                    synced <-
                      (if Qeq_bool (playback_start_time pau) time_unset then
                         if negb (pthread_mutex_lock_ok env) then ret false
                         else
                           store (set_playback_start_time time_zero) ;;
                           store (set_playback_time time_zero) ;;
                           store (set_is_playing TRUE) ;;
                           ret true
                       else
                         (* Update the sync information, if we can. *)
                         when (pthread_mutex_trylock_ok env)
                           (store (set_playback_time
                                     (frames_to_time (pos_frames pfr)
                                                     (sample_rate pau))) ;;
                            store (set_is_playing TRUE)) ;;
                         ret true) ;;
                    if negb synced then ret (paComplete, None)
                    else
                      (* Output the data *)
                      let n := bufferSizeBytes_ (Some pau) in
                      if (n <? 0) || (sizeof_FRBuf_data <? n) then
                        crash BufferOverrun
                      else
                        let out := load_bytes (data pfr) (Z.to_nat n) in
                        (* Release the info block *)
                        store (set_sf_buffer
                                 (Some (PaUtil_AdvanceRingBufferReadIndex rb 1))) ;;
                        match st with
                        | PPPS_Stopped =>
                            MARK_NOT_PLAYING env ;; ret (paComplete, Some out)
                        | PPPS_Playing => ret (paContinue, Some out)
                        end
                end
        end
  end.

(** Main callback for all PortAudio streams: a thunk to the callback
    stored in pau.  PortAudio invokes it only on an active stream, and
    stops invoking it once it has returned [paComplete]. *)
Definition PACallback_ (env : Env) (frameCount : Z)
  : M (option (PaStreamCallbackResult * option (list byte))) :=
  pau <- get_pau ;;
  match pa_stream pau with
  | Some PaActive =>
      r <- match pa_callback pau with
           | fn_PAEmptyCallback_ => ret (paComplete, None)
           | fn_PAPlayCallback_ => PAPlayCallback_ env frameCount
           end ;;
      match fst r with
      | paComplete => store (set_pa_stream (Some PaFinished))
      | paContinue => ret tt
      end ;;
      ret (Some r)
  | _ => ret None
  end.

(** ** libsndfile code: the reader thread *)

Definition set_reader_pc (pc : ReaderPc) : M unit :=
  store (set_sf_reader_thread (Some pc)).

(** The slot [index] after a decode call has stored [bytes] in its data. *)
Definition decode_into (slots : FRBuf_array) (index : Z) (bytes : list byte)
  : FRBuf_array :=
  let pfr := slots index in
  array_set slots index
    (mkFRBuf (state pfr) (pos_frames pfr) (store_bytes bytes (data pfr))).

(** The slot [index] after [pfr->pos_frames] and [pfr->state] are set. *)
Definition publish (slots : FRBuf_array) (index : Z) (tag : PPPS) (pos : Z)
  : FRBuf_array :=
  array_set slots index (mkFRBuf tag pos (data (slots index))).

(** A decode call on [pau->sf_fd]; a NULL handle makes libsndfile report
    zero frames. *)
Definition sf_readf_handle (width : nat) (fd : option SNDFILE) (frames : Z)
  : Z * list byte * option SNDFILE :=
  match fd with
  | Some fd =>
      let '(n, bytes, fd') := sf_readf width fd frames in (n, bytes, Some fd')
  | None => (0, [], None)
  end.

(** [sf_readf_xxx(pau->sf_fd, pfr->data, PA_BUFFER_FRAMECOUNT)] into slot
    [index], followed by the short-read test of the source.  The result
    is [Some frames_read], or [None] at the EXIT POINT of a short read. *)
Definition read_block (width : nat) (error_code : Z) (index : Z)
  : M (option Z) :=
  pau <- get_pau ;;
  match sf_buffer_data pau with
  | None => crash NullRingBuffer
  | Some slots =>
      let '(frames_read, bytes, fd') :=
        sf_readf_handle width (sf_fd pau) PA_BUFFER_FRAMECOUNT in
      if sizeof_FRBuf_data <? Z.of_nat (length bytes) then crash BufferOverrun
      else
        store (set_sf_buffer_data (Some (decode_into slots index bytes))) ;;
        store (set_sf_fd fd') ;;
        if (0 <? frames_read) && negb (frames_read =? PA_BUFFER_FRAMECOUNT)
        then set_SFFR_Count error_code ;; ret None
        else ret (Some frames_read)
  end.

(** One iteration of the [for] loop of [SFFileReader_], entered with
    [buffers_avail > 0]. *)
Definition SFFileReader_iteration (buffers_avail : Z) : M unit :=
  c <- get_SFFR_Count ;;
  set_SFFR_Count (wrap_uint (c + 1)) ;;
  pau <- get_pau ;;
  match sf_buffer pau with
  | None => crash NullRingBuffer
  | Some rb =>
      let '(ok, index) := PaUtil_GetRingBufferWriteRegions rb 1 in
      if ok <=? 0 then
        set_SFFR_Count 123001 ;; set_reader_pc RWait       (* break *)
      else
        r <- match Au_SampleFormat_of_int (format pau) with
             | Some AUSF_F32 => read_block 4 123002 index
             | Some AUSF_I32 => read_block 4 123003 index
             | Some AUSF_I24 => set_SFFR_Count 123004 ;; ret None
             | Some AUSF_I16 => read_block 2 123005 index
             | Some AUSF_I8 => set_SFFR_Count 123006 ;; ret None
             | Some AUSF_UI8 => set_SFFR_Count 123007 ;; ret None
             | Some AUSF_CUSTOM | None => set_SFFR_Count 123008 ;; ret None
             end ;;
        match r with
        | None => set_reader_pc RDone                      (* EXIT POINT *)
        | Some frames_read =>
            pau <- get_pau ;;
            match sf_buffer_data pau with
            | None => crash NullRingBuffer
            | Some slots =>
                (* Sync info *)
                let pos := playback_frames pau in
                store (set_playback_frames (wrap_long (pos + frames_read))) ;;
                c <- get_SFFR_Count ;;
                let st := if frames_read =? 0 then PPPS_Stopped
                          else PPPS_Playing in
                set_SFFR_Count
                  (if frames_read =? 0 then wrap_uint (Z.lor c 1)
                   else wrap_uint (Z.land c (2 ^ 64 - 2))) ;;
                store (set_sf_buffer_data
                         (Some (publish slots index st pos))) ;;
                (* Send pfr to the PortAudio callback *)
                store (set_sf_buffer
                         (Some (PaUtil_AdvanceRingBufferWriteIndex rb 1))) ;;
                set_reader_pc (RFill (buffers_avail - 1))
            end
        end
  end.

(** One scheduling step of the worker thread that reads data from a
    file: from one of the points of [ReaderPc] to the next.  A thread
    blocked in [sem_wait] does not move. *)
Definition SFFileReader_step : M unit :=
  s <- get_state ;;
  pau <- get_pau ;;
  match sf_reader_thread pau with
  | Some RStart =>
      if negb (AuInitialized_ s) then set_reader_pc RDone       (* POW *)
      else if match Au_SampleFormat_of_int (format pau) with
              | Some AUSF_CUSTOM => true
              | _ => false
              end
      then set_SFFR_Count 123000 ;; set_reader_pc RDone
      else set_reader_pc RWait
  | Some RWait =>
      match sf_reader_semaphore pau with
      | None => crash NullSemaphore
      | Some count =>
          if count <=? 0 then ret tt
          else
            store (set_sf_reader_semaphore (Some (count - 1))) ;;
            if sf_reader_should_exit pau then
              set_SFFR_Count 987654321 ;; set_reader_pc RDone   (* EXIT POINT *)
            else
              match sf_buffer pau with
              | None => crash NullRingBuffer
              | Some rb =>
                  set_reader_pc (RFill (PaUtil_GetRingBufferWriteAvailable rb))
              end
      end
  | Some (RFill buffers_avail) =>
      if 0 <? buffers_avail then SFFileReader_iteration buffers_avail
      else set_reader_pc RWait
  | Some RDone | Some RNotCreated | None => ret tt
  end.

(** The reader thread running on its own for at most [fuel] steps, until
    it has returned. *)
Fixpoint SFFileReader_run (fuel : nat) : M unit :=
  match fuel with
  | O => ret tt
  | S fuel' =>
      pau <- get_pau ;;
      match sf_reader_thread pau with
      | Some RDone | Some RNotCreated | None => ret tt
      | _ => SFFileReader_step ;; SFFileReader_run fuel'
      end
  end.

(** Steps that bring a reader that has been told to exit, and whose
    semaphore has been posted, to its return. *)
Definition join_fuel (pc : ReaderPc) : nat :=
  match pc with
  | RFill n => Z.to_nat n + 3
  | _ => 3
  end.

(** ** The public API *)

(** [Pa_StopStream(pau->pa_stream)] on a stream that exists. *)
Definition Pa_StopStream : M unit :=
  call C_Pa_StopStream ;; store (set_pa_stream (Some PaStopped)).

(** Close an output.  If this succeeds, any memory associated with that
    output has been freed. *)
Definition Au_Delete (handle : HAU) : M BOOL :=
  POW handle FALSE (
    pau <- get_pau ;;
    when (is_some (pa_stream pau)) Pa_StopStream ;;      (* just in case *)
    (* TODO shutdown the reader thread *)
    when (is_some (sf_fd pau))                           (* close the reader file *)
      (call C_sf_close ;; store (set_sf_fd None)) ;;
    when (is_some (pa_stream pau))                       (* close the output stream *)
      (call C_Pa_CloseStream ;; store (set_pa_stream None)) ;;
    call C_free_output ;;
    put_output None ;;
    ret TRUE).

(** Create a new output.
    @return non-NULL on success; NULL on failure *)
Definition Au_New (env : Env) (format sample_rate channels : Z) : M HAU :=
  s <- get_state ;;
  if negb (AuInitialized_ s) then ret NULL
  else
    (* Map the format *)
    match Au_SampleFormat_of_int format with
    | Some AUSF_CUSTOM => ret NULL
    | None => ret NULL
    | Some _ =>
        if sample_rate <? 1 then ret NULL
        else
          (* init with rollback *)
          call C_malloc_output ;;
          if negb (malloc_output_ok env) then
            Au_Delete NULL ;; ret NULL
          else
            put_output (Some (zeroed_output format sample_rate channels)) ;;
            call C_Pa_OpenDefaultStream ;;
            if negb (Pa_OpenDefaultStream_ok env) then
              Au_Delete Handle ;; ret NULL
            else
              store (set_pa_stream (Some PaStopped)) ;;
              ret Handle                                 (* Success exit *)
    end.

(** [pthread_join( *pau->sf_reader_thread, NULL)], with [pthread_cancel]
    as the fallback when it fails.  Joining lets the reader run until it
    returns.  When [pthread_create] had failed, the handle points to
    [sf_reader_thread_storage] all the same, which holds no valid value
    (nothing was written to it, or the id of a thread joined before): the
    join is passed a value that is no thread id, and the call faults. *)
Definition join_or_cancel (env : Env) (pc : ReaderPc) : M unit :=
  match pc with
  | RNotCreated => crash InvalidThread
  | _ =>
      call C_pthread_join ;;
      if pthread_join_ok env then SFFileReader_run (join_fuel pc)
      else call C_pthread_cancel
  end.

Definition Au_Stop (env : Env) (handle : HAU) : M BOOL :=
  POW handle FALSE (
    pau <- get_pau ;;
    when (is_some (pa_stream pau)) Pa_StopStream ;;      (* just in case *)
    store (set_pa_callback fn_PAEmptyCallback_) ;;
    match sf_reader_thread pau with
    | Some pc =>
        (* Tell the thread to exit *)
        store (set_sf_reader_should_exit TRUE) ;;
        match sf_reader_semaphore pau with
        | None => crash NullSemaphore
        | Some count =>
            call C_sem_post ;;
            store (set_sf_reader_semaphore (Some (count + 1)))
        end ;;
        (* Wait for the thread to exit *)
        join_or_cancel env pc ;;
        store (set_sf_reader_thread None)
    | None => ret tt
    end ;;
    pau <- get_pau ;;
    when (is_some (sf_reader_semaphore pau))
      (call C_sem_destroy ;; store (set_sf_reader_semaphore None)) ;;
    when (is_some (sf_buffer pau))
      (call C_PaUtil_FlushRingBuffer ;; store (set_sf_buffer None)) ;;
    when (is_some (sf_buffer_data pau))
      (call C_free_buffer ;; store (set_sf_buffer_data None)) ;;
    when (is_some (playback_time_mutex pau))
      (call C_pthread_mutex_destroy ;; store (set_playback_time_mutex None)) ;;
    store (set_playback_time time_unset) ;;
    store (set_playback_start_time time_unset) ;;
    store (set_is_playing FALSE) ;;
    when (is_some (sf_fd pau))
      (call C_sf_close ;; store (set_sf_fd None)) ;;
    ret TRUE).

(** The body of the [do { ... } while(0)] of [Au_Play]: [true] at the
    [return TRUE], [false] at a [break]. *)
Definition Au_Play_once (env : Env) (filename : string) : M bool :=
  (* sf_fd *)
  call C_sf_open ;;
  store (set_sf_fd (sf_open env filename)) ;;
  match sf_open env filename with
  | None => ret false
  | Some sf_info =>
      pau <- get_pau ;;
      if negb (sf_samplerate sf_info =? sample_rate pau)      (* sanity check *)
         || negb (sf_channels sf_info =? 2)
      then ret false
      else
        (* Sync *)
        store (set_is_playing FALSE) ;;
        store (set_playback_frames 0) ;;
        store (set_playback_time time_unset) ;;
        store (set_playback_start_time time_unset) ;;
        store (set_playback_time_mutex (Some tt)) ;;
        call C_pthread_mutex_init ;;
        if negb (pthread_mutex_init_ok env) then ret false
        else
          (* Ring buffer *)
          call C_malloc_buffer ;;
          store (set_sf_buffer_data (malloc_buffer env)) ;;
          if negb (is_some (malloc_buffer env)) then ret false
          else
            call C_PaUtil_InitializeRingBuffer ;;
            match PaUtil_InitializeRingBuffer PA_RING_BUFFERCOUNT with
            | None => store (set_sf_buffer (Some (mkRing 0 0 0))) ;; ret false
            | Some rb =>
                store (set_sf_buffer (Some rb)) ;;
                (* Threading *)
                call C_sem_init ;;
                if negb (sem_init_ok env) then
                  store (set_sf_reader_semaphore (Some 0)) ;; ret false
                else
                  (* initial value 1, so the reader will start to load data *)
                  store (set_sf_reader_semaphore (Some 1)) ;;
                  store (set_sf_reader_should_exit FALSE) ;;
                  call C_pthread_create ;;
                  if negb (pthread_create_ok env) then
                    set_reader_pc RNotCreated ;; ret false
                  else
                    set_reader_pc RStart ;;
                    store (set_pa_callback fn_PAPlayCallback_) ;;
                    (* Fire away! *)
                    call C_Pa_StartStream ;;
                    if negb (Pa_StartStream_ok env) then ret false
                    else
                      store (set_pa_stream (Some PaActive)) ;;
                      call C_sched_yield ;;
                      call C_Pa_Sleep ;;
                      ret true
            end
  end.

(** Play audio file #filename on output #handle. *)
Definition Au_Play (env : Env) (handle : HAU) (filename : string) : M BOOL :=
  POW handle FALSE (
    pau <- get_pau ;;
    if negb (is_some (pa_stream pau)) then ret FALSE
    else if is_some (sf_reader_thread pau) then ret FALSE
    else
      Pa_StopStream ;;                                   (* just in case *)
      ok <- Au_Play_once env filename ;;
      if ok then ret TRUE
      else
        (* Failure: roll back changes *)
        Au_Stop env Handle ;; ret FALSE).

Definition Au_IsPlaying (env : Env) (handle : HAU) : M BOOL :=
  POW handle FALSE (
    pau <- get_pau ;;
    match playback_time_mutex pau with
    | None => crash NullMutex        (* pthread_mutex_lock(NULL) *)
    | Some _ =>
        if pthread_mutex_lock_ok env then ret (is_playing pau)
        else ret FALSE
    end).

Definition Au_GetTimeInPlayback (env : Env) (handle : HAU) : M PaTime :=
  match handle with
  | NULL => ret time_null_handle
  | Handle =>
      pau <- get_pau ;;
      match playback_time_mutex pau with
      | None => ret time_no_session
      | Some _ =>
          if pthread_mutex_lock_ok env then
            ret (Double.sub (playback_time pau) (playback_start_time pau))
          else ret time_lock_failed
      end
  end.

(** ** Executions *)

(** What can happen to a program state: the API calls of the client, one
    step of the reader thread, one callback invocation by PortAudio. *)
Inductive Op : Type :=
| OpNew (env : Env) (format sample_rate channels : Z)
| OpDelete
| OpPlay (env : Env) (filename : string)
| OpStop (env : Env)
| OpReader
| OpCallback (env : Env) (frameCount : Z).

Definition exec (op : Op) : M unit :=
  match op with
  | OpNew env f r c => Au_New env f r c ;; ret tt
  | OpDelete => Au_Delete Handle ;; ret tt
  | OpPlay env filename => Au_Play env Handle filename ;; ret tt
  | OpStop env => Au_Stop env Handle ;; ret tt
  | OpReader => SFFileReader_step
  | OpCallback env frameCount => PACallback_ env frameCount ;; ret tt
  end.

Fixpoint run (ops : list Op) : M unit :=
  match ops with
  | [] => ret tt
  | op :: ops' => exec op ;; run ops'
  end.

(** The state after [Au_Startup]. *)
Definition started : State :=
  {| AuInitialized_ := TRUE; AU_SFFR_Count := 0; AU_PAPC_Count := 0;
     output := None; calls := [] |}.

(** The states a program reaches from [started] without a fault; the one
    output is created only while no output is live. *)
Inductive reachable : State -> Prop :=
| reach_started : reachable started
| reach_exec s op u s' :
    reachable s ->
    (forall env f r c, op = OpNew env f r c -> output s = None) ->
    exec op s = Done (u, s') ->
    reachable s'.

(** The state in which a run ends, if it ends without a fault. *)
Definition state_after {A} (m : M A) (s : State) : option State :=
  match m s with
  | Done (_, s') => Some s'
  | Crash _ => None
  end.
Definition result_of {A} (m : M A) (s : State) : option A :=
  match m s with
  | Done (a, _) => Some a
  | Crash _ => None
  end.

(** An environment in which every call succeeds, opening [file] whatever
    the name. *)
Definition env_ok (file : option SNDFILE) (fresh : FRBuf_array) : Env :=
  {| malloc_output_ok := true; Pa_OpenDefaultStream_ok := true;
     sf_open := fun _ => file;
     pthread_mutex_init_ok := true; malloc_buffer := Some fresh;
     sem_init_ok := true; pthread_create_ok := true;
     Pa_StartStream_ok := true; pthread_join_ok := true;
     pthread_mutex_lock_ok := true; pthread_mutex_trylock_ok := true |}.

Definition zero_block : FRBuf := mkFRBuf PPPS_Playing 0 (fun _ => 0).
Definition zero_blocks : FRBuf_array := fun _ => zero_block.

(** ** Predicates used by the specifications *)

(** The formats the switch of [Au_New] maps to a PortAudio format. *)
Definition format_accepted (fmt : Z) : bool :=
  match Au_SampleFormat_of_int fmt with
  | Some AUSF_CUSTOM | None => false
  | Some _ => true
  end.


(** The formats whose case in [SFFileReader_] calls a decode function,
    with the width of the sample type it decodes to. *)
Definition decode_width (fmt : Z) : option nat :=
  match Au_SampleFormat_of_int fmt with
  | Some AUSF_F32 => Some 4%nat
  | Some AUSF_I32 => Some 4%nat
  | Some AUSF_I16 => Some 2%nat
  | _ => None
  end.


(** Whether [Au_Play] of [filename] on an output of sample rate [rate]
    gets as far as [pthread_create] and finds it failing. *)
Definition thread_creation_fails (env : Env) (filename : string) (rate : Z)
  : bool :=
  match sf_open env filename with
  | Some sf_info =>
      (sf_samplerate sf_info =? rate) && (sf_channels sf_info =? 2)
      && pthread_mutex_init_ok env && is_some (malloc_buffer env)
      && sem_init_ok env && negb (pthread_create_ok env)
  | None => false
  end.

(** The output [Au_Play] leaves at its [return TRUE]: the session state
    established on top of the output [p], for the opened file [fd] and
    the fresh ring-buffer memory [fresh]. *)
Definition session_start (p : Au_Output) (fd : SNDFILE) (fresh : FRBuf_array)
  : Au_Output :=
  {| format := format p; sample_rate := sample_rate p; channels := channels p;
     pa_stream := Some PaActive; pa_callback := fn_PAPlayCallback_;
     sf_reader_thread := Some RStart; sf_reader_semaphore := Some 1;
     sf_reader_should_exit := FALSE; sf_fd := Some fd;
     sf_buffer := Some (mkRing PA_RING_BUFFERCOUNT 0 0);
     sf_buffer_data := Some fresh;
     playback_time := time_unset; playback_start_time := time_unset;
     is_playing := FALSE; playback_time_mutex := Some tt;
     playback_frames := 0 |}.

(** The output [Au_Stop] leaves: no session state, the idle callback, the
    stream stopped.  Only the exit flag and the frame cursor keep what
    the session left in them. *)
Definition stopped_output (p : Au_Output) (exit_flag : BOOL) (frames : Z)
  : Au_Output :=
  {| format := format p; sample_rate := sample_rate p; channels := channels p;
     pa_stream := Some PaStopped; pa_callback := fn_PAEmptyCallback_;
     sf_reader_thread := None; sf_reader_semaphore := None;
     sf_reader_should_exit := exit_flag; sf_fd := None;
     sf_buffer := None; sf_buffer_data := None;
     playback_time := time_unset; playback_start_time := time_unset;
     is_playing := FALSE; playback_time_mutex := None;
     playback_frames := frames |}.

(** The calls [Au_Stop] makes on the output [p], whose reader thread, if
    it has one, was created. *)
Definition Au_Stop_calls (env : Env) (p : Au_Output) : list Call :=
  (if is_some (pa_stream p) then [C_Pa_StopStream] else []) ++
  match sf_reader_thread p with
  | Some _ =>
      [C_sem_post; C_pthread_join] ++
      (if pthread_join_ok env then [] else [C_pthread_cancel])
  | None => []
  end ++
  (if is_some (sf_reader_semaphore p) then [C_sem_destroy] else []) ++
  (if is_some (sf_buffer p) then [C_PaUtil_FlushRingBuffer] else []) ++
  (if is_some (sf_buffer_data p) then [C_free_buffer] else []) ++
  (if is_some (playback_time_mutex p) then [C_pthread_mutex_destroy] else []) ++
  (if is_some (sf_fd p) then [C_sf_close] else []).

(** The calls [Au_Delete] makes on the output [p]. *)
Definition Au_Delete_calls (p : Au_Output) : list Call :=
  (if is_some (pa_stream p) then [C_Pa_StopStream] else []) ++
  (if is_some (sf_fd p) then [C_sf_close] else []) ++
  (if is_some (pa_stream p) then [C_Pa_CloseStream] else []) ++
  [C_free_output].

(** The calls of an [Au_Play] that reaches its [return TRUE]. *)
Definition Au_Play_calls : list Call :=
  [C_Pa_StopStream; C_sf_open; C_pthread_mutex_init; C_malloc_buffer;
   C_PaUtil_InitializeRingBuffer; C_sem_init; C_pthread_create;
   C_Pa_StartStream; C_sched_yield; C_Pa_Sleep].

(** What holds of a live output between any two operations: the stream
    exists, the sample rate and the format passed the checks of [Au_New],
    a reader thread was created and comes with its semaphore, its ring
    buffer, the time mutex and a two-channel file, and the playing
    callback is installed only while a reader thread exists. *)
Record wf_output (p : Au_Output) : Prop := mk_wf_output {
  wf_stream : pa_stream p <> None;
  wf_rate : 1 <= sample_rate p;
  wf_format : format_accepted (format p) = true;
  wf_semaphore : sf_reader_thread p <> None -> sf_reader_semaphore p <> None;
  wf_buffer : sf_reader_thread p <> None -> sf_buffer p <> None;
  wf_buffer_data : sf_reader_thread p <> None -> sf_buffer_data p <> None;
  wf_file : sf_reader_thread p <> None ->
            forall fd, sf_fd p = Some fd -> sf_channels fd = 2;
  wf_mutex : sf_reader_thread p <> None -> playback_time_mutex p <> None;
  wf_callback : pa_callback p = fn_PAPlayCallback_ ->
                sf_reader_thread p <> None;
  wf_created : sf_reader_thread p <> Some RNotCreated
}.

Definition wf_state (s : State) : Prop :=
  AuInitialized_ s = TRUE /\
  forall p, output s = Some p -> wf_output p.

(** A live handle: the library is initialised and the output exists. *)
Definition live (s : State) : Prop :=
  AuInitialized_ s = TRUE /\ output s <> None.

(** What a step of the reader thread leaves alone. *)
Record reader_frame (p p' : Au_Output) : Prop := mk_reader_frame {
  rf_format : format p' = format p;
  rf_rate : sample_rate p' = sample_rate p;
  rf_channels : channels p' = channels p;
  rf_stream : pa_stream p' = pa_stream p;
  rf_callback : pa_callback p' = pa_callback p;
  rf_exit : sf_reader_should_exit p' = sf_reader_should_exit p;
  rf_time : playback_time p' = playback_time p;
  rf_start : playback_start_time p' = playback_start_time p;
  rf_playing : is_playing p' = is_playing p;
  rf_mutex : playback_time_mutex p' = playback_time_mutex p;
  rf_thread : is_some (sf_reader_thread p') = is_some (sf_reader_thread p);
  rf_sem : is_some (sf_reader_semaphore p') = is_some (sf_reader_semaphore p);
  rf_buffer : is_some (sf_buffer p') = is_some (sf_buffer p);
  rf_data : is_some (sf_buffer_data p') = is_some (sf_buffer_data p);
  rf_fd : is_some (sf_fd p') = is_some (sf_fd p)
}.

(** The operations of uninterrupted playback: the two threads of the
    session run, the client does not call the API. *)
Definition playback_op (op : Op) : Prop :=
  match op with
  | OpReader | OpCallback _ _ => True
  | _ => False
  end.

(** The slot a cursor value designates. *)
Definition slot_of (rb : PaUtilRingBuffer) (slots : FRBuf_array) (j : Z) : FRBuf :=
  slots (j mod bufferSize rb).

(** The invariant of a running session behind the monotonic clock: the
    cursors stay within one capacity of each other; the queued blocks
    carry positions that are non-negative, non-decreasing and at most the
    reader's frame cursor; the frames still to read fit a [long]; and the
    published time, once initialised, is at most the time of every queued
    block and of the frame cursor. *)
Record clock_facts (rate : Z) (start now : PaTime) (frames : Z)
    (rb : PaUtilRingBuffer) (slots : FRBuf_array) (fd : SNDFILE)
  : Prop := mk_clock_facts {
  ci_rate : 1 <= rate;
  ci_channels : sf_channels fd = 2;
  ci_size : bufferSize rb = PA_RING_BUFFERCOUNT;
  ci_read : 0 <= readIndex rb <= writeIndex rb;
  ci_write : writeIndex rb <= readIndex rb + PA_RING_BUFFERCOUNT;
  ci_frames : 0 <= frames;
  ci_long : frames + frames_left fd <= LONG_MAX;
  ci_pos : forall j, readIndex rb <= j < writeIndex rb ->
                     0 <= pos_frames (slot_of rb slots j) <= frames;
  ci_sorted : forall j j', readIndex rb <= j <= j' -> j' < writeIndex rb ->
                           pos_frames (slot_of rb slots j)
                           <= pos_frames (slot_of rb slots j');
  ci_time :
    start = time_unset \/
    start = time_zero /\ (0 <= now)%Q /\
    (now <= frames_to_time frames rate)%Q /\
    (forall j, readIndex rb <= j < writeIndex rb ->
       (now <= frames_to_time (pos_frames (slot_of rb slots j)) rate)%Q)
}.

(** An output with a session in place: what [PAPlayCallback_] and the
    reader dereference is there. *)
Definition session_active (p : Au_Output) (count : Z)
    (rb : PaUtilRingBuffer) (slots : FRBuf_array) : Prop :=
  sf_reader_semaphore p = Some count /\ sf_buffer p = Some rb /\
  sf_buffer_data p = Some slots /\ playback_time_mutex p <> None.

Definition clock_inv (p : Au_Output) : Prop :=
  exists count rb slots fd,
    session_active p count rb slots /\ sf_fd p = Some fd /\
    sf_reader_thread p <> None /\
    clock_facts (sample_rate p) (playback_start_time p) (playback_time p)
                (playback_frames p) rb slots fd.

(** How a step of uninterrupted playback relates the output before and
    after: the configuration stays, the invariant holds again, and an
    initialised clock stays initialised and does not run backwards. *)
Record clock_step (p p' : Au_Output) : Prop := mk_clock_step {
  cs_inv : clock_inv p';
  cs_format : format p' = format p;
  cs_channels : channels p' = channels p;
  cs_rate : sample_rate p' = sample_rate p;
  cs_callback : pa_callback p' = pa_callback p;
  cs_start : playback_start_time p = time_zero ->
             playback_start_time p' = time_zero;
  cs_time : playback_start_time p = time_zero ->
            (playback_time p <= playback_time p')%Q
}.

(** ** The effect of one callback invocation, in closed form *)

(** The program state after the [sem_post] of the callback, with [p'] for
    the output. *)
Definition posted (s : State) (p' : Au_Output) : State :=
  mkState (AuInitialized_ s) (AU_SFFR_Count s)
          (wrap_uint (AU_PAPC_Count s + 1)) (Some p') (calls s ++ [C_sem_post]).

(** The output after MARK_NOT_PLAYING. *)
Definition marked_not_playing (env : Env) (p : Au_Output) : Au_Output :=
  if pthread_mutex_lock_ok env then set_is_playing FALSE p else p.

(** The output after the update of the sync information for the block
    [blk], when the callback got past it. *)
Definition synced (env : Env) (blk : FRBuf) (p : Au_Output) : Au_Output :=
  if Qeq_bool (playback_start_time p) time_unset then
    set_is_playing TRUE
      (set_playback_time time_zero (set_playback_start_time time_zero p))
  else if pthread_mutex_trylock_ok env then
    set_is_playing TRUE
      (set_playback_time (frames_to_time (pos_frames blk) (sample_rate p)) p)
  else p.

(** ** A playback schedule

    The schedule in which the reader keeps up: before every callback
    invocation the reader thread runs until it blocks on its semaphore (or
    has returned).  Forty steps cover the longest turn: thread start,
    wake-up, one iteration per slot, and the return to [sem_wait]. *)
Definition reader_turn : M unit := SFFileReader_run 40.

(** The block at the read cursor, when one is filled. *)
Definition front_block : M (option FRBuf) :=
  pau <- get_pau ;;
  match sf_buffer pau, sf_buffer_data pau with
  | Some rb, Some slots =>
      if 0 <? PaUtil_GetRingBufferReadAvailable rb
      then ret (Some (slot_of rb slots (readIndex rb)))
      else ret None
  | _, _ => ret None
  end.

(** What one round of the schedule shows: the block at the read cursor
    when PortAudio asks for the next buffer, and what the invocation
    returned ([None]: PortAudio no longer invokes the callback). *)
Definition Observation : Type :=
  (option FRBuf * option (PaStreamCallbackResult * option (list byte)))%type.

Definition playback_round (env : Env) : M Observation :=
  reader_turn ;;
  b <- front_block ;;
  r <- PACallback_ env PA_BUFFER_FRAMECOUNT ;;
  ret (b, r).

Fixpoint playback (env : Env) (rounds : nat) : M (list Observation) :=
  match rounds with
  | O => ret []
  | S n =>
      o <- playback_round env ;;
      os <- playback env n ;;
      ret (o :: os)
  end.

(** The bytes of block [j] of a two-channel file, as a decode call of
    sample width [width] stores them. *)
Definition block_samples : nat := 512.
Definition block_bytes (width : nat) (samples : list Z) (j : nat) : list byte :=
  flat_map (sample_bytes width)
           (firstn block_samples (skipn (block_samples * j) samples)).

(** An invocation that took a block tagged [tag] at frame position [pos]
    whose data starts with [bytes], and returned [code] after copying the
    block's first [n] bytes to the output. *)
Definition took_block (o : Observation) (tag : PPPS) (pos : Z)
    (bytes : list byte) (code : PaStreamCallbackResult) (n : Z) : Prop :=
  exists b,
    o = (Some b, Some (code, Some (load_bytes (data b) (Z.to_nat n)))) /\
    state b = tag /\ pos_frames b = pos /\
    load_bytes (data b) (length bytes) = bytes.

(** Block [j] as the reader publishes it from a two-channel file of [K]
    full blocks holding [samples]: the first [K] blocks are tagged
    Playing and carry their samples, every later one is tagged Stopped. *)
Definition block_ok (width : nat) (samples : list Z) (K j : nat) (b : FRBuf)
  : Prop :=
  if (j <? K)%nat then
    state b = PPPS_Playing /\
    pos_frames b = PA_BUFFER_FRAMECOUNT * Z.of_nat j /\
    load_bytes (data b) (length (block_bytes width samples j))
    = block_bytes width samples j
  else
    state b = PPPS_Stopped /\
    pos_frames b = PA_BUFFER_FRAMECOUNT * Z.of_nat K.

(** A session playing such a file at the point where the callback has
    taken [i] blocks and the reader has published [w]: the callback
    copies [size] bytes per block, the reader is at [pc] with its
    semaphore at [count], the file handle stands after the blocks read so
    far, and every queued block is as published. *)
Record in_session (width : nat) (size : Z) (samples : list Z) (K i w : nat)
    (pc : ReaderPc) (count : Z) (p : Au_Output) : Prop := mk_in_session {
  is_width : decode_width (format p) = Some width;
  is_size : bufferSizeBytes_ (Some p) = size;
  is_fits : 0 <= size <= sizeof_FRBuf_data;
  is_stream : pa_stream p = Some PaActive;
  is_callback : pa_callback p = fn_PAPlayCallback_;
  is_thread : sf_reader_thread p = Some pc;
  is_semaphore : sf_reader_semaphore p = Some count;
  is_exit : sf_reader_should_exit p = FALSE;
  is_file : exists rate,
      sf_fd p = Some (mkSNDFILE rate 2
                        (skipn (block_samples * Nat.min w K) samples));
  is_buffer :
    sf_buffer p = Some (mkRing PA_RING_BUFFERCOUNT (Z.of_nat w) (Z.of_nat i));
  is_mutex : playback_time_mutex p <> None;
  is_frames :
    playback_frames p = PA_BUFFER_FRAMECOUNT * Z.of_nat (Nat.min w K);
  is_cursors : (i <= w <= i + 32)%nat;
  is_blocks : exists slots,
      sf_buffer_data p = Some slots /\
      forall j, (i <= j < w)%nat ->
                block_ok width samples K j
                         (slots (Z.of_nat j mod PA_RING_BUFFERCOUNT))
}.

Definition session_at (width : nat) (size : Z) (samples : list Z)
    (K i w : nat) (pc : ReaderPc) (count : Z) (s : State) : Prop :=
  AuInitialized_ s = TRUE /\
  exists p,
    output s = Some p /\ in_session width size samples K i w pc count p.

(** Where a round of the schedule starts once [i] blocks are taken: at
    the thread's start before the first round, and afterwards with one
    free slot and the semaphore posted by the last invocation. *)
Definition round_start (width : nat) (size : Z) (samples : list Z)
    (K i : nat) (s : State) : Prop :=
  match i with
  | O => session_at width size samples K 0 0 RStart 1 s
  | S _ => session_at width size samples K i (i + 31) RWait 1 s
  end.

(** ** Concrete programs

    The states and files the witnesses and counterexamples run on. *)

(** After [Au_Startup] and a successful [Au_New]. *)
Definition fresh_output (fmt : Au_SampleFormat) (rate chans : Z) : State :=
  {| AuInitialized_ := TRUE; AU_SFFR_Count := 0; AU_PAPC_Count := 0;
     output := Some (set_pa_stream (Some PaStopped)
                       (zeroed_output (int_of_Au_SampleFormat fmt) rate chans));
     calls := [C_malloc_output; C_Pa_OpenDefaultStream] |}.

(** A two-channel file of [blocks] full blocks whose samples count up
    from 0. *)
Definition counting_file (rate : Z) (blocks : nat) : SNDFILE :=
  mkSNDFILE rate 2 (map Z.of_nat (seq 0 (block_samples * blocks))).

(** After a successful [Au_Play] of [fd] on a fresh output. *)
Definition playing_output (fmt : Au_SampleFormat) (rate chans : Z)
    (fd : SNDFILE) : State :=
  {| AuInitialized_ := TRUE; AU_SFFR_Count := 0; AU_PAPC_Count := 0;
     output := Some (session_start
                       (zeroed_output (int_of_Au_SampleFormat fmt) rate chans)
                       fd zero_blocks);
     calls := [C_malloc_output; C_Pa_OpenDefaultStream] ++ Au_Play_calls |}.

(** The playing output once the reader has had its first turn. *)
Definition filled_output : State :=
  match reader_turn (playing_output AUSF_F32 44100 2 (counting_file 44100 3))
  with
  | Done (_, s) => s
  | Crash _ => started
  end.

(** The read cursor of the ring buffer, when there is one. *)
Definition read_cursor (s : State) : option Z :=
  match output s with
  | Some p => option_map readIndex (sf_buffer p)
  | None => None
  end.

(** The write cursor of the ring buffer, when there is one. *)
Definition write_cursor (s : State) : option Z :=
  match output s with
  | Some p => option_map writeIndex (sf_buffer p)
  | None => None
  end.

(** The state a run of [ops] leads to ([s] itself if it faults). *)
Definition after (ops : list Op) (s : State) : State :=
  match run ops s with
  | Done (_, s') => s'
  | Crash _ => s
  end.

(** An environment in which the time mutex cannot be acquired. *)
Definition env_lock_fails : Env :=
  {| malloc_output_ok := true; Pa_OpenDefaultStream_ok := true;
     sf_open := fun _ => None;
     pthread_mutex_init_ok := true; malloc_buffer := Some zero_blocks;
     sem_init_ok := true; pthread_create_ok := true;
     Pa_StartStream_ok := true; pthread_join_ok := true;
     pthread_mutex_lock_ok := false; pthread_mutex_trylock_ok := false |}.

(** An environment in which [file] opens and [pthread_create] fails. *)
Definition env_no_thread (file : SNDFILE) : Env :=
  {| malloc_output_ok := true; Pa_OpenDefaultStream_ok := true;
     sf_open := fun _ => Some file;
     pthread_mutex_init_ok := true; malloc_buffer := Some zero_blocks;
     sem_init_ok := true; pthread_create_ok := false;
     Pa_StartStream_ok := true; pthread_join_ok := true;
     pthread_mutex_lock_ok := true; pthread_mutex_trylock_ok := true |}.

(** ** Library start-up and shutdown *)

Definition set_AuInitialized_ (v : BOOL) : M unit :=
  fun s => Done (tt, mkState v (AU_SFFR_Count s) (AU_PAPC_Count s)
                             (output s) (calls s)).

(** Initialize AU.  Must be called before any other functions.
    [Pa_Initialize_ok] tells whether [Pa_Initialize] returns [paNoError];
    [calls] records the calls made for an output, not this one. *)
Definition Au_Startup (Pa_Initialize_ok : bool) : M BOOL :=
  s <- get_state ;;
  if AuInitialized_ s then ret TRUE                      (* idempotent *)
  else
    (* Initialize PortAudio *)
    if negb Pa_Initialize_ok then ret FALSE
    else set_AuInitialized_ TRUE ;; ret TRUE.

(** Shutdown AU.  Call this after closing any outputs you have open.
    [Pa_Terminate_ok] tells whether [Pa_Terminate] returns [paNoError].
    The function itself touches no output; what PortAudio does to a
    stream that is still open is not part of it. *)
Definition Au_Shutdown (Pa_Terminate_ok : bool) : M BOOL :=
  s <- get_state ;;
  if negb (AuInitialized_ s) then ret TRUE               (* idempotent *)
  else
    (* Shutdown PortAudio *)
    if negb Pa_Terminate_ok then ret FALSE
    else set_AuInitialized_ FALSE ;; ret TRUE.

(** The globals of the translation unit when the program starts. *)
Definition program_start : State :=
  {| AuInitialized_ := FALSE; AU_SFFR_Count := 0; AU_PAPC_Count := 0;
     output := None; calls := [] |}.

(** ** Au_InspectFile *)

(** The constants of [sndfile.h] that [Au_InspectFile] names.  The header
    belongs to libsndfile; its values are taken as parameters. *)
Record SF_FORMAT : Type := mkSF_FORMAT {
  SF_FORMAT_SUBMASK : Z;
  SF_FORMAT_PCM_S8 : Z;
  SF_FORMAT_PCM_U8 : Z;
  SF_FORMAT_PCM_16 : Z;
  SF_FORMAT_PCM_24 : Z;
  SF_FORMAT_PCM_32 : Z;
  SF_FORMAT_FLOAT : Z;
  SF_FORMAT_VORBIS : Z
}.


(** The values libsndfile 1.0 gives these constants. *)
Definition sndfile_h : SF_FORMAT :=
  {| SF_FORMAT_SUBMASK := 65535;
     SF_FORMAT_PCM_S8 := 1; SF_FORMAT_PCM_U8 := 5; SF_FORMAT_PCM_16 := 2;
     SF_FORMAT_PCM_24 := 3; SF_FORMAT_PCM_32 := 4; SF_FORMAT_FLOAT := 6;
     SF_FORMAT_VORBIS := 96 |}.

(** What [sf_open] and [sf_seek] report of a file beyond the header
    fields of [SNDFILE]: [sf_info.format], [sf_info.seekable], and the
    result of [sf_seek(sf_fd, 0, SEEK_END)]. *)
Record SF_INFO_rest : Type := mkSF_INFO_rest {
  sfi_format : Z;
  sfi_seekable : bool;
  sf_seek_end : Z
}.

(** The caller's variables behind the out-pointers [samplerate],
    [channels], [format] and [len]. *)
Record Inspected : Type := mkInspected {
  i_samplerate : Z;
  i_channels : Z;
  i_format : Au_SampleFormat;
  i_len : Z
}.

(** The switch on [sf_info.format & SF_FORMAT_SUBMASK]. *)
Definition subtype_format (K : SF_FORMAT) (subtype : Z) : Au_SampleFormat :=
  if subtype =? SF_FORMAT_PCM_S8 K then AUSF_I8
  else if subtype =? SF_FORMAT_PCM_U8 K then AUSF_UI8
  else if subtype =? SF_FORMAT_PCM_16 K then AUSF_I16
  else if subtype =? SF_FORMAT_PCM_24 K then AUSF_I24
  else if subtype =? SF_FORMAT_PCM_32 K then AUSF_I32
  else if subtype =? SF_FORMAT_FLOAT K then AUSF_F32
  else if subtype =? SF_FORMAT_VORBIS K then AUSF_F32
       (* sf src/ogg_vorbis.c uses float inside *)
  else AUSF_CUSTOM.

(** Get the sample rate and format from a file.  [len_given] tells
    whether [len] is a non-NULL pointer; [vars] holds the caller's
    variables before the call.
    @return TRUE on success; FALSE on failure. *)
Definition Au_InspectFile (K : SF_FORMAT) (env : Env)
    (info : string -> SF_INFO_rest) (filename : string) (len_given : bool)
    (vars : Inspected) : M (BOOL * Inspected) :=
  call C_sf_open ;;
  match sf_open env filename with
  | None => ret (FALSE, vars)
  | Some sf_info =>
      let format :=
        subtype_format K (Z.land (sfi_format (info filename))
                                 (SF_FORMAT_SUBMASK K)) in
      let len :=
        if len_given && sfi_seekable (info filename)
        then wrap_long (sf_seek_end (info filename))
        else i_len vars in
      call C_sf_close ;;
      ret (TRUE,
           mkInspected (sf_samplerate sf_info) (sf_channels sf_info)
                       format len)
  end.

(** ** examples/check_file.c *)

(** The [sizeof] values the example prints. *)
Record Sizes : Type := mkSizes {
  sizeof_short : Z;
  sizeof_int : Z;
  sizeof_long : Z;
  sizeof_float_ : Z;
  sizeof_double : Z
}.

(** [printf("%d", z)] *)
Definition print_d (z : Z) : string :=
  DecimalString.NilZero.string_of_int (Z.to_int z).

Definition newline : string := String (Ascii.ascii_of_nat 10) EmptyString.

(** The switch of [main] on the format. *)
Definition format_name (f : Au_SampleFormat) : string :=
  match f with
  | AUSF_F32 => "float32"
  | AUSF_I32 => "int32"
  | AUSF_I24 => "int24"
  | AUSF_I16 => "int16"
  | AUSF_I8 => "int8"
  | AUSF_UI8 => "uint8"
  | AUSF_CUSTOM => "unknown"
  end ++ newline.

Definition sizes_line (sz : Sizes) : string :=
  "Sizes: short " ++ print_d (sizeof_short sz) ++
  " int " ++ print_d (sizeof_int sz) ++
  " long " ++ print_d (sizeof_long sz) ++
  " float " ++ print_d (sizeof_float_ sz) ++
  " double " ++ print_d (sizeof_double sz) ++ newline.

Definition file_line (name : string) (v : Inspected) : string :=
  "File " ++ name ++ ": " ++ print_d (i_channels v) ++ " channels @ " ++
  print_d (i_samplerate v) ++ " Hz, format ".

(** [main] of the example: the exit status and what it wrote to the
    standard output.  [argv] holds the [argc] arguments; [locals] is what
    the uninitialised variables [samplerate], [channels] and [format]
    hold. *)
Definition check_file_main (K : SF_FORMAT) (sz : Sizes)
    (Pa_Initialize_ok Pa_Terminate_ok : bool) (env : Env)
    (info : string -> SF_INFO_rest) (locals : Inspected)
    (argv : list string) : M (Z * string) :=
  let out := sizes_line sz in
  if Z.of_nat (length argv) <? 2 then ret (1, out)
  else
    started_ok <- Au_Startup Pa_Initialize_ok ;;
    if negb started_ok then ret (2, out)
    else
      let name := nth 1 argv EmptyString in
      r <- Au_InspectFile K env info name false locals ;;
      if negb (fst r) then ret (3, out)
      else
        let out := (out ++ file_line name (snd r)
                        ++ format_name (i_format (snd r)))%string in
        stopped_ok <- Au_Shutdown Pa_Terminate_ok ;;
        if negb stopped_ok then ret (4, out)
        else ret (0, out).

(** ** Counting the calls made *)

Definition Call_eq_dec (a b : Call) : {a = b} + {a <> b}.
Proof. decide equality. Defined.

(** How often [c] occurs among the calls made from [s] to [s']. *)
Definition calls_between (c : Call) (s s' : State) : nat :=
  count_occ Call_eq_dec (skipn (length (calls s)) (calls s')) c.

(** ** What uninterrupted playback leaves alone *)

(** The two threads of a session change neither the configuration of the
    output nor which of its resources exist. *)
Record session_kept (p p' : Au_Output) : Prop := mk_session_kept {
  sk_format : format p' = format p;
  sk_rate : sample_rate p' = sample_rate p;
  sk_channels : channels p' = channels p;
  sk_stream : is_some (pa_stream p') = is_some (pa_stream p);
  sk_thread : is_some (sf_reader_thread p') = is_some (sf_reader_thread p);
  sk_sem : is_some (sf_reader_semaphore p')
           = is_some (sf_reader_semaphore p);
  sk_buffer : is_some (sf_buffer p') = is_some (sf_buffer p);
  sk_data : is_some (sf_buffer_data p') = is_some (sf_buffer_data p);
  sk_fd : is_some (sf_fd p') = is_some (sf_fd p);
  sk_mutex : playback_time_mutex p' = playback_time_mutex p
}.

(** The output, the ring buffer and the block array of a state that has
    them. *)
Definition output_of (s : State) : Au_Output :=
  match output s with
  | Some p => p
  | None => zeroed_output 0 0 0
  end.

Definition ring_of (s : State) : PaUtilRingBuffer :=
  match sf_buffer (output_of s) with
  | Some rb => rb
  | None => mkRing 0 0 0
  end.

Definition slots_of (s : State) : FRBuf_array :=
  match sf_buffer_data (output_of s) with
  | Some slots => slots
  | None => zero_blocks
  end.

(** The playing output once the reader has published its first block. *)
Definition one_block_queued : State :=
  after [OpReader; OpReader; OpReader]
        (playing_output AUSF_F32 44100 2 (counting_file 44100 3)).

(** The steps a reader that has been told to exit, with its semaphore
    posted, still takes before it returns: it finishes the pass over the
    free slots it is in, and leaves at the next [sem_wait]. *)
Definition steps_to_exit (pc : ReaderPc) : nat :=
  match pc with
  | RDone | RNotCreated => 0
  | RWait => 1
  | RStart => 2
  | RFill n => Z.to_nat n + 2
  end.

(** The free slots a reader in the middle of a pass still has to fill. *)
Definition slots_to_fill (pc : ReaderPc) : Z :=
  match pc with
  | RFill n => Z.max n 0
  | _ => 0
  end.

(** A session whose client has asked the reader to exit. *)
Definition exit_requested : State :=
  {| AuInitialized_ := TRUE; AU_SFFR_Count := 0; AU_PAPC_Count := 0;
     output := Some (set_sf_reader_should_exit TRUE
                       (session_start (zeroed_output 0 44100 2)
                                      (counting_file 44100 3) zero_blocks));
     calls := [] |}.

(** A session whose client has asked the reader to exit while it was
    filling the ring, three slots short of the end of its pass. *)
Definition exit_requested_mid_pass : State :=
  {| AuInitialized_ := TRUE; AU_SFFR_Count := 0; AU_PAPC_Count := 0;
     output := Some (set_sf_reader_thread (Some (RFill 3))
                       (set_sf_buffer
                          (Some (mkRing PA_RING_BUFFERCOUNT 29 0))
                          (set_sf_reader_should_exit TRUE
                             (session_start (zeroed_output 0 44100 2)
                                (counting_file 44100 40) zero_blocks))));
     calls := [] |}.

(** A session whose file ends in a block of 100 frames, the reader about
    to fill the first slot. *)
Definition partial_block_file : SNDFILE :=
  mkSNDFILE 44100 2 (map Z.of_nat (seq 0 200)).
Definition reading_partial_block : State :=
  {| AuInitialized_ := TRUE; AU_SFFR_Count := 0; AU_PAPC_Count := 0;
     output := Some (set_sf_reader_thread (Some (RFill 32))
                       (session_start (zeroed_output 0 44100 2)
                                      partial_block_file zero_blocks));
     calls := [] |}.

(** A session on an output with three float channels, one block queued. *)
Definition three_channel_session : State :=
  {| AuInitialized_ := TRUE; AU_SFFR_Count := 0; AU_PAPC_Count := 0;
     output := Some (set_sf_buffer (Some (mkRing PA_RING_BUFFERCOUNT 1 0))
                       (session_start (zeroed_output 0 44100 3)
                                      (counting_file 44100 3) zero_blocks));
     calls := [] |}.

(** The clock of a session at the start of round [i] of the schedule:
    the start time is unset before the first round and 0 afterwards. *)
Definition clock_at (rate : Z) (i : nat) (s : State) : Prop :=
  exists p,
    output s = Some p /\ sample_rate p = rate /\ 1 <= rate /\
    playback_start_time p = match i with
                            | O => time_unset
                            | S _ => time_zero
                            end.

(** ** Proof automation *)

(** Unfolds the monad and the field accesses, and nothing of the
    arithmetic. *)
Ltac au_sim :=
  cbv beta iota zeta delta
    [bind ret crash call get_pau put_output store get_state get_SFFR_Count
     set_SFFR_Count set_PAPC_Count when is_some POW set_reader_pc Pa_StopStream
     AuInitialized_ AU_SFFR_Count AU_PAPC_Count output calls
     format sample_rate channels pa_stream pa_callback sf_reader_thread
     sf_reader_semaphore sf_reader_should_exit sf_fd sf_buffer sf_buffer_data
     playback_time playback_start_time is_playing playback_time_mutex
     playback_frames
     set_pa_stream set_pa_callback set_sf_reader_thread
     set_sf_reader_semaphore set_sf_reader_should_exit set_sf_fd set_sf_buffer
     set_sf_buffer_data set_playback_time set_playback_start_time
     set_is_playing set_playback_time_mutex set_playback_frames
     zeroed_output session_start stopped_output fst snd TRUE FALSE];
  cbn [negb andb orb].


(** * Theorems *)

(** ** Machine integers and the decoder *)

Lemma wrap_int_small x : - INT_MAX - 1 <= x <= INT_MAX -> wrap_int x = x.
Proof.
  unfold wrap_int, wrap_signed, INT_MAX. intros H.
  change (2 ^ (32 - 1)) with 2147483648. change (2 ^ 32) with 4294967296.
  rewrite Z.mod_small; lia.
Qed.

Lemma wrap_long_small x : - LONG_MAX - 1 <= x <= LONG_MAX -> wrap_long x = x.
Proof.
  unfold wrap_long, wrap_signed, LONG_MAX. intros H.
  change (2 ^ (64 - 1)) with 9223372036854775808.
  change (2 ^ 64) with 18446744073709551616.
  rewrite Z.mod_small; lia.
Qed.

Lemma format_size_range fmt w : format_size fmt = Some w -> 1 <= w <= 4.
Proof.
  unfold format_size.
  destruct (Au_SampleFormat_of_int fmt) as [[]|]; intros [= <-]; lia.
Qed.

Lemma format_accepted_size fmt :
  format_accepted fmt = true -> exists w, format_size fmt = Some w.
Proof.
  unfold format_accepted, format_size.
  destruct (Au_SampleFormat_of_int fmt) as [[]|]; eauto; discriminate.
Qed.

Lemma bufferSizeBytes_value p w :
  format_size (format p) = Some w ->
  1 <= channels p -> PA_BUFFER_FRAMECOUNT * channels p * w <= INT_MAX ->
  bufferSizeBytes_ (Some p) = PA_BUFFER_FRAMECOUNT * channels p * w.
Proof.
  intros Hw Hc Hb. unfold bufferSizeBytes_. rewrite Hw.
  apply format_size_range in Hw. unfold PA_BUFFER_FRAMECOUNT, INT_MAX in *.
  rewrite (wrap_int_small (256 * channels p)) by (unfold INT_MAX; nia).
  apply wrap_int_small. unfold INT_MAX; nia.
Qed.


Lemma length_sample_bytes w v : length (sample_bytes w v) = w.
Proof. unfold sample_bytes. now rewrite length_map, length_seq. Qed.

Lemma length_flat_map_sample_bytes w l :
  length (flat_map (sample_bytes w) l) = (w * length l)%nat.
Proof.
  induction l as [|v l IH]; cbn [flat_map length]; [lia|].
  rewrite length_app, length_sample_bytes, IH. lia.
Qed.

Lemma frames_left_nonneg fd : 0 <= frames_left fd.
Proof.
  unfold frames_left. destruct (sf_channels fd <=? 0) eqn:E; [lia|].
  apply Z.leb_gt in E. apply Z.div_pos; lia.
Qed.

Lemma sf_readf_spec w fd :
  sf_channels fd = 2 -> (w <= 4)%nat ->
  exists n bytes fd',
    sf_readf w fd PA_BUFFER_FRAMECOUNT = (n, bytes, fd') /\
    0 <= n <= PA_BUFFER_FRAMECOUNT /\
    n = Z.min PA_BUFFER_FRAMECOUNT (frames_left fd) /\
    Z.of_nat (length bytes) <= sizeof_FRBuf_data /\
    sf_channels fd' = 2 /\ sf_samplerate fd' = sf_samplerate fd /\
    frames_left fd' = frames_left fd - n.
Proof.
  intros Hc Hw. unfold sf_readf. do 3 eexists. split; [reflexivity|].
  pose proof (frames_left_nonneg fd) as Hnn.
  cbn [sf_channels sf_samplerate]. rewrite Hc.
  unfold PA_BUFFER_FRAMECOUNT, sizeof_FRBuf_data, PA_MAX_CHANNELS, sizeof_float in *.
  repeat apply conj; try lia.
  - rewrite length_flat_map_sample_bytes, length_firstn.
    set (k := Nat.min _ _). assert (k <= 512)%nat by (subst k; lia).
    assert (w * k <= 4 * 512)%nat by (apply Nat.mul_le_mono; lia).
    unfold PA_BUFFER_FRAMECOUNT. lia.
  - unfold frames_left in *. cbn [sf_channels sf_samples]. rewrite Hc in *.
    cbn [Z.leb Z.compare] in *. rewrite length_skipn.
    set (L := length (sf_samples fd)) in *.
    set (n := Z.min 256 (Z.of_nat L / 2)) in *.
    assert (Hn : 0 <= n <= Z.of_nat L / 2) by lia.
    assert (H2 : n * 2 <= Z.of_nat L).
    { pose proof (Z.mul_div_le (Z.of_nat L) 2). lia. }
    rewrite Nat2Z.inj_sub by lia. rewrite Z2Nat.id by lia.
    replace (Z.of_nat L - n * 2) with (Z.of_nat L + (- n) * 2) by lia.
    rewrite Z.div_add by lia. lia.
Qed.

Lemma sf_readf_handle_spec w fd :
  (forall f, fd = Some f -> sf_channels f = 2) -> (w <= 4)%nat ->
  exists n bytes fd',
    sf_readf_handle w fd PA_BUFFER_FRAMECOUNT = (n, bytes, fd') /\
    0 <= n <= PA_BUFFER_FRAMECOUNT /\
    Z.of_nat (length bytes) <= sizeof_FRBuf_data /\
    (forall f, fd' = Some f -> sf_channels f = 2) /\
    is_some fd' = is_some fd.
Proof.
  intros Hc Hw. destruct fd as [f|]; cbn [sf_readf_handle].
  - destruct (sf_readf_spec w f (Hc f eq_refl) Hw)
      as (n & bytes & fd' & E & Hn & _ & Hb & Hc' & _).
    rewrite E. exists n, bytes, (Some fd').
    repeat apply conj; auto; try lia. intros ? [= <-]; auto.
  - exists 0, [], None. unfold PA_BUFFER_FRAMECOUNT, sizeof_FRBuf_data.
    repeat apply conj; auto; cbn; try lia; congruence.
Qed.


(** ** Doubles *)

Lemma pow2_pos e : (0 < Double.pow2 e)%Q.
Proof. apply Qpower_0_lt. reflexivity. Qed.

Lemma pow2_add a b : (Double.pow2 (a + b) == Double.pow2 a * Double.pow2 b)%Q.
Proof. apply Qpower_plus. discriminate. Qed.

Lemma pow2_le a b : a <= b -> (Double.pow2 a <= Double.pow2 b)%Q.
Proof. intros H. apply Qpower_le_compat_l; [exact H|discriminate]. Qed.

Lemma pow2_lt a b : a < b -> (Double.pow2 a < Double.pow2 b)%Q.
Proof. intros H. apply Qpower_lt_compat_l; [exact H|reflexivity]. Qed.

Lemma pow2_lt_inv a b : (Double.pow2 a < Double.pow2 b)%Q -> a < b.
Proof.
  intros H. destruct (Z_lt_le_dec a b) as [|Hle]; [assumption|].
  apply pow2_le in Hle. lra.
Qed.

Lemma pow2_Z n : 0 <= n -> (Double.pow2 n == inject_Z (2 ^ n))%Q.
Proof. intros H. unfold Double.pow2. now rewrite Zpower_Qpower. Qed.

Lemma pow2_0 : (Double.pow2 0 == 1)%Q.
Proof. reflexivity. Qed.

Lemma pow2_opp e : (Double.pow2 (- e) == / Double.pow2 e)%Q.
Proof. apply Qpower_opp. Qed.

Lemma pow2_cancel e : (Double.pow2 e * Double.pow2 (- e) == 1)%Q.
Proof. rewrite <- pow2_add, Z.add_opp_diag_r. reflexivity. Qed.

Lemma Qeq_0_num x : (x == 0)%Q <-> Qnum x = 0.
Proof. destruct x as [n d]. unfold Qeq. cbn. lia. Qed.

Lemma mag_spec x :
  ~ (x == 0)%Q ->
  (Double.pow2 (Double.mag x - 1) <= Qabs x < Double.pow2 (Double.mag x))%Q.
Proof.
  intros Hx. rewrite Qeq_0_num in Hx. destruct x as [n d]. cbn [Qnum] in Hx.
  unfold Double.mag. cbn [Qnum Qden Qabs].
  destruct (Z.abs n =? 0) eqn:E0; [apply Z.eqb_eq in E0; lia|clear E0].
  set (N := Z.abs n). assert (HN : 0 < N) by (subst N; lia).
  set (a := Z.log2 N). set (b := Z.log2 (Z.pos d)).
  assert (Ha : 0 <= a) by apply Z.log2_nonneg.
  assert (Hb : 0 <= b) by apply Z.log2_nonneg.
  destruct (Z.log2_spec N HN) as [Ha1 Ha2]. fold a in Ha1, Ha2.
  destruct (Z.log2_spec (Z.pos d) ltac:(lia)) as [Hb1 Hb2].
  fold b in Hb1, Hb2.
  replace (Z.succ a) with (a + 1) in Ha2 by lia.
  replace (Z.succ b) with (b + 1) in Hb2 by lia.
  assert (Hlow : (Double.pow2 (a - b - 1) < N # d)%Q).
  { apply (Qmult_lt_r _ _ (Double.pow2 (b + 1))); [apply pow2_pos|].
    rewrite <- pow2_add. replace (a - b - 1 + (b + 1)) with a by lia.
    rewrite !pow2_Z by lia.
    set (A := 2 ^ a) in *. set (B := 2 ^ (b + 1)) in *.
    unfold Qlt, Qmult, inject_Z. cbn [Qnum Qden]. nia. }
  assert (Hhigh : (N # d < Double.pow2 (a - b + 1))%Q).
  { apply (Qmult_lt_r _ _ (Double.pow2 b)); [apply pow2_pos|].
    rewrite <- pow2_add. replace (a - b + 1 + b) with (a + 1) by lia.
    rewrite !pow2_Z by lia.
    set (A := 2 ^ (a + 1)) in *. set (B := 2 ^ b) in *.
    unfold Qlt, Qmult, inject_Z. cbn [Qnum Qden]. nia. }
  destruct (Qle_bool (Double.pow2 (a - b)) (N # d)) eqn:E.
  - apply Qle_bool_iff in E.
    replace (a - b + 1 - 1) with (a - b) by lia. split; assumption.
  - assert (Hlt : (N # d < Double.pow2 (a - b))%Q).
    { apply Qnot_le_lt. intros H. apply Qle_bool_iff in H. congruence. }
    split; [apply Qlt_le_weak; exact Hlow|exact Hlt].
Qed.

Lemma mag_unique x m :
  (Double.pow2 (m - 1) <= Qabs x < Double.pow2 m)%Q -> Double.mag x = m.
Proof.
  intros [H1 H2].
  assert (Hx : ~ (x == 0)%Q).
  { intros E. rewrite E in H1. pose proof (pow2_pos (m - 1)). cbn in H1. lra. }
  destruct (mag_spec x Hx) as [H3 H4].
  assert (Double.mag x - 1 < m) by (apply pow2_lt_inv; lra).
  assert (m - 1 < Double.mag x) by (apply pow2_lt_inv; lra).
  lia.
Qed.

Lemma mag_comp x y : (x == y)%Q -> Double.mag x = Double.mag y.
Proof.
  intros E. destruct (Qeq_dec y 0) as [Hy|Hy].
  - assert (Hx : (x == 0)%Q) by (rewrite E; exact Hy).
    apply Qeq_0_num in Hx, Hy. unfold Double.mag. rewrite Hx, Hy. reflexivity.
  - apply mag_unique. rewrite E. apply mag_spec. exact Hy.
Qed.

Lemma mag_0 : Double.mag 0 = 0.
Proof. reflexivity. Qed.

Lemma mag_mono x y : (0 < x)%Q -> (x <= y)%Q -> Double.mag x <= Double.mag y.
Proof.
  intros Hx Hxy.
  destruct (mag_spec x) as [H1 _]; [lra|].
  destruct (mag_spec y) as [_ H2]; [lra|].
  rewrite Qabs_pos in H1 by lra. rewrite Qabs_pos in H2 by lra.
  assert (Double.mag x - 1 < Double.mag y) by (apply pow2_lt_inv; lra).
  lia.
Qed.

(** *** Rounding to an integer *)

Lemma rhe_cases y :
  let f := Qfloor y in
  (inject_Z f <= y < inject_Z f + 1)%Q /\
  ((y - inject_Z f < 1 # 2)%Q /\ Double.round_half_even y = f \/
   (y - inject_Z f == 1 # 2)%Q /\
     Double.round_half_even y = (if Z.even f then f else f + 1) \/
   (1 # 2 < y - inject_Z f)%Q /\ Double.round_half_even y = f + 1).
Proof.
  intros f. split.
  - split; [apply Qfloor_le|].
    pose proof (Qlt_floor y) as H. fold f in H.
    rewrite inject_Z_plus in H. exact H.
  - unfold Double.round_half_even. fold f.
    destruct (Qcompare_spec (y - inject_Z f) (1 # 2)); auto.
Qed.

Lemma rhe_Z z : Double.round_half_even (inject_Z z) = z.
Proof.
  destruct (rhe_cases (inject_Z z)) as [_ H]. rewrite Qfloor_Z in H.
  destruct H as [[_ H]|[[H _]|[H _]]]; [exact H|lra|lra].
Qed.

Lemma rhe_comp x y :
  (x == y)%Q -> Double.round_half_even x = Double.round_half_even y.
Proof.
  intros E. unfold Double.round_half_even.
  rewrite (Qfloor_comp x y E).
  rewrite (Qcompare_comp (x - inject_Z (Qfloor y))%Q
             (y - inject_Z (Qfloor y))%Q
             ltac:(rewrite E; reflexivity) (1 # 2) (1 # 2) (Qeq_refl _)).
  reflexivity.
Qed.

Lemma rhe_near y :
  (y - (1 # 2) <= inject_Z (Double.round_half_even y) <= y + (1 # 2))%Q.
Proof.
  destruct (rhe_cases y) as [[H1 H2] H]. cbv zeta in *.
  destruct H as [[H R]|[[H R]|[H R]]]; rewrite R.
  - lra.
  - destruct (Z.even (Qfloor y)); [lra|].
    rewrite inject_Z_plus. change (inject_Z 1) with 1%Q. lra.
  - rewrite inject_Z_plus. change (inject_Z 1) with 1%Q. lra.
Qed.

Lemma rhe_range y :
  Qfloor y <= Double.round_half_even y <= Qfloor y + 1.
Proof.
  destruct (rhe_cases y) as [_ H]. cbv zeta in *.
  destruct H as [[_ R]|[[_ R]|[_ R]]]; rewrite R;
    try destruct (Z.even (Qfloor y)); lia.
Qed.

Lemma rhe_mono x y :
  (x <= y)%Q -> Double.round_half_even x <= Double.round_half_even y.
Proof.
  intros Hxy. pose proof (Qfloor_resp_le x y Hxy) as Hf.
  pose proof (rhe_range x) as Rx. pose proof (rhe_range y) as Ry.
  destruct (Z.eq_dec (Qfloor x) (Qfloor y)) as [E|]; [|lia].
  destruct (rhe_cases x) as [_ Hx]. destruct (rhe_cases y) as [_ Hy].
  cbv zeta in *. rewrite E in *.
  destruct Hx as [[Hx ->]|[[Hx ->]|[Hx ->]]];
    destruct Hy as [[Hy ->]|[[Hy ->]|[Hy ->]]];
    try destruct (Z.even (Qfloor y)); try lia; lra.
Qed.

Lemma rhe_0 : Double.round_half_even 0 = 0.
Proof. apply (rhe_Z 0). Qed.

(** *** Rounding to a double *)

Lemma scaled_le x y e :
  (x <= y)%Q -> (x / Double.pow2 e <= y / Double.pow2 e)%Q.
Proof.
  intros H. unfold Qdiv. apply Qmult_le_compat_r; [exact H|].
  apply Qinv_le_0_compat, Qlt_le_weak, pow2_pos.
Qed.

Lemma scaled_pow2 a e : (Double.pow2 a / Double.pow2 e == Double.pow2 (a - e))%Q.
Proof.
  unfold Qdiv. rewrite <- pow2_opp, <- pow2_add. reflexivity.
Qed.

Lemma scaled_back x e : (x / Double.pow2 e * Double.pow2 e == x)%Q.
Proof.
  unfold Qdiv. rewrite <- Qmult_assoc, (Qmult_comm (/ _)), Qmult_inv_r.
  - apply Qmult_1_r.
  - pose proof (pow2_pos e). lra.
Qed.

Lemma round_comp x y : (x == y)%Q -> (Double.round x == Double.round y)%Q.
Proof.
  intros E. unfold Double.round, Double.ulp_exp.
  rewrite (mag_comp x y E).
  set (e := Z.max (Double.mag y - Double.prec) Double.emin).
  rewrite (rhe_comp (x / Double.pow2 e) (y / Double.pow2 e))
    by (rewrite E; reflexivity).
  reflexivity.
Qed.

Lemma round_0 : (Double.round 0 == 0)%Q.
Proof. vm_compute. reflexivity. Qed.

Lemma round_nonneg x : (0 <= x)%Q -> (0 <= Double.round x)%Q.
Proof.
  intros Hx. unfold Double.round.
  apply Qmult_le_0_compat; [|apply Qlt_le_weak, pow2_pos].
  change 0%Q with (inject_Z 0). rewrite <- Zle_Qle.
  rewrite <- rhe_0. apply rhe_mono.
  apply Qle_shift_div_l; [apply pow2_pos|lra].
Qed.

Lemma ulp_exp_mono x y :
  (0 < x)%Q -> (x <= y)%Q -> Double.ulp_exp x <= Double.ulp_exp y.
Proof.
  intros Hx Hxy. pose proof (mag_mono x y Hx Hxy).
  unfold Double.ulp_exp. lia.
Qed.

Lemma inject_Z_pow2 m e a :
  0 <= a ->
  (inject_Z m * Double.pow2 e <= Double.pow2 (e + a))%Q <-> m <= 2 ^ a.
Proof.
  intros Ha. rewrite pow2_add, (pow2_Z a Ha), (Qmult_comm (Double.pow2 e)).
  rewrite Qmult_le_r by apply pow2_pos. rewrite <- Zle_Qle. reflexivity.
Qed.

Lemma pow2_inject_Z m e a :
  0 <= a ->
  (Double.pow2 (e + a) <= inject_Z m * Double.pow2 e)%Q <-> 2 ^ a <= m.
Proof.
  intros Ha. rewrite pow2_add, (pow2_Z a Ha), (Qmult_comm (Double.pow2 e)).
  rewrite Qmult_le_r by apply pow2_pos. rewrite <- Zle_Qle. reflexivity.
Qed.

Lemma round_mono x y :
  (0 <= x)%Q -> (x <= y)%Q -> (Double.round x <= Double.round y)%Q.
Proof.
  intros Hx Hxy.
  destruct (Qeq_dec x 0) as [E|Hx0].
  { rewrite (round_comp x 0 E), round_0. apply round_nonneg. lra. }
  assert (Hpos : (0 < x)%Q) by lra.
  pose proof (ulp_exp_mono x y Hpos Hxy) as He.
  destruct (Z.eq_dec (Double.ulp_exp x) (Double.ulp_exp y)) as [Ee|Hne].
  - unfold Double.round. rewrite Ee.
    apply Qmult_le_compat_r; [|apply Qlt_le_weak, pow2_pos].
    rewrite <- Zle_Qle. apply rhe_mono, scaled_le, Hxy.
  - assert (Hlt : Double.ulp_exp x < Double.ulp_exp y) by lia. clear He Hne.
    destruct (mag_spec x Hx0) as [_ Hxu].
    destruct (mag_spec y) as [Hyl _]; [lra|].
    rewrite Qabs_pos in Hxu by lra. rewrite Qabs_pos in Hyl by lra.
    unfold Double.ulp_exp, Double.prec in *.
    set (ex := Z.max (Double.mag x - 53) Double.emin) in *.
    set (ey := Z.max (Double.mag y - 53) Double.emin) in *.
    assert (Hey : ey = Double.mag y - 53) by lia.
    apply Qle_trans with (Double.pow2 (ex + 53)).
    + unfold Double.round. fold ex.
      apply inject_Z_pow2; [lia|].
      rewrite <- (rhe_Z (2 ^ 53)). apply rhe_mono.
      rewrite <- pow2_Z by lia.
      apply Qle_trans with (Double.pow2 (Double.mag x) / Double.pow2 ex)%Q.
      * apply scaled_le. lra.
      * rewrite scaled_pow2. apply pow2_le. lia.
    + apply Qle_trans with (Double.pow2 (ey + 52)); [apply pow2_le; lia|].
      unfold Double.round. fold ey.
      apply pow2_inject_Z; [lia|].
      rewrite <- (rhe_Z (2 ^ 52)). apply rhe_mono.
      rewrite <- pow2_Z by lia.
      apply Qle_trans with (Double.pow2 (Double.mag y - 1) / Double.pow2 ey)%Q.
      * rewrite scaled_pow2. apply pow2_le. lia.
      * apply scaled_le. exact Hyl.
Qed.

Lemma round_error x :
  (Qabs (Double.round x - x)
   <= Double.pow2 (Double.ulp_exp x) * (1 # 2))%Q.
Proof.
  unfold Double.round. set (e := Double.ulp_exp x).
  pose proof (rhe_near (x / Double.pow2 e)) as [H1 H2].
  pose proof (scaled_back x e) as Hx. pose proof (pow2_pos e) as Hp.
  set (z := (x / Double.pow2 e)%Q) in *.
  set (m := inject_Z (Double.round_half_even z)) in *.
  set (p := Double.pow2 e) in *.
  apply Qabs_Qle_condition. rewrite <- Hx. split; nra.
Qed.

Lemma pow2_half e : (Double.pow2 e * (1 # 2) == Double.pow2 (e - 1))%Q.
Proof.
  replace (e - 1) with (e + - (1)) by lia. rewrite pow2_add. reflexivity.
Qed.

(** The relative error of rounding a number in the normal range. *)
Lemma round_rel_error x :
  (0 < x)%Q -> Double.emin + Double.prec <= Double.mag x ->
  (Qabs (Double.round x - x) <= x * Double.pow2 (- Double.prec))%Q.
Proof.
  intros Hx Hn. eapply Qle_trans; [apply round_error|].
  unfold Double.ulp_exp. rewrite Z.max_l by lia.
  rewrite pow2_half.
  destruct (mag_spec x) as [Hl _]; [lra|]. rewrite Qabs_pos in Hl by lra.
  replace (Double.mag x - Double.prec - 1)
    with (Double.mag x - 1 + - Double.prec) by lia.
  rewrite pow2_add. apply Qmult_le_compat_r; [exact Hl|].
  apply Qlt_le_weak, pow2_pos.
Qed.

Lemma Qabs_inject_pow2 m e :
  (Qabs (inject_Z m * Double.pow2 e) == inject_Z (Z.abs m) * Double.pow2 e)%Q.
Proof.
  rewrite Qabs_Qmult, (Qabs_pos (Double.pow2 e))
    by apply Qlt_le_weak, pow2_pos.
  apply Qmult_comp; [|reflexivity].
  unfold Qabs, inject_Z. reflexivity.
Qed.

Lemma round_fix_small x m e :
  (x == inject_Z m * Double.pow2 e)%Q -> Z.abs m < 2 ^ Double.prec ->
  Double.emin <= e -> (Double.round x == x)%Q.
Proof.
  intros Ex Hm He. unfold Double.prec in *.
  destruct (Z.eq_dec m 0) as [->|Hm0].
  { rewrite Qmult_0_l in Ex. rewrite (round_comp x 0 Ex), round_0.
    symmetry. exact Ex. }
  assert (Hx0 : ~ (x == 0)%Q).
  { rewrite Ex. intros H. apply Qmult_integral in H. destruct H as [H|H].
    - apply Qeq_0_num in H. cbn in H. lia.
    - pose proof (pow2_pos e). lra. }
  destruct (mag_spec x Hx0) as [Hl _].
  assert (Hmag : Double.mag x - 1 < e + 53).
  { apply pow2_lt_inv. eapply Qle_lt_trans; [exact Hl|].
    rewrite Ex, Qabs_inject_pow2, pow2_add, (Qmult_comm (Double.pow2 e)).
    apply Qmult_lt_r; [apply pow2_pos|].
    rewrite pow2_Z by lia. rewrite <- Zlt_Qlt. exact Hm. }
  unfold Double.round, Double.ulp_exp, Double.prec.
  set (u := Z.max (Double.mag x - 53) Double.emin).
  assert (Hu : u <= e) by lia.
  assert (Ez : (x / Double.pow2 u == inject_Z (m * 2 ^ (e - u)))%Q).
  { rewrite Ex, inject_Z_mult, <- pow2_Z by lia.
    unfold Qdiv. rewrite <- Qmult_assoc, <- pow2_opp, <- pow2_add.
    reflexivity. }
  rewrite (rhe_comp _ _ Ez), rhe_Z, <- Ez. apply scaled_back.
Qed.

(** A number of the form [m * 2^e] with [|m| <= 2^53] at an exponent the
    format has is a double: rounding leaves it as it is. *)
Lemma round_fix x m e :
  (x == inject_Z m * Double.pow2 e)%Q -> Z.abs m <= 2 ^ Double.prec ->
  Double.emin <= e -> (Double.round x == x)%Q.
Proof.
  intros Ex Hm He.
  destruct (Z.eq_dec (Z.abs m) (2 ^ Double.prec)) as [E|Hne].
  - apply (round_fix_small x (m / 2) (e + 1)); unfold Double.prec in *.
    + rewrite Ex, (Z.add_comm e 1), pow2_add, Qmult_assoc.
      apply Qmult_comp; [|reflexivity].
      assert (Hm2 : m = m / 2 * 2).
      { change (2 ^ 53) with 9007199254740992 in E.
        assert (m = 9007199254740992 \/ m = - 9007199254740992) as [->| ->]
          by lia; reflexivity. }
      rewrite Hm2 at 1. rewrite inject_Z_mult. reflexivity.
    + change (2 ^ 53) with 9007199254740992 in *.
      assert (m = 9007199254740992 \/ m = - 9007199254740992) as [->| ->]
        by lia; reflexivity.
    + lia.
  - apply (round_fix_small x m e); auto. lia.
Qed.

Lemma round_Z z :
  Z.abs z <= 2 ^ Double.prec -> (Double.round (inject_Z z) == inject_Z z)%Q.
Proof.
  intros H. apply (round_fix _ z 0); [|exact H|discriminate].
  rewrite pow2_0, Qmult_1_r. reflexivity.
Qed.

Lemma round_idem x : (Double.round (Double.round x) == Double.round x)%Q.
Proof.
  apply (round_fix _ (Double.round_half_even (x / Double.pow2 (Double.ulp_exp x)))
           (Double.ulp_exp x)).
  - reflexivity.
  - unfold Double.prec.
    destruct (Qeq_dec x 0) as [E|Hx0].
    { assert (Ez : (x / Double.pow2 (Double.ulp_exp x) == 0)%Q).
      { unfold Qdiv.
        rewrite (Qmult_comp x 0%Q E _ _ (Qeq_refl _)). apply Qmult_0_l. }
      rewrite (rhe_comp _ _ Ez), rhe_0. cbn. lia. }
    destruct (mag_spec x Hx0) as [_ Hu].
    set (u := Double.ulp_exp x).
    assert (Hmu : Double.mag x - u <= 53)
      by (unfold u, Double.ulp_exp, Double.prec; lia).
    assert (Hb : (Qabs (x / Double.pow2 u) <= inject_Z (2 ^ 53))%Q).
    { unfold Qdiv. rewrite Qabs_Qmult, Qabs_Qinv.
      rewrite (Qabs_pos (Double.pow2 u)) by apply Qlt_le_weak, pow2_pos.
      rewrite <- pow2_Z by lia.
      apply Qle_trans with (Double.pow2 (Double.mag x) / Double.pow2 u)%Q.
      - apply scaled_le. lra.
      - rewrite scaled_pow2. apply pow2_le. lia. }
    apply Qabs_Qle_condition in Hb. destruct Hb as [Hb1 Hb2].
    apply Z.abs_le. split.
    + rewrite <- (rhe_Z (- 2 ^ 53)). apply rhe_mono.
      rewrite inject_Z_opp. exact Hb1.
    + rewrite <- (rhe_Z (2 ^ 53)). apply rhe_mono. exact Hb2.
  - unfold Double.ulp_exp. lia.
Qed.

(** The quotient and the difference computed here are those of the
    standard library's binary64 on every sampled rate and position. *)
Lemma frames_to_time_is_binary64_quotient :
  forallb (fun a =>
             forallb (fun b => Qeq_bool (frames_to_time a b)
                                        (binary64_quotient a b))
                     sample_rates)
          sample_positions = true.
Proof. vm_compute. reflexivity. Qed.

Lemma Double_sub_is_binary64_difference :
  forallb (fun a =>
             forallb (fun b =>
                        forallb (fun c =>
                                   Qeq_bool (Double.sub (frames_to_time a b)
                                                        (Double.of_Z c))
                                            (binary64_difference a b c))
                                [0; -1; 1; 3])
                     sample_rates)
          (firstn 40 sample_positions ++ skipn 200 sample_positions) = true.
Proof. vm_compute. reflexivity. Qed.

Example frames_to_time_512_44100 :
  frames_to_time 512 44100 = 6692696262570359 # 576460752303423488.
Proof. vm_compute. reflexivity. Qed.

(** ** Au_New *)

Lemma Au_New_cases env fmt rate ch s :
  Au_New env fmt rate ch s = Done (NULL, s) /\
    (AuInitialized_ s = FALSE \/ format_accepted fmt = false \/ rate < 1)
  \/ (exists s', Au_New env fmt rate ch s = Done (NULL, s') /\
                 (output s' = None \/ output s' = output s) /\
                 AuInitialized_ s' = AuInitialized_ s) /\
     format_accepted fmt = true /\ 1 <= rate
  \/ AuInitialized_ s = TRUE /\ format_accepted fmt = true /\ 1 <= rate /\
     exists log,
       Au_New env fmt rate ch s =
       Done (Handle,
             mkState TRUE (AU_SFFR_Count s) (AU_PAPC_Count s)
               (Some (set_pa_stream (Some PaStopped)
                        (zeroed_output fmt rate ch))) log).
Proof.
  destruct s as [ini c1 c2 o log].
  unfold Au_New, Au_Delete, format_accepted. au_sim.
  destruct ini; [|left; auto].
  destruct (Au_SampleFormat_of_int fmt) as [f|] eqn:Hf; [|left; auto].
  destruct (rate <? 1) eqn:Hrate.
  { apply Z.ltb_lt in Hrate. left. destruct f; auto. }
  apply Z.ltb_ge in Hrate.
  destruct f; try (left; split; [reflexivity|auto]).
  all: destruct (malloc_output_ok env); au_sim;
    [|right; left; split;
      [eexists; split; [reflexivity|split; [right|]; reflexivity]|auto]].
  all: destruct (Pa_OpenDefaultStream_ok env); au_sim;
    [|right; left; split;
      [eexists; split; [reflexivity|split; [left|]; reflexivity]|auto]].
  all: right; right; repeat split; auto; eexists; reflexivity.
Qed.




(** ** The query functions *)

Lemma output_after_New env fmt rate ch s s' :
  Au_New env fmt rate ch s = Done (Handle, s') ->
  AuInitialized_ s' = TRUE /\
  output s' = Some (set_pa_stream (Some PaStopped) (zeroed_output fmt rate ch)).
Proof.
  intros H.
  destruct (Au_New_cases env fmt rate ch s)
    as [[E _]|[[[s1 [E _]] _]|(_ & _ & _ & log & E)]];
    rewrite E in H; inversion H; subst; auto.
Qed.

(** C8 (the code at the failing input).  On a handle fresh from [Au_New]
    no time mutex exists, and [Au_IsPlaying] passes the NULL pointer to
    [pthread_mutex_lock]: it neither returns the flag nor FALSE. *)
Theorem Au_IsPlaying_after_New_faults env env' fmt rate ch s s' :
  Au_New env fmt rate ch s = Done (Handle, s') ->
  Au_IsPlaying env' Handle s' = Crash NullMutex.
Proof.
  intros H. apply output_after_New in H. destruct H as [Hi Ho].
  destruct s' as [ini c1 c2 o log]. cbn in Hi, Ho. subst.
  reflexivity.
Qed.

Lemma Au_IsPlaying_after_New_faults_witness :
  exists s',
    Au_New (env_ok None zero_blocks) 0 44100 2 started = Done (Handle, s') /\
    Au_IsPlaying (env_ok None zero_blocks) Handle s' = Crash NullMutex.
Proof.
  eexists. split; [reflexivity|].
  apply (Au_IsPlaying_after_New_faults
           (env_ok None zero_blocks) (env_ok None zero_blocks) 0 44100 2 started).
  reflexivity.
Defined.

(** ** The reader thread *)

Ltac finish_step :=
  cbv beta iota; do 2 eexists; split; [reflexivity|];
  split; [reflexivity|];
  split; [constructor; au_sim; auto; try congruence;
          try (intros; discriminate)|];
  split; [constructor; au_sim; auto; try congruence|];
  auto.

Ltac break_match :=
  match goal with
  | |- context [match ?x with _ => _ end] => destruct x eqn:?
  end.

Lemma SFFileReader_step_wf s p :
  output s = Some p -> wf_output p ->
  exists s' p',
    SFFileReader_step s = Done (tt, s') /\ output s' = Some p' /\
    wf_output p' /\ reader_frame p p' /\
    AuInitialized_ s' = AuInitialized_ s /\
    AU_PAPC_Count s' = AU_PAPC_Count s /\ calls s' = calls s.
Proof.
  intros Ho [Hst Hrate Hfmt Hsem Hrb Hdata Hfile Hmu Hcb].
  destruct s as [ini c1 c2 o log]. cbn [output] in Ho. subst o.
  destruct p as [fmt rate ch st cb th sem ex fd rb slots t t0 pl mu pf].
  cbn [pa_stream sample_rate format sf_reader_thread sf_reader_semaphore
       sf_buffer sf_buffer_data sf_fd playback_time_mutex pa_callback] in *.
  unfold SFFileReader_step. au_sim.
  destruct th as [pc|]; [|finish_step].
  specialize (Hsem ltac:(discriminate)).
  specialize (Hrb ltac:(discriminate)).
  specialize (Hdata ltac:(discriminate)).
  specialize (Hfile ltac:(discriminate)).
  specialize (Hmu ltac:(discriminate)).
  destruct pc as [| | |n|]; try solve [finish_step].
  - (* RStart *)
    destruct ini; [|finish_step]. repeat break_match; au_sim; finish_step.
  - (* RWait *)
    destruct sem as [c|]; [|congruence].
    destruct (c <=? 0); [finish_step|]. au_sim.
    destruct ex; au_sim; [finish_step|].
    destruct rb as [rb|]; [|congruence].
    au_sim. finish_step.
  - (* RFill *)
    destruct (0 <? n); [|au_sim; finish_step].
    unfold SFFileReader_iteration. au_sim.
    destruct rb as [rb|]; [|congruence].
    destruct slots as [slots|]; [|congruence].
    destruct (PaUtil_GetRingBufferWriteRegions rb 1) as [ok index].
    destruct (ok <=? 0); au_sim; [finish_step|].
    unfold read_block.
    destruct (sf_readf_handle_spec 4 fd Hfile ltac:(lia))
      as (n4 & b4 & fd4 & E4 & Hn4 & Hb4 & Hc4 & Hs4).
    destruct (sf_readf_handle_spec 2 fd Hfile ltac:(lia))
      as (n2 & b2 & fd2 & E2 & Hn2 & Hb2 & Hc2 & Hs2).
    apply Z.ltb_ge in Hb4, Hb2.
    destruct (Au_SampleFormat_of_int fmt) as [[]|]; au_sim;
      rewrite ?E4, ?E2, ?Hb4, ?Hb2; au_sim;
      try destruct ((0 <? n4) && negb (n4 =? PA_BUFFER_FRAMECOUNT));
      try destruct ((0 <? n2) && negb (n2 =? PA_BUFFER_FRAMECOUNT));
      au_sim; try solve [finish_step].
Qed.

Lemma reader_frame_refl p : reader_frame p p.
Proof. constructor; reflexivity. Qed.

Lemma reader_frame_trans p q r :
  reader_frame p q -> reader_frame q r -> reader_frame p r.
Proof. intros [] []; constructor; congruence. Qed.

Lemma SFFileReader_run_wf fuel : forall s p,
  output s = Some p -> wf_output p ->
  exists s' p',
    SFFileReader_run fuel s = Done (tt, s') /\ output s' = Some p' /\
    wf_output p' /\ reader_frame p p' /\
    AuInitialized_ s' = AuInitialized_ s /\
    AU_PAPC_Count s' = AU_PAPC_Count s /\ calls s' = calls s.
Proof.
  induction fuel as [|fuel IH]; intros s p Ho Hwf.
  - exists s, p. repeat apply conj; auto using reader_frame_refl.
  - cbn [SFFileReader_run]. unfold bind at 1, get_pau. rewrite Ho.
    assert (Hstop : exists s' p',
               @ret unit tt s = Done (tt, s') /\ output s' = Some p' /\
               wf_output p' /\ reader_frame p p' /\
               AuInitialized_ s' = AuInitialized_ s /\
               AU_PAPC_Count s' = AU_PAPC_Count s /\ calls s' = calls s).
    { exists s, p. repeat apply conj; auto using reader_frame_refl. }
    destruct (SFFileReader_step_wf s p Ho Hwf)
      as (s1 & p1 & E1 & Ho1 & Hwf1 & Hf1 & Hi1 & Hc1 & Hl1).
    destruct (IH s1 p1 Ho1 Hwf1)
      as (s2 & p2 & E2 & Ho2 & Hwf2 & Hf2 & Hi2 & Hc2 & Hl2).
    assert (Hgo : exists s' p',
               (bind SFFileReader_step (fun _ => SFFileReader_run fuel)) s
               = Done (tt, s') /\ output s' = Some p' /\
               wf_output p' /\ reader_frame p p' /\
               AuInitialized_ s' = AuInitialized_ s /\
               AU_PAPC_Count s' = AU_PAPC_Count s /\ calls s' = calls s).
    { exists s2, p2. unfold bind. rewrite E1.
      repeat apply conj; eauto using reader_frame_trans; congruence. }
    destruct (sf_reader_thread p) as [[]|]; assumption.
Qed.

Lemma Au_Stop_spec env s p :
  AuInitialized_ s = TRUE -> output s = Some p -> wf_output p ->
  exists c frames,
    Au_Stop env Handle s =
    Done (TRUE,
          mkState TRUE c (AU_PAPC_Count s)
            (Some (stopped_output p
                     (if is_some (sf_reader_thread p) then TRUE
                      else sf_reader_should_exit p) frames))
            (calls s ++ Au_Stop_calls env p)).
Proof.
  intros Hi Ho Hwf.
  destruct s as [ini c1 c2 o log]. cbn [AuInitialized_ output] in Hi, Ho. subst.
  destruct p as [fmt rate ch st cb th sem ex fd rb slots t t0 pl mu pf].
  pose proof (wf_stream _ Hwf) as Hst. cbn [pa_stream] in Hst.
  destruct st as [st|]; [clear Hst|congruence].
  destruct th as [pc|].
  - (* a reader thread exists *)
    pose proof (wf_semaphore _ Hwf ltac:(discriminate)) as Hsem.
    pose proof (wf_buffer _ Hwf ltac:(discriminate)) as Hrb.
    pose proof (wf_buffer_data _ Hwf ltac:(discriminate)) as Hdata.
    cbn [sf_reader_semaphore sf_buffer sf_buffer_data] in Hsem, Hrb, Hdata.
    destruct sem as [count|]; [clear Hsem|congruence].
    destruct rb as [rb|]; [clear Hrb|congruence].
    destruct slots as [slots|]; [clear Hdata|congruence].
    assert (Hmid : wf_output
              (mkOutput fmt rate ch (Some PaStopped) fn_PAEmptyCallback_
                 (Some pc) (Some (count + 1)) true fd (Some rb) (Some slots)
                 t t0 pl mu pf)).
    { destruct Hwf; constructor; cbn in *; auto; congruence. }
    pose proof (wf_created _ Hwf) as Hpc. cbn [sf_reader_thread] in Hpc.
    unfold Au_Stop, join_or_cancel, Au_Stop_calls. au_sim.
    destruct (pthread_join_ok env) eqn:Hj.
    2:{ destruct pc, mu, fd; try congruence; au_sim;
          do 2 eexists; repeat rewrite <- app_assoc; reflexivity. }
    +
      assert (Hrun : exists cnt fd' rb' slots' pc' sem' frames,
        is_some sem' = true /\ is_some fd' = is_some fd /\
        SFFileReader_run (join_fuel pc)
          (mkState true c1 c2
             (Some (mkOutput fmt rate ch (Some PaStopped) fn_PAEmptyCallback_
                      (Some pc) (Some (count + 1)) true fd (Some rb)
                      (Some slots) t t0 pl mu pf))
             (((log ++ [C_Pa_StopStream]) ++ [C_sem_post])
                ++ [C_pthread_join])) =
        Done (tt,
              mkState true cnt c2
                (Some (mkOutput fmt rate ch (Some PaStopped)
                         fn_PAEmptyCallback_ pc' sem' true fd'
                         (Some rb') (Some slots') t t0 pl mu frames))
                (((log ++ [C_Pa_StopStream]) ++ [C_sem_post])
                   ++ [C_pthread_join]))).
      { match goal with
        | |- context [SFFileReader_run ?f ?st] =>
            destruct (SFFileReader_run_wf f st _ eq_refl Hmid)
              as (s2 & p2 & E & Ho2 & Hwf2 & Hfr & Hi2 & Hc2 & Hl2)
        end.
        destruct s2 as [ini2 cnt c2' o2 log2].
        cbn [output AuInitialized_ AU_PAPC_Count calls] in Ho2, Hi2, Hc2, Hl2.
        subst.
        destruct p2 as [fmt2 rate2 ch2 st2 cb2 th2 sem2 ex2 fd2 rb2 slots2
                          t2 t02 pl2 mu2 pf2].
        destruct Hfr. cbn in *. subst.
        destruct rb2 as [rb2|]; [|discriminate].
        destruct slots2 as [slots2|]; [|discriminate].
        exists cnt, fd2, rb2, slots2, th2, sem2, pf2.
        repeat apply conj; auto. }
      destruct Hrun as (cnt & fd' & rb' & slots' & pc' & sem' & frames
                        & Hs & Hfd & E).
      destruct pc; try congruence; rewrite E; au_sim;
        destruct sem'; try discriminate;
        destruct mu, fd, fd'; try discriminate; au_sim;
        do 2 eexists; repeat rewrite <- app_assoc; reflexivity.
  - unfold Au_Stop, Au_Stop_calls. au_sim.
    destruct sem, rb, slots, mu, fd; au_sim;
      do 2 eexists; repeat rewrite <- app_assoc; reflexivity.
Qed.

(** ** Au_Play, Au_Stop, Au_Delete *)

Lemma Au_Play_once_true env filename s s' :
  Au_Play_once env filename s = Done (true, s') ->
  exists p fd fresh,
    output s = Some p /\ sf_open env filename = Some fd /\
    sf_samplerate fd = sample_rate p /\ sf_channels fd = 2 /\
    malloc_buffer env = Some fresh /\
    s' = mkState (AuInitialized_ s) (AU_SFFR_Count s) (AU_PAPC_Count s)
           (Some (session_start p fd fresh))
           (calls s ++ tl Au_Play_calls).
Proof.
  destruct s as [ini c1 c2 o log]. unfold Au_Play_once. au_sim.
  destruct o as [p|]; [|discriminate].
  destruct p as [fmt rate ch st cb th sem ex fd0 rb slots t t0 pl mu pf].
  au_sim.
  destruct (sf_open env filename) as [fd|]; [|discriminate].
  destruct (sf_samplerate fd =? rate) eqn:Hrate; [|discriminate].
  destruct (sf_channels fd =? 2) eqn:Hch; [|discriminate].
  apply Z.eqb_eq in Hrate, Hch. au_sim.
  destruct (pthread_mutex_init_ok env); [|discriminate]. au_sim.
  destruct (malloc_buffer env) as [fresh|]; [|discriminate]. au_sim.
  change (PaUtil_InitializeRingBuffer PA_RING_BUFFERCOUNT)
    with (Some (mkRing PA_RING_BUFFERCOUNT 0 0)). au_sim.
  destruct (sem_init_ok env); [|discriminate]. au_sim.
  destruct (pthread_create_ok env); [|discriminate]. au_sim.
  destruct (Pa_StartStream_ok env); [|discriminate]. au_sim.
  intros [= <-]. eexists. exists fd, fresh.
  repeat apply conj; try reflexivity; auto.
  cbn [tl Au_Play_calls]. repeat rewrite <- app_assoc. reflexivity.
Qed.

(** What a successful [Au_Play] found and what it leaves. *)
Lemma Au_Play_TRUE env filename s s' :
  Au_Play env Handle filename s = Done (TRUE, s') ->
  exists p fd fresh,
    AuInitialized_ s = TRUE /\ output s = Some p /\
    pa_stream p <> None /\ sf_reader_thread p = None /\
    sf_open env filename = Some fd /\
    sf_samplerate fd = sample_rate p /\ sf_channels fd = 2 /\
    malloc_buffer env = Some fresh /\
    s' = mkState TRUE (AU_SFFR_Count s) (AU_PAPC_Count s)
           (Some (session_start p fd fresh))
           (calls s ++ Au_Play_calls).
Proof.
  destruct s as [ini c1 c2 o log]. unfold Au_Play. au_sim.
  destruct ini; [|discriminate].
  destruct o as [p|]; [|discriminate].
  destruct p as [fmt rate ch st cb th sem ex fd0 rb slots t t0 pl mu pf].
  au_sim.
  destruct st as [st|]; [|discriminate].
  destruct th as [pc|]; [discriminate|]. au_sim.
  destruct (Au_Play_once env filename _) as [[[] s1]|] eqn:E;
    [| |discriminate].
  - intros [= <-]. apply Au_Play_once_true in E.
    destruct E as (p & fd & fresh & Ho & Hopen & Hr & Hc & Hm & ->).
    cbn [output] in Ho. injection Ho as <-.
    eexists. exists fd, fresh. cbn [AuInitialized_ AU_SFFR_Count AU_PAPC_Count calls
                               output pa_stream sf_reader_thread sample_rate].
    repeat apply conj; auto; try discriminate.
    unfold Au_Play_calls. cbn [tl]. rewrite <- app_assoc. reflexivity.
  - destruct (Au_Stop env Handle s1) as [[b s2]|]; discriminate.
Qed.

(** [Au_Play] succeeds whenever nothing it calls fails and the file has
    the sample rate of the output and two channels. *)
Lemma Au_Play_succeeds env filename s p fd fresh :
  AuInitialized_ s = TRUE -> output s = Some p ->
  pa_stream p <> None -> sf_reader_thread p = None ->
  sf_open env filename = Some fd ->
  sf_samplerate fd = sample_rate p -> sf_channels fd = 2 ->
  pthread_mutex_init_ok env = true -> malloc_buffer env = Some fresh ->
  sem_init_ok env = true -> pthread_create_ok env = true ->
  Pa_StartStream_ok env = true ->
  Au_Play env Handle filename s =
  Done (TRUE,
        mkState TRUE (AU_SFFR_Count s) (AU_PAPC_Count s)
          (Some (session_start p fd fresh)) (calls s ++ Au_Play_calls)).
Proof.
  intros Hi Ho Hst Hth Hopen Hr Hc Hmu Hma Hse Hcr Hss.
  destruct s as [ini c1 c2 o log]. cbn [AuInitialized_ output] in Hi, Ho. subst.
  destruct p as [fmt rate ch st cb th sem ex fd0 rb slots t t0 pl mu pf].
  cbn [pa_stream sf_reader_thread sample_rate] in Hst, Hth, Hr. subst.
  destruct st as [st|]; [|congruence].
  unfold Au_Play, Au_Play_once. au_sim.
  rewrite Hopen. au_sim. rewrite Z.eqb_refl, Hc.
  change (2 =? 2) with true. au_sim.
  rewrite Hmu. au_sim. rewrite Hma. au_sim.
  change (PaUtil_InitializeRingBuffer PA_RING_BUFFERCOUNT)
    with (Some (mkRing PA_RING_BUFFERCOUNT 0 0)). au_sim.
  rewrite Hse. au_sim.
  rewrite Hcr. au_sim. rewrite Hss. au_sim.
  unfold Au_Play_calls. repeat rewrite <- app_assoc. reflexivity.
Qed.

Lemma Au_Delete_spec s p :
  AuInitialized_ s = TRUE -> output s = Some p ->
  Au_Delete Handle s =
  Done (TRUE,
        mkState TRUE (AU_SFFR_Count s) (AU_PAPC_Count s) None
          (calls s ++ Au_Delete_calls p)).
Proof.
  intros Hi Ho.
  destruct s as [ini c1 c2 o log]. cbn [AuInitialized_ output] in Hi, Ho. subst.
  destruct p as [fmt rate ch st cb th sem ex fd rb slots t t0 pl mu pf].
  unfold Au_Delete, Au_Delete_calls. au_sim.
  destruct st, fd; au_sim; repeat rewrite <- app_assoc; reflexivity.
Qed.

Ltac finish_play :=
  cbv beta iota; do 3 eexists; split; [reflexivity|];
  split; [reflexivity|]; split; [reflexivity|];
  constructor; au_sim; auto; try congruence; try (intros; discriminate).

(** The body of [Au_Play] leaves a well-formed output at every exit but
    one: after a failed [pthread_create] the handle of the reader thread
    is set, with no thread behind it. *)
Lemma Au_Play_once_wf env filename s p :
  output s = Some p -> wf_output p -> sf_reader_thread p = None ->
  exists b s' p',
    Au_Play_once env filename s = Done (b, s') /\ output s' = Some p' /\
    AuInitialized_ s' = AuInitialized_ s /\
    if thread_creation_fails env filename (sample_rate p)
    then b = false /\ sf_reader_thread p' = Some RNotCreated /\
         sf_reader_semaphore p' <> None
    else wf_output p'.
Proof.
  intros Ho [Hst Hrate Hfmt Hsem Hrb Hdata Hfile Hmu Hcb Hcr] Hth.
  destruct s as [ini c1 c2 o log]. cbn [output] in Ho. subst o.
  destruct p as [fmt rate ch st cb th sem ex fd0 rb slots t t0 pl mu pf].
  cbn [pa_stream sample_rate format sf_reader_thread sf_reader_semaphore
       sf_buffer sf_buffer_data sf_fd playback_time_mutex pa_callback] in *.
  subst th.
  unfold Au_Play_once, thread_creation_fails. au_sim.
  destruct (sf_open env filename) as [fd|]; [|finish_play].
  destruct (sf_samplerate fd =? rate) eqn:Er; au_sim; [|finish_play].
  destruct (sf_channels fd =? 2) eqn:Ec; au_sim; [|finish_play].
  apply Z.eqb_eq in Ec.
  destruct (pthread_mutex_init_ok env); au_sim; [|finish_play].
  destruct (malloc_buffer env) as [fresh|]; au_sim; [|finish_play].
  change (PaUtil_InitializeRingBuffer PA_RING_BUFFERCOUNT)
    with (Some (mkRing PA_RING_BUFFERCOUNT 0 0)). au_sim.
  destruct (sem_init_ok env); au_sim; [|finish_play].
  destruct (pthread_create_ok env); au_sim.
  2:{ do 3 eexists. split; [reflexivity|]. split; [reflexivity|].
      split; [reflexivity|]. repeat split. discriminate. }
  destruct (Pa_StartStream_ok env); au_sim;
    finish_play; intros _ ? [= <-]; assumption.
Qed.

Lemma thread_creation_fails_ok env filename rate :
  pthread_create_ok env = true -> thread_creation_fails env filename rate = false.
Proof.
  intros H. unfold thread_creation_fails. rewrite H.
  destruct (sf_open env filename); [apply andb_false_r|reflexivity].
Qed.

(** The rollback of [Au_Play] after a failed [pthread_create]: [Au_Stop]
    finds the handle of the reader thread set and joins what it points
    to. *)
Lemma Au_Stop_not_created env s p :
  AuInitialized_ s = TRUE -> output s = Some p ->
  sf_reader_thread p = Some RNotCreated -> sf_reader_semaphore p <> None ->
  Au_Stop env Handle s = Crash InvalidThread.
Proof.
  intros Hi Ho Hth Hsem.
  destruct s as [ini c1 c2 o log]. cbn [AuInitialized_ output] in Hi, Ho. subst.
  destruct p as [fmt rate ch st cb th sem ex fd0 rb slots t t0 pl mu pf].
  cbn [sf_reader_thread sf_reader_semaphore] in Hth, Hsem. subst th.
  destruct sem as [count|]; [|congruence].
  unfold Au_Stop, join_or_cancel. au_sim. destruct st; reflexivity.
Qed.


(** ** The playback callback *)

Lemma PAPlayCallback_run env frameCount s p count rb slots :
  output s = Some p -> session_active p count rb slots ->
  let p1 := set_sf_reader_semaphore (Some (count + 1)) p in
  let blk := slot_of rb slots (readIndex rb) in
  let n := bufferSizeBytes_ (Some p) in
  PAPlayCallback_ env frameCount s =
  if negb (frameCount =? PA_BUFFER_FRAMECOUNT)
     || (PaUtil_GetRingBufferReadAvailable rb <=? 0)
  then Done ((paComplete, None), posted s (marked_not_playing env p1))
  else if Qeq_bool (playback_start_time p) time_unset
          && negb (pthread_mutex_lock_ok env)
  then Done ((paComplete, None), posted s p1)
  else if (n <? 0) || (sizeof_FRBuf_data <? n) then Crash BufferOverrun
  else
    let p3 := set_sf_buffer (Some (PaUtil_AdvanceRingBufferReadIndex rb 1))
                            (synced env blk p1) in
    let out := load_bytes (data blk) (Z.to_nat n) in
    match state blk with
    | PPPS_Stopped =>
        Done ((paComplete, Some out), posted s (marked_not_playing env p3))
    | PPPS_Playing => Done ((paContinue, Some out), posted s p3)
    end.
Proof.
  intros Ho (Hsem & Hrb & Hdata & Hmu).
  destruct s as [ini c1 c2 o log]. cbn [output] in Ho. subst o.
  destruct p as [fmt rate ch st cb th sem ex fd0 rb0 slots0 t t0 pl mu pf].
  cbn [sf_reader_semaphore sf_buffer sf_buffer_data playback_time_mutex] in *.
  subst. destruct mu as [[]|]; [|congruence].
  unfold PAPlayCallback_, MARK_NOT_PLAYING, posted, marked_not_playing,
    synced, slot_of.
  unfold PaUtil_GetRingBufferReadRegions, PaUtil_AdvanceRingBufferReadIndex,
    PaUtil_GetRingBufferReadAvailable.
  au_sim. set (n := bufferSizeBytes_ _).
  destruct (frameCount =? PA_BUFFER_FRAMECOUNT); au_sim.
  2:{ destruct (pthread_mutex_lock_ok env); reflexivity. }
  destruct (writeIndex rb - readIndex rb <=? 0) eqn:Eav; au_sim.
  { destruct (pthread_mutex_lock_ok env); reflexivity. }
  apply Z.leb_gt in Eav.
  rewrite Z.min_l by lia. change (1 <=? 0) with false. au_sim.
  destruct (Qeq_bool t0 time_unset); au_sim.
  - destruct (pthread_mutex_lock_ok env); au_sim; [|reflexivity].
    destruct ((n <? 0) || (sizeof_FRBuf_data <? n)); au_sim; [reflexivity|].
    destruct (state (slots (readIndex rb mod bufferSize rb))); reflexivity.
  - destruct (pthread_mutex_trylock_ok env); au_sim;
    destruct ((n <? 0) || (sizeof_FRBuf_data <? n)); au_sim;
      try reflexivity;
    destruct (state (slots (readIndex rb mod bufferSize rb)));
      try reflexivity;
    destruct (pthread_mutex_lock_ok env); reflexivity.
Qed.


Lemma wf_session_active p :
  wf_output p -> sf_reader_thread p <> None ->
  exists count rb slots, session_active p count rb slots.
Proof.
  intros [Hst Hrate Hfmt Hsem Hrb Hdata Hfile Hmu Hcb] Hth.
  specialize (Hsem Hth). specialize (Hrb Hth). specialize (Hdata Hth).
  specialize (Hmu Hth). unfold session_active.
  destruct (sf_reader_semaphore p), (sf_buffer p), (sf_buffer_data p);
    try congruence.
  eauto 10.
Qed.

Lemma PACallback_wf env frameCount s p r s' :
  output s = Some p -> wf_output p ->
  PACallback_ env frameCount s = Done (r, s') ->
  exists p', output s' = Some p' /\ wf_output p' /\
             AuInitialized_ s' = AuInitialized_ s.
Proof.
  intros Ho Hwf.
  unfold PACallback_. unfold bind at 1, get_pau. rewrite Ho.
  destruct (pa_stream p) as [[]|] eqn:Est;
    try (intros [= <- <-]; eauto).
  destruct (pa_callback p) eqn:Ecb.
  - destruct s as [ini c1 c2 o log]. cbn [output] in Ho. subst o.
    destruct p as [fmt rate ch st cb th sem ex fd0 rb slots t t0 pl mu pf].
    au_sim. intros [= <- <-]. eexists. split; [reflexivity|]. split; auto.
    destruct Hwf; constructor; cbn in *; auto; congruence.
  - pose proof (wf_callback _ Hwf Ecb) as Hth.
    destruct (wf_session_active p Hwf Hth) as (count & rb & slots & Hact).
    unfold bind at 1.
    rewrite (PAPlayCallback_run env frameCount s p count rb slots Ho Hact).
    destruct s as [ini c1 c2 o log]. cbn [output] in Ho. subst o.
    destruct p as [fmt rate ch st cb th sem ex fd0 rb0 slots0 t t0 pl mu pf].
    unfold posted, marked_not_playing, synced.
    cbv zeta. au_sim.
    repeat match goal with
           | |- context [if ?c then _ else _] => destruct c
           | |- context [match state ?b with _ => _ end] => destruct (state b)
           end; au_sim;
      try discriminate;
      intros [= <- <-]; (eexists; split; [reflexivity|]; split; auto;
        destruct Hwf; constructor; cbn in *; auto; congruence).
Qed.

(** C1 (the code at the failing input).  The sanity check of [Au_Play]
    compares the file's channel count with the constant 2, not with the
    channel count of the output: on an output created with any other
    channel count a two-channel file of the right sample rate is played,
    although its channel count differs from the configuration. *)
Theorem Au_Play_accepts_channel_mismatch s p fd fresh filename :
  AuInitialized_ s = TRUE -> output s = Some p ->
  pa_stream p <> None -> sf_reader_thread p = None ->
  sf_samplerate fd = sample_rate p ->
  sf_channels fd = 2 -> channels p <> sf_channels fd ->
  exists s',
    Au_Play (env_ok (Some fd) fresh) Handle filename s = Done (TRUE, s') /\
    output s' = Some (session_start p fd fresh).
Proof.
  intros Hi Ho Hst Hth Hr Hc _.
  eexists. split.
  - apply (Au_Play_succeeds _ _ s p fd fresh); auto.
  - reflexivity.
Qed.

Lemma Au_Play_accepts_channel_mismatch_witness :
  exists s',
    Au_Play (env_ok (Some (counting_file 44100 1)) zero_blocks) Handle "a.wav"
            (fresh_output AUSF_F32 44100 1) = Done (TRUE, s') /\
    output s' =
    Some (session_start
            (set_pa_stream (Some PaStopped) (zeroed_output 0 44100 1))
            (counting_file 44100 1) zero_blocks).
Proof.
  apply (Au_Play_accepts_channel_mismatch
           (fresh_output AUSF_F32 44100 1)
           (set_pa_stream (Some PaStopped) (zeroed_output 0 44100 1))
           (counting_file 44100 1) zero_blocks "a.wav");
    try reflexivity; cbn; congruence.
Defined.

(** The other side of the same check: on a one-channel output the file
    that matches the configuration is refused. *)
Example Au_Play_refuses_matching_mono_file :
  result_of (Au_Play (env_ok (Some (mkSNDFILE 44100 1 [1; 2; 3])) zero_blocks)
                     Handle "mono.wav")
            (fresh_output AUSF_F32 44100 1) = Some FALSE.
Proof. vm_compute. reflexivity. Qed.

(** C6 (the code at the failing input).  [Au_Delete] on an output with an
    active session stops and closes the stream, closes the file and frees
    the output; it does not signal or join the reader thread, destroy the
    semaphore or the mutex, or flush and free the ring buffer, all of
    which [Au_Stop] does on the same output. *)
Theorem Au_Delete_skips_Au_Stop env s p :
  AuInitialized_ s = TRUE -> output s = Some p ->
  sf_reader_thread p <> None -> sf_reader_semaphore p <> None ->
  sf_buffer p <> None -> sf_buffer_data p <> None ->
  playback_time_mutex p <> None ->
  exists s',
    Au_Delete Handle s = Done (TRUE, s') /\ output s' = None /\
    calls s' = calls s ++ Au_Delete_calls p /\
    forall c,
      In c [C_sem_post; C_pthread_join; C_sem_destroy;
            C_PaUtil_FlushRingBuffer; C_free_buffer;
            C_pthread_mutex_destroy] ->
      In c (Au_Stop_calls env p) /\ ~ In c (Au_Delete_calls p).
Proof.
  intros Hi Ho Hth Hsem Hrb Hdata Hmu.
  rewrite (Au_Delete_spec s p Hi Ho). eexists. split; [reflexivity|].
  split; [reflexivity|]. split; [reflexivity|].
  destruct p as [fmt rate ch st cb th sem ex fd rb slots t t0 pl mu pf].
  cbn [sf_reader_thread sf_reader_semaphore sf_buffer sf_buffer_data
       playback_time_mutex] in *.
  destruct th as [pc|]; [|congruence]. destruct sem; [|congruence].
  destruct rb; [|congruence]. destruct slots; [|congruence].
  destruct mu; [|congruence].
  unfold Au_Stop_calls, Au_Delete_calls. au_sim.
  intros c Hc. split.
  - destruct st, pc, (pthread_join_ok env), fd; cbn in Hc |- *;
      repeat (destruct Hc as [<-|Hc]; [tauto|]); destruct Hc.
  - destruct st, fd; cbn in Hc |- *;
      repeat (destruct Hc as [<-|Hc];
              [intros H; repeat (destruct H as [H|H]; [discriminate H|]);
               destruct H|]); destruct Hc.
Qed.

Lemma Au_Delete_skips_Au_Stop_witness :
  exists s',
    Au_Delete Handle (playing_output AUSF_F32 44100 2 (counting_file 44100 3))
    = Done (TRUE, s') /\ output s' = None /\
    calls s' =
    calls (playing_output AUSF_F32 44100 2 (counting_file 44100 3)) ++
    [C_Pa_StopStream; C_sf_close; C_Pa_CloseStream; C_free_output] /\
    forall c,
      In c [C_sem_post; C_pthread_join; C_sem_destroy;
            C_PaUtil_FlushRingBuffer; C_free_buffer;
            C_pthread_mutex_destroy] ->
      In c [C_Pa_StopStream; C_sem_post; C_pthread_join; C_sem_destroy;
            C_PaUtil_FlushRingBuffer; C_free_buffer;
            C_pthread_mutex_destroy; C_sf_close] /\
      ~ In c [C_Pa_StopStream; C_sf_close; C_Pa_CloseStream; C_free_output].
Proof.
  apply (Au_Delete_skips_Au_Stop
           (env_ok None zero_blocks)
           (playing_output AUSF_F32 44100 2 (counting_file 44100 3))
           (session_start (zeroed_output 0 44100 2) (counting_file 44100 3)
                          zero_blocks));
    try reflexivity; cbn; discriminate.
Defined.

(** With a time mutex in place and the lock acquired, the query returns
    the difference of the two time fields and leaves the state alone. *)
Lemma Au_GetTimeInPlayback_locked env s p :
  output s = Some p ->
  playback_time_mutex p <> None ->
  pthread_mutex_lock_ok env = true ->
  Au_GetTimeInPlayback env Handle s
  = Done (Double.sub (playback_time p) (playback_start_time p), s).
Proof.
  intros Ho Hmu Hl. destruct s as [ini c1 c2 o log]. cbn [output] in Ho.
  subst o.
  destruct p as [fmt rate ch st cb th sem ex fd rb slots t t0 pl mu pf].
  unfold Au_GetTimeInPlayback. au_sim. cbn in Hmu. rewrite Hl.
  destruct mu; [reflexivity|congruence].
Qed.

(** C7 (as amended).  [Au_GetTimeInPlayback] always returns, leaving the
    state as it is: -1 for a NULL handle, -2 when no time mutex exists
    (before [Au_Play] and after [Au_Stop]), -3 when the lock cannot be
    acquired, and otherwise the difference of the current and the start
    time, computed in doubles.  The three sentinels are negative and
    differ from each other.  While the start time still holds its own
    sentinel the difference is 0; once the callback has set the start
    time to 0 it is the current time, a double losing nothing when 0 is
    subtracted from it. *)
Theorem Au_GetTimeInPlayback_returns env s p :
  output s = Some p ->
  Au_GetTimeInPlayback env NULL s = Done (time_null_handle, s) /\
  (playback_time_mutex p = None ->
   Au_GetTimeInPlayback env Handle s = Done (time_no_session, s)) /\
  (playback_time_mutex p <> None -> pthread_mutex_lock_ok env = false ->
   Au_GetTimeInPlayback env Handle s = Done (time_lock_failed, s)) /\
  (playback_time_mutex p <> None -> pthread_mutex_lock_ok env = true ->
   Au_GetTimeInPlayback env Handle s
   = Done (Double.sub (playback_time p) (playback_start_time p), s) /\
   (playback_start_time p = time_unset -> playback_time p = time_unset ->
    (Double.sub (playback_time p) (playback_start_time p) == 0)%Q) /\
   (playback_start_time p = time_zero ->
    (Double.sub (playback_time p) (playback_start_time p)
     == Double.round (playback_time p))%Q /\
    (is_double (playback_time p) ->
     (Double.sub (playback_time p) (playback_start_time p)
      == playback_time p)%Q))) /\
  (time_null_handle < 0)%Q /\ (time_no_session < 0)%Q /\
  (time_lock_failed < 0)%Q /\
  ~ (time_no_session == time_lock_failed)%Q /\
  ~ (time_no_session == time_null_handle)%Q /\
  ~ (time_lock_failed == time_null_handle)%Q.
Proof.
  intros Ho. destruct s as [ini c1 c2 o log]. cbn [output] in Ho. subst o.
  destruct p as [fmt rate ch st cb th sem ex fd rb slots t t0 pl mu pf].
  unfold Au_GetTimeInPlayback. au_sim.
  split; [reflexivity|].
  split; [intros ->; reflexivity|].
  split; [intros Hmu ->; destruct mu; [reflexivity|congruence]|].
  split.
  - intros Hmu ->. destruct mu; [|congruence].
    split; [reflexivity|]. split.
    + intros -> ->. vm_compute. reflexivity.
    + intros ->.
      assert (E : (Double.sub t time_zero == Double.round t)%Q).
      { apply round_comp. unfold time_zero. ring. }
      split; [exact E|]. intros Hd. rewrite E. exact Hd.
  - repeat split; try reflexivity; intros H; discriminate H.
Qed.

Lemma Au_GetTimeInPlayback_returns_witness :
  Au_GetTimeInPlayback (env_ok None zero_blocks) Handle
    (fresh_output AUSF_F32 44100 2)
  = Done (time_no_session, fresh_output AUSF_F32 44100 2) /\
  ~ (time_no_session == time_lock_failed)%Q.
Proof.
  pose proof (Au_GetTimeInPlayback_returns
                (env_ok None zero_blocks) (fresh_output AUSF_F32 44100 2)
                _ eq_refl) as H.
  split.
  - apply H. reflexivity.
  - apply H.
Defined.

(** C7 as stated fails: after a successful [Au_Play], before any callback
    has run, the start time is uninitialised and [Au_GetTimeInPlayback]
    returns 0, which is no negative sentinel. *)
Lemma Au_GetTimeInPlayback_zero_before_first_callback :
  exists s t,
    Au_Play (env_ok (Some (counting_file 44100 3)) zero_blocks) Handle "a.wav"
            (fresh_output AUSF_F32 44100 2) = Done (TRUE, s) /\
    option_map playback_start_time (output s) = Some time_unset /\
    Au_GetTimeInPlayback (env_ok None zero_blocks) Handle s = Done (t, s) /\
    ~ (t < 0)%Q.
Proof.
  exists (playing_output AUSF_F32 44100 2 (counting_file 44100 3)),
         (Double.sub time_unset time_unset).
  split; [vm_compute; reflexivity|]. split; [reflexivity|].
  split; [vm_compute; reflexivity|]. vm_compute. intros H; discriminate H.
Qed.

(** ** Reachable states are well formed *)

Lemma wf_stopped_output p e f : wf_output p -> wf_output (stopped_output p e f).
Proof.
  intros []; constructor; cbn; auto; try congruence; intros; discriminate.
Qed.

Lemma Au_Play_once_config env filename s p :
  output s = Some p -> wf_output p -> sf_reader_thread p = None ->
  exists b s' p',
    Au_Play_once env filename s = Done (b, s') /\ output s' = Some p' /\
    AuInitialized_ s' = AuInitialized_ s /\
    format p' = format p /\ sample_rate p' = sample_rate p /\
    channels p' = channels p /\
    if thread_creation_fails env filename (sample_rate p)
    then b = false /\ sf_reader_thread p' = Some RNotCreated /\
         sf_reader_semaphore p' <> None
    else wf_output p'.
Proof.
  intros Ho Hwf Hth.
  destruct (Au_Play_once_wf env filename s p Ho Hwf Hth)
    as (b & s' & p' & E & Ho' & Hi' & Hcase).
  exists b, s', p'. repeat (split; [assumption|]).
  assert (Hcfg : format p' = format p /\ sample_rate p' = sample_rate p /\
                 channels p' = channels p).
  { clear Hwf Hcase Hi'. revert E Ho'.
    destruct s as [ini c1 c2 o log]. cbn [output] in Ho. subst o.
    destruct p as [fmt rate ch st cb th sem ex fd0 rb slots t t0 pl mu pf].
    unfold Au_Play_once. au_sim.
    change (PaUtil_InitializeRingBuffer PA_RING_BUFFERCOUNT)
      with (Some (mkRing PA_RING_BUFFERCOUNT 0 0)).
    destruct (sf_open env filename) as [fd|]; au_sim.
    2:{ intros [= <- <-] [= <-]. repeat split. }
    destruct (sf_samplerate fd =? rate); au_sim;
      [|intros [= <- <-] [= <-]; repeat split].
    destruct (sf_channels fd =? 2); au_sim;
      [|intros [= <- <-] [= <-]; repeat split].
    destruct (pthread_mutex_init_ok env); au_sim;
      [|intros [= <- <-] [= <-]; repeat split].
    destruct (malloc_buffer env) as [fresh|]; au_sim;
      [|intros [= <- <-] [= <-]; repeat split].
    destruct (sem_init_ok env); au_sim;
      [|intros [= <- <-] [= <-]; repeat split].
    destruct (pthread_create_ok env); au_sim;
      [|intros [= <- <-] [= <-]; repeat split].
    destruct (Pa_StartStream_ok env); au_sim;
      intros [= <- <-] [= <-]; repeat split. }
  destruct Hcfg as (Hf & Hr & Hc).
  repeat (split; [assumption|]). exact Hcase.
Qed.

(** [Au_Play] on an output without a session: it faults when
    [pthread_create] fails, and otherwise returns, leaving a well-formed
    output; where it returns FALSE, the rollback has left the stopped
    output. *)
Lemma Au_Play_runs env filename s p :
  AuInitialized_ s = TRUE -> output s = Some p -> wf_output p ->
  sf_reader_thread p = None ->
  if thread_creation_fails env filename (sample_rate p)
  then Au_Play env Handle filename s = Crash InvalidThread
  else
    exists b s',
      Au_Play env Handle filename s = Done (b, s') /\
      (exists p', AuInitialized_ s' = TRUE /\ output s' = Some p' /\
                  wf_output p') /\
      (b = FALSE ->
       exists exit_flag frames,
         output s' = Some (stopped_output p exit_flag frames)).
Proof.
  intros Hi Ho Hwf Hth.
  destruct s as [ini c1 c2 o log]. cbn [AuInitialized_ output] in Hi, Ho.
  subst ini o.
  set (s0 := mkState TRUE c1 c2 (Some (set_pa_stream (Some PaStopped) p))
               (log ++ [C_Pa_StopStream])).
  assert (EP : Au_Play env Handle filename (mkState TRUE c1 c2 (Some p) log)
               = (ok <- Au_Play_once env filename ;;
                  if ok then ret TRUE else Au_Stop env Handle ;; ret FALSE)
                   s0).
  { unfold Au_Play, POW. unfold bind at 1, get_state.
    cbn [AuInitialized_ negb TRUE]. unfold bind at 1, get_pau.
    cbn [output].
    destruct (pa_stream p) as [st|] eqn:Est;
      [|now elim (wf_stream _ Hwf)].
    rewrite Hth. cbn [is_some negb]. unfold bind at 1.
    unfold Pa_StopStream, call, store. unfold bind at 1 2 3.
    unfold get_pau, put_output. cbn [output AuInitialized_ AU_SFFR_Count
                                     AU_PAPC_Count calls].
    reflexivity. }
  rewrite EP. clear EP.
  assert (Hwf0 : wf_output (set_pa_stream (Some PaStopped) p)).
  { destruct p; destruct Hwf; constructor; cbn in *; auto; congruence. }
  destruct (Au_Play_once_config env filename s0
              (set_pa_stream (Some PaStopped) p) eq_refl Hwf0)
    as (b1 & s1 & p1 & E1 & Ho1 & Hi1 & Hf & Hr & Hc & Hcase).
  { destruct p; cbn in *; auto. }
  replace (sample_rate (set_pa_stream (Some PaStopped) p))
    with (sample_rate p) in Hcase by (destruct p; reflexivity).
  assert (Hi1' : AuInitialized_ s1 = TRUE) by (rewrite Hi1; reflexivity).
  destruct (thread_creation_fails env filename (sample_rate p));
    unfold bind at 1; rewrite E1.
  - destruct Hcase as (-> & Hth1 & Hsem1).
    unfold bind. rewrite (Au_Stop_not_created env s1 p1 Hi1' Ho1 Hth1 Hsem1).
    reflexivity.
  - destruct b1.
    + do 2 eexists. split; [reflexivity|]. split; [eauto|discriminate].
    + destruct (Au_Stop_spec env s1 p1 Hi1' Ho1 Hcase) as (c & fr & E2).
      unfold bind. rewrite E2. do 2 eexists. split; [reflexivity|].
      assert (Hout : stopped_output p1
                       (if is_some (sf_reader_thread p1) then TRUE
                        else sf_reader_should_exit p1) fr
                     = stopped_output p
                         (if is_some (sf_reader_thread p1) then TRUE
                          else sf_reader_should_exit p1) fr).
      { unfold stopped_output. rewrite Hf, Hr, Hc. destruct p; reflexivity. }
      split.
      * eexists. split; [reflexivity|]. split; [reflexivity|].
        rewrite Hout. now apply wf_stopped_output.
      * intros _. do 2 eexists. cbn [output]. f_equal. exact Hout.
Qed.

Lemma Au_Play_wf env filename s b s' :
  wf_state s -> Au_Play env Handle filename s = Done (b, s') -> wf_state s'.
Proof.
  intros [Hi Hwf] E.
  destruct (output s) as [p|] eqn:Ho.
  2:{ exfalso. revert E. destruct s as [ini c1 c2 o log].
      cbn [AuInitialized_ output] in Hi, Ho. subst ini o.
      unfold Au_Play. au_sim. discriminate. }
  pose proof (Hwf p eq_refl) as Hp.
  destruct (sf_reader_thread p) as [pc|] eqn:Eth.
  { assert (s' = s).
    { revert E. destruct s as [ini c1 c2 o log].
      cbn [AuInitialized_ output] in Hi, Ho. subst ini o.
      destruct p as [fmt rate ch st cb th sem ex fd0 rb slots t t0 pl mu pf].
      cbn [sf_reader_thread] in Eth. subst th.
      unfold Au_Play. au_sim. destruct st; au_sim; congruence. }
    subst s'. split; [assumption|]. intros q Hq. rewrite Ho in Hq.
    now apply Hwf. }
  pose proof (Au_Play_runs env filename s p Hi Ho Hp Eth) as H.
  destruct (thread_creation_fails env filename (sample_rate p)).
  { rewrite H in E. discriminate. }
  destruct H as (b' & s'' & E' & (p' & Hi' & Ho' & Hwf') & _).
  rewrite E' in E. injection E as <- <-.
  split; [assumption|]. intros q Hq. congruence.
Qed.

Lemma exec_wf op s u s' :
  wf_state s ->
  (forall env f r c, op = OpNew env f r c -> output s = None) ->
  exec op s = Done (u, s') -> wf_state s'.
Proof.
  intros [Hi Hwf] Hnew. destruct op as [env f r c| |env fn|env| |env fc];
    cbn [exec]; try unfold bind at 1.
  - specialize (Hnew env f r c eq_refl).
    destruct (Au_New_cases env f r c s)
      as [[E _]|[[[s1 (E & Ho & Hi1)] _]|(_ & Hf & Hr & log & E)]];
      rewrite E; intros [= <- <-].
    + split; auto.
    + split; [congruence|]. intros q Hq.
      destruct Ho as [Ho|Ho]; rewrite Ho in Hq; congruence.
    + split; [reflexivity|]. cbn [output]. intros q [= <-].
      constructor; cbn; auto; try congruence; intros; discriminate.
  - destruct (output s) as [p|] eqn:Ho.
    + rewrite (Au_Delete_spec s p Hi Ho). intros [= <- <-].
      split; [reflexivity|]. cbn [output]. discriminate.
    + destruct s as [ini c1 c2 o log].
      cbn [AuInitialized_ output] in Hi, Ho. subst.
      unfold Au_Delete. au_sim. discriminate.
  - destruct (Au_Play env Handle fn s) as [[b s1]|] eqn:E; [|discriminate].
    intros [= <- <-]. eapply Au_Play_wf; eauto. split; auto.
  - destruct (output s) as [p|] eqn:Ho.
    + destruct (Au_Stop_spec env s p Hi Ho (Hwf p eq_refl)) as (c & fr & E).
      rewrite E. intros [= <- <-]. split; [reflexivity|].
      cbn [output]. intros q [= <-]. apply wf_stopped_output; auto.
    + destruct s as [ini c1 c2 o log].
      cbn [AuInitialized_ output] in Hi, Ho. subst.
      unfold Au_Stop. au_sim. discriminate.
  - destruct (output s) as [p|] eqn:Ho.
    + destruct (SFFileReader_step_wf s p Ho (Hwf p eq_refl))
        as (s1 & p1 & E & Ho1 & Hwf1 & _ & Hi1 & _).
      intros H.
      assert (s' = s1) by congruence. subst s1.
      split; [congruence|]. intros q Hq. congruence.
    + destruct s as [ini c1 c2 o log].
      cbn [AuInitialized_ output] in Hi, Ho. subst.
      unfold SFFileReader_step. au_sim. discriminate.
  - destruct (PACallback_ env fc s) as [[r s1]|] eqn:E; [|discriminate].
    intros [= <- <-].
    destruct (output s) as [p|] eqn:Ho.
    + destruct (PACallback_wf env fc s p r s1 Ho (Hwf p eq_refl) E)
        as (p1 & Ho1 & Hwf1 & Hi1).
      split; [congruence|]. intros q Hq. congruence.
    + revert E. destruct s as [ini c1 c2 o log].
      cbn [AuInitialized_ output] in Hi, Ho. subst.
      unfold PACallback_. au_sim. discriminate.
Qed.

Lemma reachable_wf s : reachable s -> wf_state s.
Proof.
  induction 1 as [|s op u s' _ IH Hnew E].
  - split; [reflexivity|]. cbn. discriminate.
  - eapply exec_wf; eauto.
Qed.

Lemma reachable_fresh_output : reachable (fresh_output AUSF_F32 44100 2).
Proof.
  apply (reach_exec started
           (OpNew (env_ok None zero_blocks) 0 44100 2) tt).
  - constructor.
  - reflexivity.
  - reflexivity.
Qed.

Lemma reachable_playing_output :
  reachable (playing_output AUSF_F32 44100 2 (counting_file 44100 3)).
Proof.
  apply (reach_exec (fresh_output AUSF_F32 44100 2)
           (OpPlay (env_ok (Some (counting_file 44100 3)) zero_blocks) "a.wav")
           tt).
  - apply reachable_fresh_output.
  - discriminate.
  - vm_compute. reflexivity.
Qed.

(** [Au_Stop] on an output that is already stopped changes nothing but
    the log of calls. *)
Lemma Au_Stop_stopped env s p e f :
  AuInitialized_ s = TRUE -> output s = Some (stopped_output p e f) ->
  Au_Stop env Handle s =
  Done (TRUE,
        mkState TRUE (AU_SFFR_Count s) (AU_PAPC_Count s)
          (Some (stopped_output p e f)) (calls s ++ [C_Pa_StopStream])).
Proof.
  intros Hi Ho. destruct s as [ini c1 c2 o log].
  cbn [AuInitialized_ output] in Hi, Ho. subst.
  unfold Au_Stop. au_sim. reflexivity.
Qed.

(** C5 (as amended).  While the library is initialised [Au_Stop] has no
    failure exit: on every live handle in a state reached from
    [Au_Startup] by API calls, reader steps and callback invocations it
    returns TRUE and leaves the output released, that is, as
    [stopped_output] lists it: the stream stopped, the idle callback
    installed, no reader thread, semaphore, ring buffer, time mutex or
    open file, the flag cleared and both times at -1.  A second [Au_Stop]
    returns TRUE again and changes nothing; its only call is the
    precautionary [Pa_StopStream].  After [Au_Stop] an [Au_Play] of a
    file the output can play succeeds whenever the calls it makes
    succeed.  While the library is not initialised, [Au_Stop] returns
    FALSE and changes nothing, whatever the handle points to. *)
Theorem Au_Stop_total_idempotent_replayable s env1 env2 :
  (AuInitialized_ s = FALSE -> Au_Stop env1 Handle s = Done (FALSE, s)) /\
  (reachable s -> output s <> None ->
   exists p s1 exit_flag frames,
     output s = Some p /\
     Au_Stop env1 Handle s = Done (TRUE, s1) /\
     AuInitialized_ s1 = TRUE /\
     output s1 = Some (stopped_output p exit_flag frames) /\
     calls s1 = calls s ++ Au_Stop_calls env1 p /\
     Au_Stop env2 Handle s1
     = Done (TRUE,
             mkState TRUE (AU_SFFR_Count s1) (AU_PAPC_Count s1) (output s1)
                     (calls s1 ++ [C_Pa_StopStream])) /\
     forall fd fresh filename,
       sf_samplerate fd = sample_rate p -> sf_channels fd = 2 ->
       exists s3,
         Au_Play (env_ok (Some fd) fresh) Handle filename s1
         = Done (TRUE, s3) /\
         output s3
         = Some (session_start (stopped_output p exit_flag frames) fd fresh)).
Proof.
  split.
  { intros Hi. destruct s as [ini c1 c2 o log]. cbn [AuInitialized_] in Hi.
    subst ini. reflexivity. }
  intros Hreach Hlive. destruct (reachable_wf s Hreach) as [Hi Hwf].
  destruct (output s) as [p|] eqn:Ho; [clear Hlive|congruence].
  destruct (Au_Stop_spec env1 s p Hi Ho (Hwf p eq_refl)) as (c & fr & E1).
  rewrite E1. eexists _, _, _, _. split; [reflexivity|].
  split; [reflexivity|]. split; [reflexivity|]. split; [reflexivity|].
  split; [reflexivity|].
  split; [apply Au_Stop_stopped; reflexivity|].
  intros fd fresh filename Hr Hc. eexists. split.
  - eapply (Au_Play_succeeds (env_ok (Some fd) fresh) filename);
      try reflexivity; auto.
    cbn. discriminate.
  - reflexivity.
Qed.

Lemma Au_Stop_total_idempotent_replayable_witness :
  Au_Stop (env_ok None zero_blocks) Handle program_start
  = Done (FALSE, program_start) /\
  exists s1 exit_flag frames,
    Au_Stop (env_ok None zero_blocks) Handle
            (playing_output AUSF_F32 44100 2 (counting_file 44100 3))
    = Done (TRUE, s1) /\
    output s1
    = Some (stopped_output
              (session_start (zeroed_output 0 44100 2)
                             (counting_file 44100 3) zero_blocks)
              exit_flag frames) /\
    Au_Stop (env_ok None zero_blocks) Handle s1
    = Done (TRUE,
            mkState TRUE (AU_SFFR_Count s1) (AU_PAPC_Count s1) (output s1)
                    (calls s1 ++ [C_Pa_StopStream])).
Proof.
  split.
  - apply (Au_Stop_total_idempotent_replayable program_start
             (env_ok None zero_blocks) (env_ok None zero_blocks)).
    reflexivity.
  - destruct (Au_Stop_total_idempotent_replayable
                (playing_output AUSF_F32 44100 2 (counting_file 44100 3))
                (env_ok None zero_blocks) (env_ok None zero_blocks))
      as [_ H].
    destruct (H reachable_playing_output ltac:(discriminate))
      as (p & s1 & e & f & Ho & E1 & _ & Ho1 & _ & E2 & _).
    injection Ho as <-.
    exists s1, e, f. repeat split; assumption.
Defined.

(** C5 as stated fails: after [Au_Shutdown], with an output still
    playing, the handle is as valid as before and [Au_Stop] returns
    FALSE, releasing nothing. *)
Lemma Au_Stop_fails_after_Au_Shutdown :
  exists s1,
    Au_Shutdown true (playing_output AUSF_F32 44100 2 (counting_file 44100 3))
    = Done (TRUE, s1) /\
    output s1
    = output (playing_output AUSF_F32 44100 2 (counting_file 44100 3)) /\
    Au_Stop (env_ok None zero_blocks) Handle s1 = Done (FALSE, s1).
Proof.
  eexists. split; [reflexivity|]. split; reflexivity.
Qed.

(** C3 (as amended).  An invocation of [PAPlayCallback_] on an output
    with a session in place, whose block size fits a frame block, posts
    the reader semaphore and then does one of three things.  When the
    frame count is not 256 or no filled block is available it returns
    [paComplete] without consuming a block, and clears [is_playing] if it
    acquires the time mutex.  When a block is available, the start time
    is still uninitialised and the mutex cannot be acquired, it returns
    [paComplete] without consuming the block or changing the flag.
    Otherwise it copies the first block-size bytes of the block at the
    read cursor to the output, advances the read cursor by one, and
    returns [paContinue] for a block tagged Playing and [paComplete] for
    a block tagged Stopped, clearing [is_playing] in the latter case if
    it acquires the mutex. *)
Theorem PAPlayCallback_behaviour env frameCount s p count rb slots :
  output s = Some p -> session_active p count rb slots ->
  0 <= bufferSizeBytes_ (Some p) <= sizeof_FRBuf_data ->
  exists code out p',
    PAPlayCallback_ env frameCount s = Done ((code, out), posted s p') /\
    sf_reader_semaphore p' = Some (count + 1) /\
    sf_buffer_data p' = Some slots /\
    ((frameCount <> PA_BUFFER_FRAMECOUNT \/
      PaUtil_GetRingBufferReadAvailable rb <= 0) ->
     code = paComplete /\ out = None /\ sf_buffer p' = Some rb /\
     is_playing p' =
     (if pthread_mutex_lock_ok env then FALSE else is_playing p)) /\
    (frameCount = PA_BUFFER_FRAMECOUNT ->
     0 < PaUtil_GetRingBufferReadAvailable rb ->
     Qeq_bool (playback_start_time p) time_unset = true ->
     pthread_mutex_lock_ok env = false ->
     code = paComplete /\ out = None /\ sf_buffer p' = Some rb /\
     is_playing p' = is_playing p) /\
    (frameCount = PA_BUFFER_FRAMECOUNT ->
     0 < PaUtil_GetRingBufferReadAvailable rb ->
     Qeq_bool (playback_start_time p) time_unset = false \/
     pthread_mutex_lock_ok env = true ->
     out = Some (load_bytes (data (slot_of rb slots (readIndex rb)))
                            (Z.to_nat (bufferSizeBytes_ (Some p)))) /\
     sf_buffer p' =
     Some (mkRing (bufferSize rb) (writeIndex rb) (readIndex rb + 1)) /\
     (state (slot_of rb slots (readIndex rb)) = PPPS_Playing ->
      code = paContinue) /\
     (state (slot_of rb slots (readIndex rb)) = PPPS_Stopped ->
      code = paComplete /\
      (pthread_mutex_lock_ok env = true -> is_playing p' = FALSE))).
Proof.
  intros Ho Hact Hn.
  rewrite (PAPlayCallback_run env frameCount s p count rb slots Ho Hact).
  destruct Hact as (Hsem & Hrb & Hdata & Hmu).
  destruct p as [fmt rate ch st cb th sem ex fd0 rb0 slots0 t t0 pl mu pf].
  cbn [sf_reader_semaphore sf_buffer sf_buffer_data playback_time_mutex] in *.
  subst. cbv zeta.
  set (n := bufferSizeBytes_ _) in *.
  assert (Hnb : (n <? 0) || (sizeof_FRBuf_data <? n) = false).
  { apply orb_false_iff. split; [apply Z.ltb_ge|apply Z.ltb_ge]; lia. }
  rewrite Hnb. clear Hnb.
  unfold marked_not_playing, synced, PaUtil_AdvanceRingBufferReadIndex.
  cbn [playback_start_time set_sf_reader_semaphore is_playing].
  destruct (frameCount =? PA_BUFFER_FRAMECOUNT) eqn:Efc; cbn [negb orb].
  2:{ apply Z.eqb_neq in Efc.
      eexists _, _, _. split; [reflexivity|].
      destruct (pthread_mutex_lock_ok env); cbn;
        repeat apply conj; auto; intros; congruence. }
  apply Z.eqb_eq in Efc.
  destruct (PaUtil_GetRingBufferReadAvailable rb <=? 0) eqn:Eav.
  { apply Z.leb_le in Eav.
    eexists _, _, _. split; [reflexivity|].
    destruct (pthread_mutex_lock_ok env); cbn;
      repeat apply conj; auto; intros; lia. }
  apply Z.leb_gt in Eav.
  destruct (Qeq_bool t0 time_unset) eqn:Efirst; cbn [andb negb];
    destruct (pthread_mutex_lock_ok env) eqn:Elock; cbn [negb];
    try destruct (pthread_mutex_trylock_ok env);
    destruct (state (slot_of rb slots (readIndex rb))) eqn:Etag;
    (eexists _, _, _; split; [reflexivity|]; au_sim;
     repeat (first [apply conj | intro]); try reflexivity;
     try congruence; try lia;
     try match goal with H : _ \/ _ |- _ => destruct H; congruence end).
Qed.

Lemma PAPlayCallback_behaviour_witness :
  exists code out p',
    PAPlayCallback_ (env_ok None zero_blocks) PA_BUFFER_FRAMECOUNT
      (playing_output AUSF_F32 44100 2 (counting_file 44100 3))
    = Done ((code, out),
            posted (playing_output AUSF_F32 44100 2 (counting_file 44100 3))
                   p') /\
    sf_reader_semaphore p' = Some (1 + 1).
Proof.
  destruct (PAPlayCallback_behaviour
              (env_ok None zero_blocks) PA_BUFFER_FRAMECOUNT
              (playing_output AUSF_F32 44100 2 (counting_file 44100 3))
              (session_start (zeroed_output 0 44100 2)
                             (counting_file 44100 3) zero_blocks)
              1 (mkRing PA_RING_BUFFERCOUNT 0 0) zero_blocks)
    as (code & out & p' & E & Hsem & _).
  - reflexivity.
  - repeat split; discriminate.
  - vm_compute. split; discriminate.
  - exists code, out, p'. split; assumption.
Defined.

(** C3 as stated fails: with a block tagged Playing at the read cursor
    and a frame count of 256, an invocation that cannot acquire the time
    mutex for the initial sync returns [paComplete] and leaves the read
    cursor where it was. *)
Lemma PAPlayCallback_lock_failure_consumes_nothing :
  option_map (option_map state) (result_of front_block filled_output)
  = Some (Some PPPS_Playing) /\
  result_of (PAPlayCallback_ env_lock_fails PA_BUFFER_FRAMECOUNT)
            filled_output = Some (paComplete, None) /\
  option_map read_cursor
    (state_after (PAPlayCallback_ env_lock_fails PA_BUFFER_FRAMECOUNT)
                 filled_output)
  = Some (read_cursor filled_output).
Proof. repeat split; vm_compute; reflexivity. Qed.

(** ** Formats without a decode call *)




(** ** The playback clock *)

Lemma of_Z_nonneg z : 0 <= z -> (0 <= Double.of_Z z)%Q.
Proof.
  intros H. apply round_nonneg. change 0%Q with (inject_Z 0).
  rewrite <- Zle_Qle. exact H.
Qed.

Lemma of_Z_mono a b : 0 <= a -> a <= b -> (Double.of_Z a <= Double.of_Z b)%Q.
Proof.
  intros Ha Hab. apply round_mono.
  - change 0%Q with (inject_Z 0). rewrite <- Zle_Qle. exact Ha.
  - rewrite <- Zle_Qle. exact Hab.
Qed.

(** The conversion of an [int], or of a [long] of at most 53 bits, is
    exact. *)
Lemma of_Z_exact z : Z.abs z <= 2 ^ 53 -> (Double.of_Z z == inject_Z z)%Q.
Proof. apply round_Z. Qed.

Lemma quotient_nonneg x y : (0 <= x)%Q -> (0 <= y)%Q -> (0 <= x / y)%Q.
Proof.
  intros Hx Hy. unfold Qdiv. apply Qmult_le_0_compat; [exact Hx|].
  apply Qinv_le_0_compat, Hy.
Qed.

(** The time of a frame position does not decrease with the position,
    rounding included. *)
Lemma frames_to_time_mono rate a b :
  1 <= rate -> 0 <= a -> a <= b ->
  (frames_to_time a rate <= frames_to_time b rate)%Q.
Proof.
  intros Hr Ha Hab. unfold frames_to_time, Double.div.
  pose proof (of_Z_nonneg rate ltac:(lia)) as Hrate.
  apply round_mono.
  - apply quotient_nonneg; [apply of_Z_nonneg; exact Ha|exact Hrate].
  - unfold Qdiv. apply Qmult_le_compat_r; [now apply of_Z_mono|].
    apply Qinv_le_0_compat, Hrate.
Qed.

Lemma frames_to_time_0 rate : (frames_to_time 0 rate == 0)%Q.
Proof.
  unfold frames_to_time, Double.div, Double.of_Z.
  transitivity (Double.round 0); [apply round_comp|apply round_0].
  unfold Qdiv. change (inject_Z 0) with 0%Q.
  rewrite (Qmult_comp _ 0%Q round_0 _ _ (Qeq_refl _)). apply Qmult_0_l.
Qed.

Lemma frames_to_time_nonneg rate a :
  1 <= rate -> 0 <= a -> (0 <= frames_to_time a rate)%Q.
Proof.
  intros Hr Ha. rewrite <- (frames_to_time_0 rate).
  apply frames_to_time_mono; [exact Hr|lia|exact Ha].
Qed.

Lemma frames_to_time_double a rate : is_double (frames_to_time a rate).
Proof. apply round_idem. Qed.

(** Subtracting the start time 0 from a double gives the double. *)
Lemma Double_sub_zero x : is_double x -> (Double.sub x time_zero == x)%Q.
Proof.
  intros Hx. unfold Double.sub.
  transitivity (Double.round x); [apply round_comp|exact Hx].
  unfold time_zero. ring.
Qed.

(** The recorded time is the position divided by the sample rate, up to
    the rounding of one division: for a position of at most 53 bits and
    the rate of an [int], the relative error is at most 2^-53. *)
Lemma frames_to_time_near a rate :
  0 <= a <= 2 ^ 53 -> 1 <= rate <= 2 ^ 53 ->
  (frames_to_time a rate == Double.round (inject_Z a / inject_Z rate))%Q /\
  (Qabs (frames_to_time a rate - inject_Z a / inject_Z rate)
   <= inject_Z a / inject_Z rate * (1 # 2 ^ 53))%Q.
Proof.
  intros Ha Hr.
  assert (E : (frames_to_time a rate
               == Double.round (inject_Z a / inject_Z rate))%Q).
  { unfold frames_to_time, Double.div. apply round_comp.
    rewrite (of_Z_exact a), (of_Z_exact rate) by lia. reflexivity. }
  split; [exact E|].
  assert (Hrate : (0 < inject_Z rate)%Q).
  { change 0%Q with (inject_Z 0). rewrite <- Zlt_Qlt. lia. }
  destruct (Z.eq_dec a 0) as [->|Ha0].
  { rewrite frames_to_time_0. unfold Qdiv. rewrite !Qmult_0_l.
    cbn. discriminate. }
  set (x := (inject_Z a / inject_Z rate)%Q) in *.
  assert (Hlow : (Double.pow2 (- 53) <= x)%Q).
  { unfold x. apply Qle_shift_div_l; [exact Hrate|].
    apply Qle_trans with 1%Q.
    - rewrite <- (pow2_cancel 53), (Qmult_comm (Double.pow2 53)).
      rewrite Qmult_le_l by apply pow2_pos.
      rewrite pow2_Z by lia. rewrite <- Zle_Qle. lia.
    - change 1%Q with (inject_Z 1). rewrite <- Zle_Qle. lia. }
  assert (Hx : (0 < x)%Q) by (pose proof (pow2_pos (- 53)); lra).
  assert (Hmag : - 53 < Double.mag x).
  { apply pow2_lt_inv. destruct (mag_spec x) as [_ H]; [lra|].
    rewrite Qabs_pos in H by lra. lra. }
  rewrite E.
  eapply Qle_trans;
    [apply round_rel_error; [exact Hx|unfold Double.emin, Double.prec; lia]|].
  rewrite Qmult_le_l by exact Hx. vm_compute. discriminate.
Qed.

Lemma slot_index_distinct j w :
  0 < w - j < PA_RING_BUFFERCOUNT ->
  j mod PA_RING_BUFFERCOUNT <> w mod PA_RING_BUFFERCOUNT.
Proof.
  unfold PA_RING_BUFFERCOUNT. intros H E.
  assert (Hm : (w - j) mod 32 = 0).
  { rewrite Zminus_mod, E, Z.sub_diag. reflexivity. }
  rewrite Z.mod_small in Hm; lia.
Qed.

Lemma slot_of_publish_other rb slots tag pos j :
  bufferSize rb = PA_RING_BUFFERCOUNT ->
  0 < writeIndex rb - j < PA_RING_BUFFERCOUNT ->
  slot_of (PaUtil_AdvanceRingBufferWriteIndex rb 1)
          (publish slots (writeIndex rb mod bufferSize rb) tag pos) j
  = slot_of rb slots j.
Proof.
  intros Hsz Hj. unfold slot_of, publish, array_set.
  cbn [bufferSize PaUtil_AdvanceRingBufferWriteIndex]. rewrite Hsz.
  destruct (j mod PA_RING_BUFFERCOUNT =? writeIndex rb mod PA_RING_BUFFERCOUNT)
    eqn:E; [|reflexivity].
  apply Z.eqb_eq in E. now apply slot_index_distinct in E.
Qed.

Lemma slot_of_publish_new rb slots tag pos :
  slot_of (PaUtil_AdvanceRingBufferWriteIndex rb 1)
          (publish slots (writeIndex rb mod bufferSize rb) tag pos)
          (writeIndex rb)
  = mkFRBuf tag pos (data (slots (writeIndex rb mod bufferSize rb))).
Proof.
  unfold slot_of, publish, array_set.
  cbn [bufferSize PaUtil_AdvanceRingBufferWriteIndex].
  now rewrite Z.eqb_refl.
Qed.

Lemma pos_frames_decode_into rb slots index bytes j :
  pos_frames (slot_of rb (decode_into slots index bytes) j)
  = pos_frames (slot_of rb slots j).
Proof.
  unfold slot_of, decode_into, array_set.
  destruct (j mod bufferSize rb =? index) eqn:E; [|reflexivity].
  apply Z.eqb_eq in E. subst. reflexivity.
Qed.

Lemma clock_facts_decode rate start now frames rb slots fd index bytes fd' :
  clock_facts rate start now frames rb slots fd ->
  sf_channels fd' = 2 -> frames_left fd' <= frames_left fd ->
  clock_facts rate start now frames rb (decode_into slots index bytes) fd'.
Proof.
  intros [Hrate Hch Hsz Hrd Hwr Hfr Hlong Hpos Hsorted Htime] Hc Hl.
  constructor; auto; try lia.
  - intros j Hj. rewrite pos_frames_decode_into. auto.
  - intros j j' Hj Hj'. rewrite !pos_frames_decode_into. auto.
  - destruct Htime as [?|(? & ? & ? & Hq)]; [now left|right].
    repeat split; auto. intros j Hj. rewrite pos_frames_decode_into. auto.
Qed.

Lemma clock_facts_publish rate start now frames rb slots fd tag n :
  clock_facts rate start now frames rb slots fd ->
  0 < PaUtil_GetRingBufferWriteAvailable rb ->
  0 <= n <= frames_left fd ->
  forall fd', sf_channels fd' = 2 -> frames_left fd' = frames_left fd - n ->
  clock_facts rate start now (frames + n)
    (PaUtil_AdvanceRingBufferWriteIndex rb 1)
    (publish slots (writeIndex rb mod bufferSize rb) tag frames) fd'.
Proof.
  intros [Hrate Hch Hsz Hrd Hwr Hfr Hlong Hpos Hsorted Htime] Hav Hn fd' Hc Hl.
  unfold PaUtil_GetRingBufferWriteAvailable,
    PaUtil_GetRingBufferReadAvailable in Hav.
  rewrite Hsz in Hav.
  assert (Hslot : forall j, readIndex rb <= j < writeIndex rb + 1 ->
            pos_frames
              (slot_of (PaUtil_AdvanceRingBufferWriteIndex rb 1)
                 (publish slots (writeIndex rb mod bufferSize rb) tag frames) j)
            = if j =? writeIndex rb then frames
              else pos_frames (slot_of rb slots j)).
  { intros j Hj. destruct (Z.eqb_spec j (writeIndex rb)) as [->|E].
    - now rewrite slot_of_publish_new.
    - rewrite slot_of_publish_other; auto; lia. }
  constructor;
    change (readIndex (PaUtil_AdvanceRingBufferWriteIndex rb 1))
      with (readIndex rb);
    change (writeIndex (PaUtil_AdvanceRingBufferWriteIndex rb 1))
      with (writeIndex rb + 1);
    change (bufferSize (PaUtil_AdvanceRingBufferWriteIndex rb 1))
      with (bufferSize rb);
    auto; try lia.
  - intros j Hj. rewrite Hslot by lia.
    destruct (Z.eqb_spec j (writeIndex rb)) as [->|E]; [lia|].
    specialize (Hpos j ltac:(lia)). lia.
  - intros j j' Hj Hj'. rewrite !Hslot by lia.
    destruct (Z.eqb_spec j' (writeIndex rb)) as [->|E'];
      destruct (Z.eqb_spec j (writeIndex rb)) as [->|E]; try lia.
    + specialize (Hpos j ltac:(lia)). lia.
    + apply Hsorted; lia.
  - destruct Htime as [?|(? & ? & Hpf & Hq)]; [now left|right].
    repeat split; auto.
    + eapply Qle_trans; [exact Hpf|]. apply frames_to_time_mono; lia.
    + intros j Hj. rewrite Hslot by lia.
      destruct (Z.eqb_spec j (writeIndex rb)) as [->|E]; [exact Hpf|].
      apply Hq. lia.
Qed.

Lemma clock_facts_consume rate start now frames rb slots fd now' :
  clock_facts rate start now frames rb slots fd ->
  0 < PaUtil_GetRingBufferReadAvailable rb ->
  (now' = now \/
   now' = frames_to_time (pos_frames (slot_of rb slots (readIndex rb))) rate) ->
  start = time_zero ->
  clock_facts rate start now' frames
    (PaUtil_AdvanceRingBufferReadIndex rb 1) slots fd /\ (now <= now')%Q.
Proof.
  intros [Hrate Hch Hsz Hrd Hwr Hfr Hlong Hpos Hsorted Htime] Hav Hnow Hst.
  unfold PaUtil_GetRingBufferReadAvailable in Hav.
  destruct Htime as [Hu|(_ & H0 & Hpf & Hq)].
  { rewrite Hst in Hu. discriminate Hu. }
  assert (Hle : (now <= now')%Q).
  { destruct Hnow as [->| ->]; [apply Qle_refl|]. apply Hq. lia. }
  split; [|exact Hle].
  constructor;
    change (readIndex (PaUtil_AdvanceRingBufferReadIndex rb 1))
      with (readIndex rb + 1);
    change (writeIndex (PaUtil_AdvanceRingBufferReadIndex rb 1))
      with (writeIndex rb);
    change (slot_of (PaUtil_AdvanceRingBufferReadIndex rb 1))
      with (slot_of rb);
    auto; try lia.
  - intros j Hj. apply Hpos. lia.
  - intros j j' Hj Hj'. apply Hsorted; lia.
  - right. split; [exact Hst|]. split; [eapply Qle_trans; eauto|].
    destruct Hnow as [->| ->].
    + split; [exact Hpf|]. intros j Hj. apply Hq. lia.
    + pose proof (Hpos (readIndex rb) ltac:(lia)) as Hfront. split.
      * apply frames_to_time_mono; auto; lia.
      * intros j Hj. apply frames_to_time_mono; auto; [lia|].
        apply Hsorted; lia.
Qed.

Lemma clock_facts_first rate start now frames rb slots fd :
  clock_facts rate start now frames rb slots fd ->
  0 < PaUtil_GetRingBufferReadAvailable rb ->
  clock_facts rate time_zero time_zero frames
    (PaUtil_AdvanceRingBufferReadIndex rb 1) slots fd.
Proof.
  intros [Hrate Hch Hsz Hrd Hwr Hfr Hlong Hpos Hsorted Htime] Hav.
  unfold PaUtil_GetRingBufferReadAvailable in Hav.
  constructor;
    change (readIndex (PaUtil_AdvanceRingBufferReadIndex rb 1))
      with (readIndex rb + 1);
    change (writeIndex (PaUtil_AdvanceRingBufferReadIndex rb 1))
      with (writeIndex rb);
    change (slot_of (PaUtil_AdvanceRingBufferReadIndex rb 1))
      with (slot_of rb);
    auto; try lia.
  - intros j Hj. apply Hpos. lia.
  - intros j j' Hj Hj'. apply Hsorted; lia.
  - right. split; [reflexivity|]. split; [apply Qle_refl|]. split.
    + now apply frames_to_time_nonneg.
    + intros j Hj. apply frames_to_time_nonneg; auto.
      specialize (Hpos j ltac:(lia)). lia.
Qed.

Lemma clock_inv_intro p count rb slots fd :
  sf_reader_semaphore p = Some count -> sf_buffer p = Some rb ->
  sf_buffer_data p = Some slots -> playback_time_mutex p <> None ->
  sf_fd p = Some fd -> sf_reader_thread p <> None ->
  clock_facts (sample_rate p) (playback_start_time p) (playback_time p)
              (playback_frames p) rb slots fd ->
  clock_inv p.
Proof.
  intros. exists count, rb, slots, fd. unfold session_active.
  repeat apply conj; assumption.
Qed.

Lemma clock_step_same p p' :
  clock_inv p' -> format p' = format p -> channels p' = channels p ->
  sample_rate p' = sample_rate p -> pa_callback p' = pa_callback p ->
  playback_start_time p' = playback_start_time p ->
  playback_time p' = playback_time p ->
  clock_step p p'.
Proof.
  intros Hinv Hf Hc Hr Hcb Hs Ht. constructor; auto.
  - congruence.
  - intros _. rewrite Ht. apply Qle_refl.
Qed.

Ltac finish_clock Hfacts :=
  cbv beta iota; do 2 eexists; split; [reflexivity|];
  split; [reflexivity|];
  apply clock_step_same; try reflexivity;
  eapply clock_inv_intro; try reflexivity; try discriminate;
  try assumption; try exact Hfacts.

Lemma SFFileReader_step_clock s p :
  output s = Some p -> clock_inv p ->
  exists s' p',
    SFFileReader_step s = Done (tt, s') /\ output s' = Some p' /\
    clock_step p p'.
Proof.
  intros Ho (count & rb & slots & fd & (Hsem & Hrb & Hdata & Hmu) & Hfd
             & Hth & Hfacts).
  destruct s as [ini c1 c2 o log]. cbn [output] in Ho. subst o.
  destruct p as [fmt rate ch st cb th sem ex fd0 rb0 slots0 t t0 pl mu pf].
  cbn [sf_reader_semaphore sf_buffer sf_buffer_data playback_time_mutex
       sf_fd sf_reader_thread sample_rate playback_start_time playback_time
       playback_frames] in *.
  subst. destruct th as [pc|]; [clear Hth|congruence].
  unfold SFFileReader_step. au_sim.
  destruct pc as [| | |n|]; try solve [finish_clock Hfacts].
  - (* RStart *)
    destruct ini; [|finish_clock Hfacts].
    repeat break_match; au_sim; finish_clock Hfacts.
  - (* RWait *)
    destruct (count <=? 0); [finish_clock Hfacts|]. au_sim.
    destruct ex; au_sim; finish_clock Hfacts.
  - (* RFill *)
    destruct (0 <? n); [|au_sim; finish_clock Hfacts].
    unfold SFFileReader_iteration. au_sim.
    unfold PaUtil_GetRingBufferWriteRegions.
    destruct (Z.min 1 (PaUtil_GetRingBufferWriteAvailable rb) <=? 0) eqn:Eok;
      au_sim; [finish_clock Hfacts|].
    apply Z.leb_gt in Eok.
    assert (Hav : 0 < PaUtil_GetRingBufferWriteAvailable rb) by lia.
    unfold read_block, sf_readf_handle.
    pose proof (ci_channels _ _ _ _ _ _ _ Hfacts) as Hch.
    destruct (sf_readf_spec 4 fd Hch ltac:(lia))
      as (n4 & b4 & fd4 & E4 & Hn4 & Hm4 & Hb4 & Hc4 & _ & Hl4).
    destruct (sf_readf_spec 2 fd Hch ltac:(lia))
      as (n2 & b2 & fd2 & E2 & Hn2 & Hm2 & Hb2 & Hc2 & _ & Hl2).
    apply Z.ltb_ge in Hb4, Hb2.
    pose proof (ci_frames _ _ _ _ _ _ _ Hfacts) as Hpf.
    pose proof (ci_long _ _ _ _ _ _ _ Hfacts) as Hlong.
    pose proof (frames_left_nonneg fd) as Hfl.
    assert (Hw4 : wrap_long (pf + n4) = pf + n4).
    { apply wrap_long_small. unfold LONG_MAX in *. lia. }
    assert (Hw2 : wrap_long (pf + n2) = pf + n2).
    { apply wrap_long_small. unfold LONG_MAX in *. lia. }
    destruct (Au_SampleFormat_of_int fmt) as [[]|]; au_sim;
      rewrite ?E4, ?E2; au_sim; rewrite ?Hb4, ?Hb2; au_sim;
      try destruct ((0 <? n4) && negb (n4 =? PA_BUFFER_FRAMECOUNT));
      try destruct ((0 <? n2) && negb (n2 =? PA_BUFFER_FRAMECOUNT));
      au_sim; try solve [finish_clock Hfacts].
    all: finish_clock Hfacts.
    all: try (eapply clock_facts_decode; [exact Hfacts|assumption|lia]).
    all: rewrite ?Hw4, ?Hw2.
    all: eapply clock_facts_publish;
      [eapply clock_facts_decode; [exact Hfacts|exact Hch|lia]
      |assumption|lia|assumption|assumption].
Qed.

Lemma clock_step_refl p : clock_inv p -> clock_step p p.
Proof. intros. apply clock_step_same; auto. Qed.

Lemma PACallback_clock env frameCount s p r s' :
  output s = Some p -> clock_inv p ->
  PACallback_ env frameCount s = Done (r, s') ->
  exists p', output s' = Some p' /\ clock_step p p'.
Proof.
  intros Ho Hinv.
  pose proof Hinv as (count & rb & slots & fd & Hact & Hfd & Hth & Hfacts).
  unfold PACallback_. unfold bind at 1, get_pau. rewrite Ho.
  destruct (pa_stream p) as [[]|] eqn:Est;
    try (intros [= <- <-]; eauto using clock_step_refl).
  destruct (pa_callback p) eqn:Ecb.
  - destruct s as [ini c1 c2 o log]. cbn [output] in Ho. subst o.
    destruct p as [fmt rate ch st cb th sem ex fd0 rb0 slots0 t t0 pl mu pf].
    au_sim. intros [= <- <-]. eexists. split; [reflexivity|].
    destruct Hact as (Hsem & Hrb & Hdata & Hmu).
    cbn [sf_reader_semaphore sf_buffer sf_buffer_data playback_time_mutex
         sf_fd sf_reader_thread sample_rate playback_start_time playback_time
         playback_frames] in *.
    apply clock_step_same; try reflexivity.
    eapply clock_inv_intro; try eassumption.
  - unfold bind at 1.
    rewrite (PAPlayCallback_run env frameCount s p count rb slots Ho Hact).
    destruct Hact as (Hsem & Hrb & Hdata & Hmu).
    destruct s as [ini c1 c2 o log]. cbn [output] in Ho. subst o.
    destruct p as [fmt rate ch st cb th sem ex fd0 rb0 slots0 t t0 pl mu pf].
    cbn [sf_reader_semaphore sf_buffer sf_buffer_data playback_time_mutex
         sf_fd sf_reader_thread sample_rate playback_start_time playback_time
         playback_frames] in *.
    subst.
    assert (Hzero : Qeq_bool t0 time_unset = false -> t0 = time_zero).
    { destruct (ci_time _ _ _ _ _ _ _ Hfacts) as [->|[-> _]];
        [discriminate|reflexivity]. }
    unfold posted, marked_not_playing, synced. cbv zeta.
    set (n := bufferSizeBytes_ _).
    cbn [playback_start_time set_sf_reader_semaphore sample_rate].
    destruct (negb (frameCount =? PA_BUFFER_FRAMECOUNT)
              || (PaUtil_GetRingBufferReadAvailable rb <=? 0)) eqn:Enone.
    { destruct (pthread_mutex_lock_ok env); au_sim; intros [= <- <-];
        (eexists; split; [reflexivity|]);
        apply clock_step_same; try reflexivity;
        eapply clock_inv_intro; try reflexivity; try eassumption. }
    apply orb_false_iff in Enone. destruct Enone as [_ Eav].
    apply Z.leb_gt in Eav.
    destruct (Qeq_bool t0 time_unset) eqn:Efirst; cbn [andb].
    + (* the first block of the session *)
      destruct (pthread_mutex_lock_ok env) eqn:Elock; cbn [negb].
      2:{ au_sim. intros [= <- <-]. eexists; split; [reflexivity|].
          apply clock_step_same; try reflexivity.
          eapply clock_inv_intro; try reflexivity; try eassumption. }
      destruct ((n <? 0) || (sizeof_FRBuf_data <? n)); [discriminate|].
      pose proof (clock_facts_first _ _ _ _ _ _ _ Hfacts Eav) as Hfirst.
      destruct (state (slot_of rb slots (readIndex rb))); au_sim;
        intros [= <- <-]; (eexists; split; [reflexivity|]);
        (constructor; try reflexivity;
         [eapply clock_inv_intro; try reflexivity; try eassumption
         |intros Hx; cbn [playback_start_time] in Hx;
          rewrite Hx in Efirst; discriminate Efirst]).
    + (* a later block *)
      specialize (Hzero eq_refl). subst t0.
      destruct ((n <? 0) || (sizeof_FRBuf_data <? n)); [discriminate|].
      destruct (pthread_mutex_trylock_ok env).
      * destruct (clock_facts_consume _ _ _ _ _ _ _
                    (frames_to_time
                       (pos_frames (slot_of rb slots (readIndex rb))) rate)
                    Hfacts Eav (or_intror eq_refl) eq_refl) as [Hnew Hle].
        destruct (state (slot_of rb slots (readIndex rb)));
          destruct (pthread_mutex_lock_ok env); au_sim;
          intros [= <- <-]; (eexists; split; [reflexivity|]);
          (constructor; try reflexivity; auto;
           eapply clock_inv_intro; try reflexivity; try eassumption).
      * destruct (clock_facts_consume _ _ _ _ _ _ _ t
                    Hfacts Eav (or_introl eq_refl) eq_refl) as [Hnew Hle].
        destruct (state (slot_of rb slots (readIndex rb)));
          destruct (pthread_mutex_lock_ok env); au_sim;
          intros [= <- <-]; (eexists; split; [reflexivity|]);
          (constructor; try reflexivity; auto;
           eapply clock_inv_intro; try reflexivity; try eassumption).
Qed.

Lemma clock_step_trans p q r : clock_step p q -> clock_step q r -> clock_step p r.
Proof.
  intros [_ Hf1 Hc1 Hs1 Ht1] [Hi2 Hf2 Hc2 Hs2 Ht2].
  constructor; auto; try congruence.
  intros H. eapply Qle_trans; eauto.
Qed.

Lemma PACallback_total env frameCount s p :
  output s = Some p -> clock_inv p ->
  0 <= bufferSizeBytes_ (Some p) <= sizeof_FRBuf_data ->
  exists r s', PACallback_ env frameCount s = Done (r, s').
Proof.
  intros Ho (count & rb & slots & fd & Hact & Hfd & Hth & Hfacts) Hn.
  unfold PACallback_. unfold bind at 1, get_pau. rewrite Ho.
  destruct (pa_stream p) as [[]|] eqn:Est; try (eexists _, _; reflexivity).
  assert (Hplay : exists r s1 p1,
            match pa_callback p with
            | fn_PAEmptyCallback_ => ret (paComplete, None)
            | fn_PAPlayCallback_ => PAPlayCallback_ env frameCount
            end s = Done (r, s1) /\ output s1 = Some p1).
  { destruct (pa_callback p).
    - eexists _, s, p. split; [reflexivity|assumption].
    - rewrite (PAPlayCallback_run env frameCount s p count rb slots Ho Hact).
      cbv zeta.
      assert (Hnb : (bufferSizeBytes_ (Some p) <? 0)
                    || (sizeof_FRBuf_data <? bufferSizeBytes_ (Some p))
                    = false).
      { apply orb_false_iff. split; apply Z.ltb_ge; lia. }
      rewrite Hnb.
      repeat match goal with
             | |- context [if ?c then _ else _] => destruct c
             | |- context [match state ?b with _ => _ end] =>
                 destruct (state b)
             end; eexists _, _, _; split; reflexivity. }
  destruct Hplay as (r & s1 & p1 & E & Ho1).
  unfold bind at 1. rewrite E.
  destruct s1 as [ini c1 c2 o log]. cbn [output] in Ho1. subst o.
  destruct (fst r); au_sim; eexists _, _; reflexivity.
Qed.

Lemma exec_clock op s p u s' :
  playback_op op -> output s = Some p -> clock_inv p ->
  exec op s = Done (u, s') ->
  exists p', output s' = Some p' /\ clock_step p p'.
Proof.
  intros Hop Ho Hinv. destruct op; try contradiction; cbn [exec].
  - destruct (SFFileReader_step_clock s p Ho Hinv) as (s1 & p1 & E & Ho1 & Hs).
    rewrite E. intros [= <- <-]. eauto.
  - unfold bind.
    destruct (PACallback_ env frameCount s) as [[r s1]|] eqn:E;
      [|discriminate].
    intros [= <- <-]. eapply PACallback_clock; eauto.
Qed.

Lemma run_clock ops : forall s p s',
  Forall playback_op ops -> output s = Some p -> clock_inv p ->
  run ops s = Done (tt, s') ->
  exists p', output s' = Some p' /\ clock_step p p'.
Proof.
  induction ops as [|op ops IH]; intros s p s' Hops Ho Hinv.
  - intros [= <-]. eauto using clock_step_refl.
  - inversion Hops as [|? ? Hop Hrest]; subst.
    cbn [run]. unfold bind.
    destruct (exec op s) as [[u s1]|] eqn:E; [|discriminate].
    destruct (exec_clock op s p u s1 Hop Ho Hinv E) as (p1 & Ho1 & Hs1).
    intros Hrun.
    destruct (IH s1 p1 s' Hrest Ho1 (cs_inv _ _ Hs1) Hrun) as (p2 & Ho2 & Hs2).
    eauto using clock_step_trans.
Qed.

Lemma bufferSizeBytes_config p q :
  format q = format p -> channels q = channels p ->
  bufferSizeBytes_ (Some q) = bufferSizeBytes_ (Some p).
Proof. intros Hf Hc. unfold bufferSizeBytes_. now rewrite Hf, Hc. Qed.

Lemma run_total ops : forall s p,
  Forall playback_op ops -> output s = Some p -> clock_inv p ->
  0 <= bufferSizeBytes_ (Some p) <= sizeof_FRBuf_data ->
  exists s', run ops s = Done (tt, s').
Proof.
  induction ops as [|op ops IH]; intros s p Hops Ho Hinv Hn.
  - eexists. reflexivity.
  - inversion Hops as [|? ? Hop Hrest]; subst.
    assert (Hex : exists u s1, exec op s = Done (u, s1)).
    { destruct op; try contradiction; cbn [exec].
      - destruct (SFFileReader_step_clock s p Ho Hinv) as (s1 & p1 & E & _).
        eauto.
      - destruct (PACallback_total env frameCount s p Ho Hinv Hn)
          as (r & s1 & E).
        unfold bind. rewrite E. eexists _, _. reflexivity. }
    destruct Hex as (u & s1 & E).
    destruct (exec_clock op s p u s1 Hop Ho Hinv E) as (p1 & Ho1 & Hs1).
    destruct (IH s1 p1 Hrest Ho1 (cs_inv _ _ Hs1)) as (s' & E').
    { rewrite (bufferSizeBytes_config p p1); auto.
      - apply (cs_format _ _ Hs1).
      - apply (cs_channels _ _ Hs1). }
    exists s'. cbn [run]. unfold bind. rewrite E. exact E'.
Qed.

Lemma clock_inv_session_start p fd fresh :
  1 <= sample_rate p -> sf_channels fd = 2 -> frames_left fd <= LONG_MAX ->
  clock_inv (session_start p fd fresh).
Proof.
  intros Hr Hc Hl.
  apply (clock_inv_intro _ 1 (mkRing PA_RING_BUFFERCOUNT 0 0) fresh fd);
    try reflexivity; try discriminate.
  constructor; cbn; auto; try lia.
  unfold PA_RING_BUFFERCOUNT. lia.
Qed.

Lemma bufferSizeBytes_fits p :
  format_accepted (format p) = true ->
  1 <= channels p <= PA_MAX_CHANNELS ->
  0 <= bufferSizeBytes_ (Some p) <= sizeof_FRBuf_data.
Proof.
  intros Hf Hc. destruct (format_accepted_size _ Hf) as [w Hw].
  pose proof (format_size_range _ _ Hw) as Hrange.
  unfold PA_MAX_CHANNELS in Hc. destruct Hc as [Hc1 Hc2].
  assert (Hb : PA_BUFFER_FRAMECOUNT * channels p * w <= INT_MAX).
  { unfold PA_BUFFER_FRAMECOUNT, INT_MAX. nia. }
  rewrite (bufferSizeBytes_value p w Hw Hc1 Hb).
  unfold sizeof_FRBuf_data, PA_BUFFER_FRAMECOUNT, PA_MAX_CHANNELS,
    sizeof_float. nia.
Qed.

(** A query that cannot acquire the time mutex returns -3. *)
Lemma Au_GetTimeInPlayback_lock_failed env s p :
  output s = Some p ->
  playback_time_mutex p <> None ->
  pthread_mutex_lock_ok env = false ->
  Au_GetTimeInPlayback env Handle s = Done (time_lock_failed, s).
Proof.
  intros Ho Hmu Hl. destruct s as [ini c1 c2 o log]. cbn [output] in Ho.
  subst o.
  destruct p as [fmt rate ch st cb th sem ex fd rb slots t t0 pl mu pf].
  unfold Au_GetTimeInPlayback. au_sim. cbn in Hmu. rewrite Hl.
  destruct mu; [reflexivity|congruence].
Qed.

(** An invocation that finds a block queued, once the start time is set,
    takes the block at the read cursor and, if it gets the lock, records
    the block's frame position divided by the sample rate. *)
Lemma PACallback_records_front env s p count rb slots :
  output s = Some p -> session_active p count rb slots ->
  pa_stream p = Some PaActive -> pa_callback p = fn_PAPlayCallback_ ->
  0 <= bufferSizeBytes_ (Some p) <= sizeof_FRBuf_data ->
  0 < PaUtil_GetRingBufferReadAvailable rb ->
  playback_start_time p = time_zero ->
  pthread_mutex_trylock_ok env = true ->
  exists r s' p',
    PACallback_ env PA_BUFFER_FRAMECOUNT s = Done (r, s') /\
    output s' = Some p' /\
    sf_buffer p' = Some (PaUtil_AdvanceRingBufferReadIndex rb 1) /\
    playback_time_mutex p' = playback_time_mutex p /\
    playback_start_time p' = time_zero /\
    playback_time p'
    = frames_to_time (pos_frames (slot_of rb slots (readIndex rb)))
                     (sample_rate p).
Proof.
  intros Ho Hact Hst Hcb Hsz Hav Hstart Htry.
  unfold PACallback_. unfold bind at 1, get_pau. rewrite Ho, Hst, Hcb.
  unfold bind at 1.
  rewrite (PAPlayCallback_run env PA_BUFFER_FRAMECOUNT s p count rb slots
             Ho Hact).
  destruct Hact as (Hsem & Hrb & Hdata & Hmu).
  destruct s as [ini c1 c2 o log]. cbn [output] in Ho. subst o.
  destruct p as [fmt rate ch st cb th sem ex fd0 rb0 slots0 t t0 pl mu pf].
  cbn [sf_reader_semaphore sf_buffer sf_buffer_data pa_stream pa_callback
       playback_time_mutex playback_start_time sample_rate] in *.
  subst. destruct mu as [[]|]; [|congruence].
  unfold bufferSizeBytes_ in *. cbn [format channels] in *.
  set (n := match format_size fmt with
            | Some sz => wrap_int (wrap_int (PA_BUFFER_FRAMECOUNT * ch) * sz)
            | None => -1
            end) in *.
  assert (Hn : (n <? 0) || (sizeof_FRBuf_data <? n) = false).
  { apply orb_false_iff. split; apply Z.ltb_ge; lia. }
  assert (Hav' : (PaUtil_GetRingBufferReadAvailable rb <=? 0) = false)
    by (apply Z.leb_gt; lia).
  rewrite Z.eqb_refl, Hav', Hn. cbn [negb orb andb].
  change (Qeq_bool time_zero time_unset) with false. cbn [andb]. cbv zeta.
  unfold posted, marked_not_playing, synced.
  rewrite Htry. au_sim.
  change (Qeq_bool time_zero time_unset) with false. cbv iota.
  destruct (state (slot_of rb slots (readIndex rb)));
    destruct (pthread_mutex_lock_ok env); au_sim;
    (do 3 eexists; split; [reflexivity|]); repeat split.
Qed.

(** C9 (as amended).  In an uninterrupted playback session (reader steps
    and callback invocations in any order, after a successful [Au_Play]
    of a file whose frame count fits a [long]) the following holds at
    every point.  The sample rate is the one the output was created
    with.  The blocks queued in the ring carry frame positions that are
    not negative and do not decrease along the queue.
    [Au_GetTimeInPlayback] returns -3 when it cannot acquire the time
    mutex, and otherwise the difference of the current and the start
    time.  Once the callback has set the start time to 0: an invocation
    that finds a block queued and acquires the mutex takes the block at
    the read cursor and records its frame position divided by the sample
    rate, in doubles, which is what a query then returns; and of two
    queries that acquire the mutex, the later never returns less than
    the earlier, and neither returns less than 0.  The quotient recorded
    is within a relative error of 2^-53 of the exact one for positions of
    up to 53 bits.  On an output with one or two channels such a session
    never faults. *)
Theorem playback_time_monotonic env filename s s0 :
  reachable s ->
  (forall fd, sf_open env filename = Some fd -> frames_left fd <= LONG_MAX) ->
  Au_Play env Handle filename s = Done (TRUE, s0) ->
  exists p,
    output s = Some p /\
    (1 <= channels p <= PA_MAX_CHANNELS ->
     forall ops, Forall playback_op ops ->
     exists s1, run ops s0 = Done (tt, s1)) /\
    (forall a,
       0 <= a <= 2 ^ 53 -> sample_rate p <= 2 ^ 53 ->
       (Qabs (frames_to_time a (sample_rate p)
              - inject_Z a / inject_Z (sample_rate p))
        <= inject_Z a / inject_Z (sample_rate p) * (1 # 2 ^ 53))%Q) /\
    forall ops1 s1,
      Forall playback_op ops1 -> run ops1 s0 = Done (tt, s1) ->
      exists p1 rb slots,
        output s1 = Some p1 /\ sample_rate p1 = sample_rate p /\
        sf_buffer p1 = Some rb /\ sf_buffer_data p1 = Some slots /\
        (forall j j',
           readIndex rb <= j <= j' -> j' < writeIndex rb ->
           0 <= pos_frames (slot_of rb slots j)
           <= pos_frames (slot_of rb slots j')) /\
        (forall envq,
           pthread_mutex_lock_ok envq = false ->
           Au_GetTimeInPlayback envq Handle s1
           = Done (time_lock_failed, s1)) /\
        (forall envq,
           pthread_mutex_lock_ok envq = true ->
           Au_GetTimeInPlayback envq Handle s1
           = Done (Double.sub (playback_time p1) (playback_start_time p1),
                   s1)) /\
        (playback_start_time p1 = time_zero ->
         (forall envc envq,
            1 <= channels p <= PA_MAX_CHANNELS ->
            pa_stream p1 = Some PaActive -> readIndex rb < writeIndex rb ->
            pthread_mutex_trylock_ok envc = true ->
            pthread_mutex_lock_ok envq = true ->
            exists r s2 p2 t,
              PACallback_ envc PA_BUFFER_FRAMECOUNT s1 = Done (r, s2) /\
              output s2 = Some p2 /\
              sf_buffer p2 = Some (PaUtil_AdvanceRingBufferReadIndex rb 1) /\
              playback_time p2
              = frames_to_time (pos_frames (slot_of rb slots (readIndex rb)))
                               (sample_rate p) /\
              Au_GetTimeInPlayback envq Handle s2 = Done (t, s2) /\
              (t == frames_to_time
                      (pos_frames (slot_of rb slots (readIndex rb)))
                      (sample_rate p))%Q) /\
         (forall ops2 s2 env1 env2,
            Forall playback_op ops2 -> run ops2 s1 = Done (tt, s2) ->
            pthread_mutex_lock_ok env1 = true ->
            pthread_mutex_lock_ok env2 = true ->
            exists t1 t2,
              Au_GetTimeInPlayback env1 Handle s1 = Done (t1, s1) /\
              Au_GetTimeInPlayback env2 Handle s2 = Done (t2, s2) /\
              (0 <= t1)%Q /\ (t1 <= t2)%Q)).
Proof.
  intros Hreach Hlong Hplay.
  destruct (reachable_wf s Hreach) as [Hi Hwf].
  destruct (Au_Play_TRUE env filename s s0 Hplay)
    as (p & fd & fresh & _ & Ho & Hst & Hth & Hopen & Hr & Hc & Hm & Es0).
  assert (Ho0 : output s0 = Some (session_start p fd fresh))
    by (rewrite Es0; reflexivity).
  clear Es0. specialize (Hwf p Ho). specialize (Hlong fd Hopen).
  assert (Hinv : clock_inv (session_start p fd fresh)).
  { apply clock_inv_session_start; auto. apply (wf_rate _ Hwf). }
  assert (Hmu : forall q, clock_inv q -> playback_time_mutex q <> None).
  { intros q (? & ? & ? & ? & (_ & _ & _ & H) & _). exact H. }
  exists p. split; [exact Ho|]. split.
  { intros Hch ops Hops. eapply run_total; eauto.
    apply bufferSizeBytes_fits; [apply (wf_format _ Hwf)|exact Hch]. }
  split.
  { intros a Ha Hrate. apply frames_to_time_near; [exact Ha|].
    split; [apply (wf_rate _ Hwf)|exact Hrate]. }
  intros ops1 s1 Hops1 Hrun1.
  destruct (run_clock ops1 _ _ s1 Hops1 Ho0 Hinv Hrun1) as (p1 & Ho1 & Hs1).
  pose proof (cs_inv _ _ Hs1)
    as (count & rb & slots & fd1 & Hact & Hfd1 & Hth1 & Hfacts).
  pose proof Hact as (Hsem & Hrb & Hdata & Hmu1).
  exists p1, rb, slots. split; [exact Ho1|].
  split; [exact (cs_rate _ _ Hs1)|]. split; [exact Hrb|].
  split; [exact Hdata|]. split.
  { intros j j' Hj Hj'.
    pose proof (ci_pos _ _ _ _ _ _ _ Hfacts j ltac:(lia)).
    pose proof (ci_sorted _ _ _ _ _ _ _ Hfacts j j' Hj Hj'). lia. }
  split; [intros envq Hl;
          exact (Au_GetTimeInPlayback_lock_failed envq s1 p1 Ho1 Hmu1 Hl)|].
  split; [intros envq Hl;
          exact (Au_GetTimeInPlayback_locked envq s1 p1 Ho1 Hmu1 Hl)|].
  intros Hinit. split.
  - intros envc envq Hch Hactive Hqueued Htry Hlock.
    assert (Hsize : 0 <= bufferSizeBytes_ (Some p1) <= sizeof_FRBuf_data).
    { rewrite (bufferSizeBytes_config (session_start p fd fresh) p1);
        [|exact (cs_format _ _ Hs1)|exact (cs_channels _ _ Hs1)].
      rewrite (bufferSizeBytes_config p (session_start p fd fresh))
        by reflexivity.
      apply bufferSizeBytes_fits; [apply (wf_format _ Hwf)|exact Hch]. }
    destruct (PACallback_records_front envc s1 p1 count rb slots Ho1 Hact
                Hactive (cs_callback _ _ Hs1) Hsize
                ltac:(unfold PaUtil_GetRingBufferReadAvailable; lia)
                Hinit Htry)
      as (r & s2 & p2 & E & Ho2 & Hrb2 & Hmu2 & Hstart2 & Htime2).
    rewrite (cs_rate _ _ Hs1) in Htime2. cbn [sample_rate session_start] in Htime2.
    exists r, s2, p2. eexists. split; [exact E|]. split; [exact Ho2|].
    split; [exact Hrb2|]. split; [exact Htime2|]. split.
    + apply (Au_GetTimeInPlayback_locked envq s2 p2 Ho2); [|exact Hlock].
      rewrite Hmu2. exact Hmu1.
    + rewrite Hstart2, Htime2. apply Double_sub_zero, frames_to_time_double.
  - intros ops2 s2 env1 env2 Hops2 Hrun2 Hl1 Hl2.
    destruct (run_clock ops2 _ _ s2 Hops2 Ho1 (cs_inv _ _ Hs1) Hrun2)
      as (p2 & Ho2 & Hs2).
    pose proof (cs_start _ _ Hs2 Hinit) as Hinit2.
    pose proof (cs_time _ _ Hs2 Hinit) as Hle.
    assert (H0 : (0 <= playback_time p1)%Q).
    { destruct (ci_time _ _ _ _ _ _ _ Hfacts) as [Hu|(_ & H0 & _)];
        [|exact H0].
      rewrite Hinit in Hu. discriminate Hu. }
    eexists _, _.
    split; [exact (Au_GetTimeInPlayback_locked env1 s1 p1 Ho1 Hmu1 Hl1)|].
    split; [exact (Au_GetTimeInPlayback_locked env2 s2 p2 Ho2
                     (Hmu _ (cs_inv _ _ Hs2)) Hl2)|].
    rewrite Hinit, Hinit2. unfold Double.sub, time_zero. split.
    + apply round_nonneg. lra.
    + apply round_mono; lra.
Qed.

Lemma playback_time_monotonic_witness :
  exists t1 t2,
    Au_GetTimeInPlayback (env_ok None zero_blocks) Handle
      (after [OpReader; OpReader; OpReader;
              OpCallback (env_ok None zero_blocks) PA_BUFFER_FRAMECOUNT]
             (playing_output AUSF_F32 44100 2 (counting_file 44100 3)))
    = Done (t1,
            after [OpReader; OpReader; OpReader;
                   OpCallback (env_ok None zero_blocks) PA_BUFFER_FRAMECOUNT]
                  (playing_output AUSF_F32 44100 2 (counting_file 44100 3)))
    /\
    Au_GetTimeInPlayback (env_ok None zero_blocks) Handle
      (after [OpReader;
              OpCallback (env_ok None zero_blocks) PA_BUFFER_FRAMECOUNT]
         (after [OpReader; OpReader; OpReader;
                 OpCallback (env_ok None zero_blocks) PA_BUFFER_FRAMECOUNT]
                (playing_output AUSF_F32 44100 2 (counting_file 44100 3))))
    = Done (t2,
            after [OpReader;
                   OpCallback (env_ok None zero_blocks) PA_BUFFER_FRAMECOUNT]
              (after [OpReader; OpReader; OpReader;
                      OpCallback (env_ok None zero_blocks)
                                 PA_BUFFER_FRAMECOUNT]
                 (playing_output AUSF_F32 44100 2 (counting_file 44100 3))))
    /\ (0 <= t1)%Q /\ (t1 <= t2)%Q.
Proof.
  assert (Hlong : forall fd,
            sf_open (env_ok (Some (counting_file 44100 3)) zero_blocks) "a.wav"
            = Some fd -> frames_left fd <= LONG_MAX).
  { intros fd [= <-]. vm_compute. discriminate. }
  assert (Hplay : Au_Play (env_ok (Some (counting_file 44100 3)) zero_blocks)
                          Handle "a.wav" (fresh_output AUSF_F32 44100 2)
                  = Done (TRUE, playing_output AUSF_F32 44100 2
                                  (counting_file 44100 3))).
  { vm_compute. reflexivity. }
  destruct (playback_time_monotonic _ _ _ _ reachable_fresh_output Hlong Hplay)
    as (p & _ & _ & _ & H).
  destruct (H [OpReader; OpReader; OpReader;
               OpCallback (env_ok None zero_blocks) PA_BUFFER_FRAMECOUNT]
              (after [OpReader; OpReader; OpReader;
                      OpCallback (env_ok None zero_blocks)
                                 PA_BUFFER_FRAMECOUNT]
                 (playing_output AUSF_F32 44100 2 (counting_file 44100 3))))
    as (p1 & rb & slots & Ho1 & _ & _ & _ & _ & _ & _ & Hinit).
  - repeat constructor.
  - vm_compute. reflexivity.
  - destruct Hinit as [_ Hmono].
    + revert Ho1. vm_compute. intros [= <-]. reflexivity.
    + apply (Hmono [OpReader;
                    OpCallback (env_ok None zero_blocks) PA_BUFFER_FRAMECOUNT]).
      * repeat constructor.
      * vm_compute. reflexivity.
      * reflexivity.
      * reflexivity.
Defined.

(** C9 as stated fails: a query that cannot acquire the time mutex
    returns -3, whatever an earlier query returned.  Here the callback
    has taken the blocks at frames 0 and 256 and a query returns the time
    of frame 256; after one more block a query whose lock fails returns
    -3. *)
Lemma playback_time_drops_when_lock_fails :
  exists s1 s2 t1 t2,
    run [OpReader; OpReader; OpReader;
         OpCallback (env_ok None zero_blocks) PA_BUFFER_FRAMECOUNT;
         OpReader;
         OpCallback (env_ok None zero_blocks) PA_BUFFER_FRAMECOUNT]
        (playing_output AUSF_F32 44100 2 (counting_file 44100 3))
    = Done (tt, s1) /\
    run [OpReader; OpCallback (env_ok None zero_blocks) PA_BUFFER_FRAMECOUNT]
        s1 = Done (tt, s2) /\
    option_map playback_start_time (output s1) = Some time_zero /\
    Au_GetTimeInPlayback (env_ok None zero_blocks) Handle s1 = Done (t1, s1) /\
    Au_GetTimeInPlayback env_lock_fails Handle s2 = Done (t2, s2) /\
    (t1 == frames_to_time 256 44100)%Q /\ (t2 == - (3))%Q /\
    ~ (t1 <= t2)%Q.
Proof.
  eexists _, _, _, _.
  split; [vm_compute; reflexivity|].
  split; [vm_compute; reflexivity|].
  split; [vm_compute; reflexivity|].
  split; [vm_compute; reflexivity|].
  split; [vm_compute; reflexivity|].
  split; [vm_compute; reflexivity|].
  split; [vm_compute; reflexivity|].
  vm_compute. intros H. apply H. reflexivity.
Qed.

(** ** Playback of a file of full blocks *)

(** Brings a [session_at] hypothesis down to the fields of the state. *)
Ltac open_session H :=
  let Hi := fresh "Hi" in
  let p := fresh "p" in
  let Ho := fresh "Ho" in
  destruct H as [Hi (p & Ho &
    [Hw Hsz Hfit Hst Hcb Hth Hsem Hex (rate0 & Hfd) Hrb Hmu Hpf Hcur
        (slots & Hdata & Hblk)])];
  match goal with
  | s : State |- _ =>
      destruct s as [ini c1 c2 o log]; cbn [output AuInitialized_] in Ho, Hi;
      subst o ini
  end;
  destruct p as [fmt rate ch st cb th sem ex fd0 rb0 slots0 t t0 pl mu pf];
  cbn [format pa_stream pa_callback sf_reader_thread sf_reader_semaphore
       sf_reader_should_exit sf_fd sf_buffer sf_buffer_data
       playback_time_mutex playback_frames] in *;
  unfold bufferSizeBytes_ in Hsz; cbn [format channels] in Hsz;
  subst.

(** Rebuilds [session_at] for an explicit state. *)
Ltac close_session :=
  split; [reflexivity|]; eexists; split; [reflexivity|];
  constructor;
  cbn [format pa_stream pa_callback sf_reader_thread sf_reader_semaphore
       sf_reader_should_exit sf_fd sf_buffer sf_buffer_data
       playback_time_mutex playback_frames];
  try reflexivity; try assumption;
  try (unfold bufferSizeBytes_; cbn [format channels]; assumption); eauto.

Lemma SFFileReader_step_start width size samples K i w c s :
  session_at width size samples K i w RStart c s ->
  exists s', SFFileReader_step s = Done (tt, s') /\
             session_at width size samples K i w RWait c s'.
Proof.
  intros H. open_session H.
  unfold SFFileReader_step. au_sim.
  pose proof Hw as Hfmt. unfold decode_width in Hfmt.
  destruct (Au_SampleFormat_of_int fmt) as [[]|]; try discriminate;
    (eexists; split; [reflexivity|]; close_session).
Qed.

Lemma SFFileReader_step_idle width size samples K i w s :
  session_at width size samples K i w RWait 0 s ->
  SFFileReader_step s = Done (tt, s).
Proof.
  intros H. open_session H.
  unfold SFFileReader_step. au_sim. reflexivity.
Qed.

Lemma SFFileReader_step_wake width size samples K i w c s :
  session_at width size samples K i w RWait c s -> 0 < c ->
  exists s', SFFileReader_step s = Done (tt, s') /\
             session_at width size samples K i w
               (RFill (PA_RING_BUFFERCOUNT - (Z.of_nat w - Z.of_nat i)))
               (c - 1) s'.
Proof.
  intros H Hc. open_session H.
  unfold SFFileReader_step. au_sim.
  destruct (c <=? 0) eqn:E; [apply Z.leb_le in E; lia|]. au_sim.
  eexists; split; [reflexivity|]. close_session.
Qed.

Lemma SFFileReader_step_filled width size samples K i w n c s :
  session_at width size samples K i w (RFill n) c s -> n <= 0 ->
  exists s', SFFileReader_step s = Done (tt, s') /\
             session_at width size samples K i w RWait c s'.
Proof.
  intros H Hn. open_session H.
  unfold SFFileReader_step. au_sim.
  destruct (0 <? n) eqn:E; [apply Z.ltb_lt in E; lia|]. au_sim.
  eexists; split; [reflexivity|]. close_session.
Qed.

Lemma load_store_bytes bytes old :
  load_bytes (store_bytes bytes old) (length bytes) = bytes.
Proof.
  unfold load_bytes, store_bytes. revert old.
  induction bytes as [|a l IH]; intros old; [reflexivity|].
  cbn [length seq map nth]. f_equal.
  rewrite <- seq_shift, map_map. cbn [nth]. apply (IH (fun off => old (S off))).
Qed.

Lemma length_block_bytes width samples K j :
  length samples = (block_samples * K)%nat -> (j < K)%nat ->
  length (block_bytes width samples j) = (width * block_samples)%nat.
Proof.
  intros Hlen Hj. unfold block_bytes.
  rewrite length_flat_map_sample_bytes, length_firstn, length_skipn, Hlen.
  f_equal. unfold block_samples in *. lia.
Qed.

Lemma sf_readf_block width samples K w rate :
  length samples = (block_samples * K)%nat ->
  sf_readf width
    (mkSNDFILE rate 2 (skipn (block_samples * Nat.min w K) samples))
    PA_BUFFER_FRAMECOUNT
  = (if (w <? K)%nat then PA_BUFFER_FRAMECOUNT else 0,
     if (w <? K)%nat then block_bytes width samples w else [],
     mkSNDFILE rate 2 (skipn (block_samples * Nat.min (S w) K) samples)).
Proof.
  intros Hlen. unfold sf_readf, frames_left.
  cbn [sf_channels sf_samples sf_samplerate]. change (2 <=? 0) with false.
  cbv iota. rewrite length_skipn, Hlen.
  destruct (Nat.ltb_spec w K) as [Hlt|Hge].
  - rewrite (Nat.min_l w K), (Nat.min_l (S w) K) by lia.
    assert (E : Z.min PA_BUFFER_FRAMECOUNT
                  (Z.of_nat (block_samples * K - block_samples * w) / 2)
                = PA_BUFFER_FRAMECOUNT).
    { apply Z.min_l. apply Z.div_le_lower_bound; [lia|].
      unfold PA_BUFFER_FRAMECOUNT, block_samples. lia. }
    rewrite E.
    change (Z.to_nat (PA_BUFFER_FRAMECOUNT * 2)) with block_samples.
    rewrite skipn_skipn. unfold block_bytes.
    replace (block_samples + block_samples * w)%nat
      with (block_samples * S w)%nat by lia.
    reflexivity.
  - rewrite (Nat.min_r w K), (Nat.min_r (S w) K) by lia.
    rewrite Nat.sub_diag. change (Z.of_nat 0 / 2) with 0.
    change (Z.min PA_BUFFER_FRAMECOUNT 0) with 0.
    change (Z.to_nat (0 * 2)) with 0%nat.
    cbn [firstn flat_map skipn]. reflexivity.
Qed.

Lemma read_block_run width code index s p slots rate samples K w :
  length samples = (block_samples * K)%nat -> (width <= 4)%nat ->
  output s = Some p -> sf_buffer_data p = Some slots ->
  sf_fd p = Some (mkSNDFILE rate 2
                    (skipn (block_samples * Nat.min w K) samples)) ->
  read_block width code index s =
  Done (Some (if (w <? K)%nat then PA_BUFFER_FRAMECOUNT else 0),
        mkState (AuInitialized_ s) (AU_SFFR_Count s) (AU_PAPC_Count s)
          (Some (set_sf_fd
                   (Some (mkSNDFILE rate 2
                            (skipn (block_samples * Nat.min (S w) K) samples)))
                   (set_sf_buffer_data
                      (Some (decode_into slots index
                               (if (w <? K)%nat
                                then block_bytes width samples w else [])))
                      p)))
          (calls s)).
Proof.
  intros Hlen Hwidth Ho Hdata Hfd.
  destruct s as [ini c1 c2 o log]. cbn [output] in Ho. subst o.
  destruct p as [fmt rate' ch st cb th sem ex fd0 rb0 slots0 t t0 pl mu pf].
  cbn [sf_buffer_data sf_fd] in Hdata, Hfd. subst.
  unfold read_block, sf_readf_handle. au_sim.
  rewrite (sf_readf_block _ _ _ _ _ Hlen). cbv iota beta.
  destruct (Nat.ltb_spec w K) as [Hlt|Hge].
  - rewrite (length_block_bytes _ _ _ _ Hlen Hlt).
    assert (E : (sizeof_FRBuf_data <? Z.of_nat (width * block_samples))
                = false).
    { apply Z.ltb_ge. unfold sizeof_FRBuf_data, PA_BUFFER_FRAMECOUNT,
        PA_MAX_CHANNELS, sizeof_float, block_samples. lia. }
    rewrite E. au_sim. reflexivity.
  - reflexivity.
Qed.

Lemma block_ok_new width samples K w old :
  length samples = (block_samples * K)%nat ->
  block_ok width samples K w
    (mkFRBuf (if (if (w <? K)%nat then PA_BUFFER_FRAMECOUNT else 0) =? 0
              then PPPS_Stopped else PPPS_Playing)
       (PA_BUFFER_FRAMECOUNT * Z.of_nat (Nat.min w K))
       (store_bytes (if (w <? K)%nat then block_bytes width samples w else [])
                    old)).
Proof.
  intros Hlen. unfold block_ok.
  destruct (Nat.ltb_spec w K) as [Hlt|Hge]; cbn [state pos_frames data].
  - rewrite Nat.min_l by lia. repeat split. apply load_store_bytes.
  - rewrite Nat.min_r by lia. split; reflexivity.
Qed.

Lemma blocks_after_publish width samples K i w slots :
  length samples = (block_samples * K)%nat ->
  (i <= w < i + 32)%nat ->
  (forall j, (i <= j < w)%nat ->
     block_ok width samples K j (slots (Z.of_nat j mod PA_RING_BUFFERCOUNT))) ->
  forall j, (i <= j < S w)%nat ->
    block_ok width samples K j
      (publish
         (decode_into slots (Z.of_nat w mod PA_RING_BUFFERCOUNT)
            (if (w <? K)%nat then block_bytes width samples w else []))
         (Z.of_nat w mod PA_RING_BUFFERCOUNT)
         (if (if (w <? K)%nat then PA_BUFFER_FRAMECOUNT else 0) =? 0
          then PPPS_Stopped else PPPS_Playing)
         (PA_BUFFER_FRAMECOUNT * Z.of_nat (Nat.min w K))
         (Z.of_nat j mod PA_RING_BUFFERCOUNT)).
Proof.
  intros Hlen Hcur Hblk j Hj. unfold publish, decode_into, array_set.
  rewrite Z.eqb_refl. cbn [data].
  destruct (Z.eqb_spec (Z.of_nat j mod PA_RING_BUFFERCOUNT)
                       (Z.of_nat w mod PA_RING_BUFFERCOUNT)) as [E|Hne].
  - assert (j = w).
    { destruct (Nat.eq_dec j w) as [|Hne]; [assumption|].
      exfalso. revert E. apply slot_index_distinct.
      unfold PA_RING_BUFFERCOUNT. lia. }
    subst j. now apply block_ok_new.
  - apply Hblk.
    destruct (Nat.eq_dec j w) as [->|Hjw]; [now elim Hne|lia].
Qed.

Lemma SFFileReader_step_fill width size samples K i w n c s :
  length samples = (block_samples * K)%nat ->
  PA_BUFFER_FRAMECOUNT * Z.of_nat K <= LONG_MAX ->
  session_at width size samples K i w (RFill n) c s -> 0 < n ->
  (w < i + 32)%nat ->
  exists s', SFFileReader_step s = Done (tt, s') /\
             session_at width size samples K i (S w) (RFill (n - 1)) c s'.
Proof.
  intros Hlen Hlong H Hn Hfree. open_session H.
  unfold SFFileReader_step. au_sim.
  destruct (0 <? n) eqn:E; [clear E|apply Z.ltb_ge in E; lia].
  unfold SFFileReader_iteration. au_sim.
  unfold PaUtil_GetRingBufferWriteRegions, PaUtil_GetRingBufferWriteAvailable,
    PaUtil_GetRingBufferReadAvailable, PaUtil_AdvanceRingBufferWriteIndex.
  cbn [bufferSize writeIndex readIndex].
  destruct (Z.min 1 (PA_RING_BUFFERCOUNT - (Z.of_nat w - Z.of_nat i)) <=? 0)
    eqn:E; [apply Z.leb_le in E; unfold PA_RING_BUFFERCOUNT in E; lia|clear E].
  au_sim.
  assert (Hwidth : (width <= 4)%nat).
  { unfold decode_width in Hw.
    destruct (Au_SampleFormat_of_int fmt) as [[]|]; try discriminate;
      injection Hw as <-; lia. }
  assert (Hpos : wrap_long (PA_BUFFER_FRAMECOUNT * Z.of_nat (Nat.min w K)
                            + (if (w <? K)%nat then PA_BUFFER_FRAMECOUNT
                               else 0))
                 = PA_BUFFER_FRAMECOUNT * Z.of_nat (Nat.min (S w) K)).
  { unfold PA_BUFFER_FRAMECOUNT in *.
    destruct (Nat.ltb_spec w K) as [Hlt|Hge].
    - rewrite (Nat.min_l w K), (Nat.min_l (S w) K) by lia.
      rewrite wrap_long_small by lia. lia.
    - rewrite (Nat.min_r w K), (Nat.min_r (S w) K) by lia.
      rewrite wrap_long_small by lia. lia. }
  assert (Hnext : Z.of_nat w + 1 = Z.of_nat (S w)) by lia.
  assert (Hroom : (i <= w < i + 32)%nat) by lia.
  pose proof (blocks_after_publish _ _ _ _ _ _ Hlen Hroom Hblk) as Hnew.
  pose proof Hw as Hfmt. unfold decode_width in Hfmt.
  destruct (Au_SampleFormat_of_int fmt) as [[]|]; try discriminate;
    injection Hfmt as Hfmt; subst width;
    (erewrite (read_block_run _ _ _ _ _ _ _ _ _ w Hlen Hwidth);
     [|reflexivity|reflexivity|reflexivity]);
    au_sim; rewrite Hpos, Hnext;
    (eexists; split; [reflexivity|]);
    close_session; lia.
Qed.

Lemma SFFileReader_run_S width size samples K i w pc c s fuel :
  session_at width size samples K i w pc c s ->
  pc <> RDone -> pc <> RNotCreated ->
  SFFileReader_run (S fuel) s =
  match SFFileReader_step s with
  | Done (_, s') => SFFileReader_run fuel s'
  | Crash f => Crash f
  end.
Proof.
  intros H Hd Hn. open_session H. cbn [SFFileReader_run]. au_sim.
  destruct pc; try reflexivity; congruence.
Qed.

Lemma SFFileReader_run_idle width size samples K i w s fuel :
  session_at width size samples K i w RWait 0 s ->
  SFFileReader_run fuel s = Done (tt, s).
Proof.
  intros H. induction fuel as [|fuel IH]; [reflexivity|].
  rewrite (SFFileReader_run_S _ _ _ _ _ _ _ _ _ _ H) by discriminate.
  rewrite (SFFileReader_step_idle _ _ _ _ _ _ _ H). exact IH.
Qed.

Lemma SFFileReader_run_fill width size samples K i :
  length samples = (block_samples * K)%nat ->
  PA_BUFFER_FRAMECOUNT * Z.of_nat K <= LONG_MAX ->
  forall n w s fuel,
    session_at width size samples K i w (RFill (Z.of_nat n)) 0 s ->
    (w + n <= i + 32)%nat -> (n < fuel)%nat ->
    exists s', SFFileReader_run fuel s = Done (tt, s') /\
               session_at width size samples K i (w + n) RWait 0 s'.
Proof.
  intros Hlen Hlong.
  induction n as [|n IH]; intros w s fuel H Hroom Hfuel;
    (destruct fuel as [|fuel]; [lia|]);
    rewrite (SFFileReader_run_S _ _ _ _ _ _ _ _ _ _ H) by discriminate.
  - destruct (SFFileReader_step_filled _ _ _ _ _ _ _ _ _ H) as (s' & -> & H');
      [reflexivity|].
    rewrite (SFFileReader_run_idle _ _ _ _ _ _ _ _ H').
    rewrite Nat.add_0_r. eauto.
  - destruct (SFFileReader_step_fill _ _ _ _ _ _ _ _ _ Hlen Hlong H)
      as (s' & -> & H'); [lia|lia|].
    replace (Z.of_nat (S n) - 1) with (Z.of_nat n) in H' by lia.
    destruct (IH (S w) s' fuel H') as (s2 & E & H2); [lia|lia|].
    replace (w + S n)%nat with (S w + n)%nat by lia. eauto.
Qed.

Lemma reader_turn_first width size samples K s :
  length samples = (block_samples * K)%nat ->
  PA_BUFFER_FRAMECOUNT * Z.of_nat K <= LONG_MAX ->
  session_at width size samples K 0 0 RStart 1 s ->
  exists s', reader_turn s = Done (tt, s') /\
             session_at width size samples K 0 32 RWait 0 s'.
Proof.
  intros Hlen Hlong H. unfold reader_turn.
  rewrite (SFFileReader_run_S _ _ _ _ _ _ _ _ _ _ H) by discriminate.
  destruct (SFFileReader_step_start _ _ _ _ _ _ _ _ H) as (s1 & -> & H1).
  rewrite (SFFileReader_run_S _ _ _ _ _ _ _ _ _ _ H1) by discriminate.
  destruct (SFFileReader_step_wake _ _ _ _ _ _ _ _ H1) as (s2 & -> & H2);
    [lia|].
  apply (SFFileReader_run_fill _ _ _ _ _ Hlen Hlong 32 0 s2); [exact H2|lia|lia].
Qed.

Lemma reader_turn_next width size samples K i s :
  length samples = (block_samples * K)%nat ->
  PA_BUFFER_FRAMECOUNT * Z.of_nat K <= LONG_MAX ->
  session_at width size samples K i (i + 31) RWait 1 s ->
  exists s', reader_turn s = Done (tt, s') /\
             session_at width size samples K i (i + 32) RWait 0 s'.
Proof.
  intros Hlen Hlong H. unfold reader_turn.
  rewrite (SFFileReader_run_S _ _ _ _ _ _ _ _ _ _ H) by discriminate.
  destruct (SFFileReader_step_wake _ _ _ _ _ _ _ _ H) as (s2 & -> & H2);
    [lia|].
  replace (PA_RING_BUFFERCOUNT - (Z.of_nat (i + 31) - Z.of_nat i))
    with (Z.of_nat 1) in H2 by (unfold PA_RING_BUFFERCOUNT; lia).
  change (1 - 1) with 0 in H2.
  replace (i + 32)%nat with (i + 31 + 1)%nat by lia.
  apply (SFFileReader_run_fill _ _ _ _ _ Hlen Hlong 1 (i + 31) s2);
    [exact H2|lia|lia].
Qed.

Lemma reader_turn_round width size samples K i s :
  length samples = (block_samples * K)%nat ->
  PA_BUFFER_FRAMECOUNT * Z.of_nat K <= LONG_MAX ->
  round_start width size samples K i s ->
  exists s', reader_turn s = Done (tt, s') /\
             session_at width size samples K i (i + 32) RWait 0 s'.
Proof.
  intros Hlen Hlong H. destruct i as [|i].
  - now apply reader_turn_first.
  - now apply reader_turn_next.
Qed.

Lemma PACallback_takes width size samples K i w s env :
  session_at width size samples K i w RWait 0 s -> (i < w)%nat ->
  pthread_mutex_lock_ok env = true ->
  exists b s',
    front_block s = Done (Some b, s) /\
    block_ok width samples K i b /\
    PACallback_ env PA_BUFFER_FRAMECOUNT s
    = Done (Some (match state b with
                  | PPPS_Playing => paContinue
                  | PPPS_Stopped => paComplete
                  end,
                  Some (load_bytes (data b) (Z.to_nat size))), s') /\
    match state b with
    | PPPS_Playing => session_at width size samples K (S i) w RWait 1 s'
    | PPPS_Stopped =>
        forall env2 frameCount, PACallback_ env2 frameCount s' = Done (None, s')
    end.
Proof.
  intros H Hiw Hlock. open_session H.
  exists (slots (Z.of_nat i mod PA_RING_BUFFERCOUNT)).
  pose proof (Hblk i ltac:(lia)) as Hb.
  assert (Hav : (Z.of_nat w - Z.of_nat i <=? 0) = false)
    by (apply Z.leb_gt; lia).
  assert (Hav' : (0 <? Z.of_nat w - Z.of_nat i) = true)
    by (apply Z.ltb_lt; lia).
  unfold front_block, PACallback_. au_sim.
  unfold PaUtil_GetRingBufferReadAvailable, slot_of.
  cbn [writeIndex readIndex bufferSize]. rewrite Hav'.
  match goal with
  | |- context [PAPlayCallback_ env PA_BUFFER_FRAMECOUNT
                  (mkState ?a ?b ?c (Some ?p) ?l)] =>
      rewrite (PAPlayCallback_run env PA_BUFFER_FRAMECOUNT
                 (mkState a b c (Some p) l) p 0
                 (mkRing PA_RING_BUFFERCOUNT (Z.of_nat w) (Z.of_nat i)) slots
                 eq_refl (conj eq_refl (conj eq_refl (conj eq_refl Hmu))))
  end.
  unfold PaUtil_GetRingBufferReadAvailable, slot_of.
  cbn [writeIndex readIndex bufferSize playback_start_time
       set_sf_reader_semaphore].
  rewrite Hav, Hlock, Z.eqb_refl. cbn [negb orb andb].
  rewrite andb_false_r.
  unfold bufferSizeBytes_. cbn [format channels set_sf_reader_semaphore].
  set (n := match format_size fmt with
            | Some sz => wrap_int (wrap_int (PA_BUFFER_FRAMECOUNT * ch) * sz)
            | None => -1
            end) in *.
  assert (Hn : (n <? 0) || (sizeof_FRBuf_data <? n) = false).
  { apply orb_false_iff. split; apply Z.ltb_ge; lia. }
  rewrite Hn. cbv zeta. unfold posted, marked_not_playing, synced.
  rewrite Hlock. cbn [playback_start_time].
  set (b := slots (Z.of_nat i mod PA_RING_BUFFERCOUNT)) in *.
  assert (Hnext : Z.of_nat i + 1 = Z.of_nat (S i)) by lia.
  unfold PaUtil_AdvanceRingBufferReadIndex.
  cbn [writeIndex readIndex bufferSize]. rewrite Hnext. au_sim.
  destruct (state b) eqn:Est;
    destruct (Qeq_bool t0 time_unset);
    destruct (pthread_mutex_trylock_ok env); au_sim;
    (eexists; split; [reflexivity|]; split; [exact Hb|];
     split; [reflexivity|]).
  all: try (intros env2 frameCount; reflexivity).
  all: close_session; try lia.
  all: exists slots; split; [reflexivity|]; intros j Hj; apply Hblk; lia.
Qed.

Lemma playback_round_takes width size samples K i s env :
  length samples = (block_samples * K)%nat ->
  PA_BUFFER_FRAMECOUNT * Z.of_nat K <= LONG_MAX ->
  round_start width size samples K i s ->
  pthread_mutex_lock_ok env = true ->
  exists b s',
    playback_round env s
    = Done ((Some b,
             Some (match state b with
                   | PPPS_Playing => paContinue
                   | PPPS_Stopped => paComplete
                   end,
                   Some (load_bytes (data b) (Z.to_nat size)))), s') /\
    block_ok width samples K i b /\
    match state b with
    | PPPS_Playing => round_start width size samples K (S i) s'
    | PPPS_Stopped =>
        forall env2 frameCount, PACallback_ env2 frameCount s' = Done (None, s')
    end.
Proof.
  intros Hlen Hlong H Hlock.
  destruct (reader_turn_round _ _ _ _ _ _ Hlen Hlong H) as (s1 & E1 & H1).
  destruct (PACallback_takes _ _ _ _ _ _ _ env H1 ltac:(lia) Hlock)
    as (b & s' & Ef & Hb & Ec & Hnext).
  exists b, s'. split; [|split; [exact Hb|]].
  - unfold playback_round, bind. rewrite E1, Ef, Ec. reflexivity.
  - revert Hnext. destruct (state b); intros Hnext; [|exact Hnext].
    cbn [round_start]. replace (S i + 31)%nat with (i + 32)%nat by lia.
    exact Hnext.
Qed.

Lemma playback_S env n s :
  playback env (S n) s =
  match playback_round env s with
  | Done (o, s1) =>
      match playback env n s1 with
      | Done (os, s2) => Done (o :: os, s2)
      | Crash f => Crash f
      end
  | Crash f => Crash f
  end.
Proof.
  cbn [playback]. unfold bind, ret.
  destruct (playback_round env s) as [[o s1]|f]; [|reflexivity].
  destruct (playback env n s1) as [[os s2]|f]; reflexivity.
Qed.

Lemma playback_blocks width size samples K env :
  length samples = (block_samples * K)%nat ->
  PA_BUFFER_FRAMECOUNT * Z.of_nat K <= LONG_MAX ->
  pthread_mutex_lock_ok env = true ->
  forall m i s,
    (i + m = K)%nat -> round_start width size samples K i s ->
    exists obs s',
      playback env (S m) s = Done (obs, s') /\
      length obs = S m /\
      (forall k, (k < m)%nat ->
         took_block (nth k obs (None, None)) PPPS_Playing
           (PA_BUFFER_FRAMECOUNT * Z.of_nat (i + k))
           (block_bytes width samples (i + k)) paContinue size) /\
      took_block (nth m obs (None, None)) PPPS_Stopped
        (PA_BUFFER_FRAMECOUNT * Z.of_nat K) [] paComplete size /\
      forall env2 frameCount, PACallback_ env2 frameCount s' = Done (None, s').
Proof.
  intros Hlen Hlong Hlock.
  induction m as [|m IH]; intros i s Him H;
    destruct (playback_round_takes _ _ _ _ _ _ env Hlen Hlong H Hlock)
      as (b & s1 & Er & Hb & Hnext);
    unfold block_ok in Hb.
  - destruct (Nat.ltb_spec i K) as [Hlt|_]; [lia|].
    destruct Hb as [Hst Hpos]. rewrite Hst in Er, Hnext.
    exists [(Some b, Some (paComplete,
                           Some (load_bytes (data b) (Z.to_nat size))))], s1.
    split; [|split; [reflexivity|split; [intros k Hk; lia|split]]].
    + rewrite playback_S, Er. reflexivity.
    + exists b. cbn [nth]. repeat split; assumption.
    + exact Hnext.
  - destruct (Nat.ltb_spec i K) as [Hlt|Hge]; [|lia].
    destruct Hb as (Hst & Hpos & Hbytes). rewrite Hst in Er, Hnext.
    destruct (IH (S i) s1 ltac:(lia) Hnext)
      as (obs & s' & Ep & Hlen' & Hplay & Hstop & Hend).
    exists ((Some b, Some (paContinue,
                           Some (load_bytes (data b) (Z.to_nat size))))
            :: obs), s'.
    split; [|split; [cbn [length]; now rewrite Hlen'|split; [|split]]].
    + rewrite playback_S, Er, Ep. reflexivity.
    + intros [|k] Hk.
      * exists b. cbn [nth]. rewrite Nat.add_0_r. repeat split; assumption.
      * cbn [nth]. replace (i + S k)%nat with (S i + k)%nat by lia.
        apply Hplay. lia.
    + cbn [nth]. exact Hstop.
    + exact Hend.
Qed.

Lemma decode_width_size fmt width :
  decode_width fmt = Some width ->
  format_accepted fmt = true /\ format_size fmt = Some (Z.of_nat width).
Proof.
  unfold decode_width, format_accepted, format_size.
  destruct (Au_SampleFormat_of_int fmt) as [[]|]; try discriminate;
    intros [= <-]; split; reflexivity.
Qed.

Lemma round_start_session_start p fd fresh width K c1 c2 log :
  decode_width (format p) = Some width ->
  1 <= channels p <= PA_MAX_CHANNELS ->
  sf_channels fd = 2 ->
  round_start width (bufferSizeBytes_ (Some p)) (sf_samples fd) K 0
    (mkState TRUE c1 c2 (Some (session_start p fd fresh)) log).
Proof.
  intros Hw Hch Hc. cbn [round_start].
  split; [reflexivity|]. eexists. split; [reflexivity|].
  destruct (decode_width_size _ _ Hw) as [Hacc _].
  constructor; try reflexivity; try assumption.
  - now apply bufferSizeBytes_fits.
  - exists (sf_samplerate fd). cbn [session_start sf_fd].
    destruct fd as [r c l]. cbn [sf_channels] in Hc. subst c. reflexivity.
  - discriminate.
  - lia.
  - exists fresh. split; [reflexivity|]. intros j Hj. lia.
Qed.

(** C2 (as amended).  On an output whose format has a decode call, with
    one or two channels, a two-channel file of exactly [K] full blocks,
    played under the schedule in which the reader fills the ring buffer
    before every callback invocation and the callback acquires the time
    lock, yields [K] invocations that each take a Playing block, at frame
    positions 0, 256, ... in file order and carrying the bytes of that
    block of the file, and return continue; then one invocation that
    takes a Stopped block and returns complete; after which the stream is
    finished and the callback is no longer invoked.  On a two-channel
    output the bytes copied out are exactly the block's bytes. *)
Theorem playback_of_full_blocks env env' filename s s0 p fd width K :
  output s = Some p ->
  decode_width (format p) = Some width ->
  1 <= channels p <= PA_MAX_CHANNELS ->
  sf_open env filename = Some fd ->
  length (sf_samples fd) = (block_samples * K)%nat ->
  PA_BUFFER_FRAMECOUNT * Z.of_nat K <= LONG_MAX ->
  Au_Play env Handle filename s = Done (TRUE, s0) ->
  pthread_mutex_lock_ok env' = true ->
  exists obs s',
    playback env' (S K) s0 = Done (obs, s') /\
    length obs = S K /\
    (forall i, (i < K)%nat ->
       took_block (nth i obs (None, None)) PPPS_Playing
         (PA_BUFFER_FRAMECOUNT * Z.of_nat i)
         (block_bytes width (sf_samples fd) i) paContinue
         (bufferSizeBytes_ (Some p))) /\
    took_block (nth K obs (None, None)) PPPS_Stopped
      (PA_BUFFER_FRAMECOUNT * Z.of_nat K) [] paComplete
      (bufferSizeBytes_ (Some p)) /\
    (forall env2 frameCount,
       PACallback_ env2 frameCount s' = Done (None, s')) /\
    (channels p = 2 -> forall i, (i < K)%nat ->
       Z.to_nat (bufferSizeBytes_ (Some p))
       = length (block_bytes width (sf_samples fd) i)).
Proof.
  intros Ho Hw Hch Hopen Hlen Hlong Hplay Hlock.
  destruct (Au_Play_TRUE env filename s s0 Hplay)
    as (p' & fd' & fresh & _ & Ho' & _ & _ & Hopen' & _ & Hc & _ & Es0).
  rewrite Ho in Ho'. injection Ho' as <-.
  rewrite Hopen in Hopen'. injection Hopen' as <-. subst s0.
  destruct (playback_blocks width (bufferSizeBytes_ (Some p)) (sf_samples fd)
              K env' Hlen Hlong Hlock K 0%nat _ eq_refl
              (round_start_session_start p fd fresh width K
                 (AU_SFFR_Count s) (AU_PAPC_Count s)
                 (calls s ++ Au_Play_calls) Hw Hch Hc))
    as (obs & s' & Ep & Hobs & Hplaying & Hstopped & Hend).
  exists obs, s'. repeat apply conj; try assumption.
  intros Hch2 i Hi.
  rewrite (length_block_bytes _ _ _ _ Hlen Hi).
  destruct (decode_width_size _ _ Hw) as [_ Hsz].
  rewrite (bufferSizeBytes_value p (Z.of_nat width) Hsz).
  - rewrite Hch2. unfold PA_BUFFER_FRAMECOUNT, block_samples. lia.
  - lia.
  - apply format_size_range in Hsz. rewrite Hch2.
    unfold PA_BUFFER_FRAMECOUNT, INT_MAX. lia.
Qed.

Lemma playback_of_full_blocks_witness :
  exists obs s',
    playback (env_ok None zero_blocks) 3
      (playing_output AUSF_I16 44100 2 (counting_file 44100 2))
    = Done (obs, s') /\
    length obs = 3%nat /\
    took_block (nth 1 obs (None, None)) PPPS_Playing 256
      (block_bytes 2 (sf_samples (counting_file 44100 2)) 1) paContinue 1024 /\
    took_block (nth 2 obs (None, None)) PPPS_Stopped 512 [] paComplete 1024.
Proof.
  destruct (playback_of_full_blocks
              (env_ok (Some (counting_file 44100 2)) zero_blocks)
              (env_ok None zero_blocks) "a.wav"
              (fresh_output AUSF_I16 44100 2)
              (playing_output AUSF_I16 44100 2 (counting_file 44100 2))
              (set_pa_stream (Some PaStopped)
                 (zeroed_output (int_of_Au_SampleFormat AUSF_I16) 44100 2))
              (counting_file 44100 2) 2 2)
    as (obs & s' & E & Hl & Hp & Hs & _).
  - reflexivity.
  - reflexivity.
  - vm_compute. split; intros H; discriminate H.
  - reflexivity.
  - vm_compute. reflexivity.
  - vm_compute. intros H; discriminate H.
  - vm_compute. reflexivity.
  - reflexivity.
  - exists obs, s'. split; [exact E|]. split; [exact Hl|].
    split; [exact (Hp 1%nat (le_n 2))|exact Hs].
Defined.

(** C2 as stated fails: on an output of format AUSF_I24, [Au_Play] of a
    file with one full block succeeds, yet the reader leaves at its first
    iteration without publishing a block, so the first callback
    invocation finds the ring buffer empty and returns complete; no
    Playing and no Stopped block is ever taken. *)
Lemma playback_int24_takes_no_block :
  Au_Play (env_ok (Some (counting_file 44100 1)) zero_blocks) Handle "a.wav"
          (fresh_output AUSF_I24 44100 2)
  = Done (TRUE, playing_output AUSF_I24 44100 2 (counting_file 44100 1)) /\
  result_of (playback (env_ok None zero_blocks) 2)
            (playing_output AUSF_I24 44100 2 (counting_file 44100 1))
  = Some [(None, Some (paComplete, None)); (None, None)].
Proof. split; vm_compute; reflexivity. Qed.

(** ** Library start-up and shutdown *)

(** X1.  While the library is not initialised (before a successful
    [Au_Startup], or after [Au_Shutdown]) [Au_New] returns NULL and
    [Au_Delete], [Au_Play], [Au_Stop] and [Au_IsPlaying] return FALSE,
    for any handle; none of them changes the state or calls a
    collaborator. *)
Theorem uninitialised_library_refuses env fmt rate ch filename h s :
  AuInitialized_ s = FALSE ->
  Au_New env fmt rate ch s = Done (NULL, s) /\
  Au_Delete h s = Done (FALSE, s) /\
  Au_Play env h filename s = Done (FALSE, s) /\
  Au_Stop env h s = Done (FALSE, s) /\
  Au_IsPlaying env h s = Done (FALSE, s).
Proof.
  intros Hi. destruct s as [ini c1 c2 o log]. cbn [AuInitialized_] in Hi.
  subst ini.
  unfold Au_New, Au_Delete, Au_Play, Au_Stop, Au_IsPlaying, POW. au_sim.
  repeat split.
Qed.

Lemma uninitialised_library_refuses_witness :
  Au_New (env_ok None zero_blocks) 0 44100 2 program_start
  = Done (NULL, program_start) /\
  Au_Delete Handle program_start = Done (FALSE, program_start) /\
  Au_Play (env_ok None zero_blocks) Handle "a.wav" program_start
  = Done (FALSE, program_start) /\
  Au_Stop (env_ok None zero_blocks) Handle program_start
  = Done (FALSE, program_start) /\
  Au_IsPlaying (env_ok None zero_blocks) Handle program_start
  = Done (FALSE, program_start).
Proof.
  apply (uninitialised_library_refuses (env_ok None zero_blocks) 0 44100 2
           "a.wav" Handle program_start).
  reflexivity.
Defined.

(** X2.  [Au_Shutdown] does not look at the outputs: with a live output
    it succeeds, calls nothing on behalf of the output and leaves its
    record as it is.  From then on [Au_Stop] and [Au_Delete] on that
    output return FALSE and release nothing: the reader thread, the
    semaphore, the ring buffer, the mutex, the file and the memory of the
    output stay as they are. *)
Theorem Au_Shutdown_strands_live_output env s p :
  AuInitialized_ s = TRUE -> output s = Some p ->
  exists s1,
    Au_Shutdown true s = Done (TRUE, s1) /\
    output s1 = Some p /\ calls s1 = calls s /\
    Au_Stop env Handle s1 = Done (FALSE, s1) /\
    Au_Delete Handle s1 = Done (FALSE, s1).
Proof.
  intros Hi Ho. destruct s as [ini c1 c2 o log].
  cbn [AuInitialized_ output] in Hi, Ho. subst ini o.
  eexists. split.
  - unfold Au_Shutdown, set_AuInitialized_. au_sim. reflexivity.
  - unfold Au_Stop, Au_Delete, POW. au_sim.
    repeat split.
Qed.

Lemma Au_Shutdown_strands_live_output_witness :
  exists s1,
    Au_Shutdown true (playing_output AUSF_F32 44100 2 (counting_file 44100 3))
    = Done (TRUE, s1) /\
    output s1
    = output (playing_output AUSF_F32 44100 2 (counting_file 44100 3)) /\
    Au_Stop (env_ok None zero_blocks) Handle s1 = Done (FALSE, s1) /\
    Au_Delete Handle s1 = Done (FALSE, s1).
Proof.
  destruct (Au_Shutdown_strands_live_output (env_ok None zero_blocks)
              (playing_output AUSF_F32 44100 2 (counting_file 44100 3))
              _ eq_refl eq_refl)
    as (s1 & E & Ho & _ & Es & Ed).
  exists s1. repeat split; assumption.
Defined.

(** X3.  [Au_Startup] returns TRUE exactly when the library is
    initialised afterwards: when it already was, or when [Pa_Initialize]
    succeeds.  It changes nothing but the flag, a failure changes
    nothing at all, and once it has succeeded a further call returns TRUE
    whatever PortAudio would answer.  [Au_Shutdown] mirrors it: it
    returns TRUE exactly when the library is not initialised afterwards,
    a failing [Pa_Terminate] leaves the library initialised, and after a
    success a further call returns TRUE. *)
Theorem Au_Startup_Au_Shutdown_idempotent ok ok' s :
  (exists r s1,
     Au_Startup ok s = Done (r, s1) /\
     r = AuInitialized_ s || ok /\ AuInitialized_ s1 = r /\
     output s1 = output s /\ calls s1 = calls s /\
     (r = FALSE -> s1 = s) /\
     (r = TRUE -> Au_Startup ok' s1 = Done (TRUE, s1))) /\
  (exists r s1,
     Au_Shutdown ok s = Done (r, s1) /\
     r = negb (AuInitialized_ s) || ok /\ AuInitialized_ s1 = negb r /\
     output s1 = output s /\ calls s1 = calls s /\
     (r = FALSE -> s1 = s) /\
     (r = TRUE -> Au_Shutdown ok' s1 = Done (TRUE, s1))).
Proof.
  destruct s as [ini c1 c2 o log].
  unfold Au_Startup, Au_Shutdown, set_AuInitialized_. au_sim.
  split; destruct ini, ok; au_sim;
    (do 2 eexists; split; [reflexivity|]);
    repeat split; try discriminate.
Qed.

(** ** Creating and deleting an output *)

(** X4.  [Au_New] on a program without an output either fails, leaving
    no output and having freed what it allocated, or returns a handle
    that [Au_Delete] releases in full: the stream opened is stopped and
    closed and the memory allocated is freed. *)
Theorem Au_New_Au_Delete_balanced env fmt rate ch s :
  output s = None ->
  exists h s1,
    Au_New env fmt rate ch s = Done (h, s1) /\
    (h = NULL ->
     output s1 = None /\
     (calls s1 = calls s \/
      calls s1 = calls s ++ [C_malloc_output] /\
      malloc_output_ok env = false \/
      calls s1 = calls s ++
                 [C_malloc_output; C_Pa_OpenDefaultStream; C_free_output])) /\
    (h = Handle ->
     exists s2,
       Au_Delete Handle s1 = Done (TRUE, s2) /\ output s2 = None /\
       calls s2 = calls s ++
                  [C_malloc_output; C_Pa_OpenDefaultStream; C_Pa_StopStream;
                   C_Pa_CloseStream; C_free_output]).
Proof.
  intros Ho. destruct s as [ini c1 c2 o log]. cbn [output] in Ho. subst o.
  unfold Au_New, Au_Delete, POW, Pa_StopStream. au_sim.
  destruct ini; au_sim.
  2:{ do 2 eexists. split; [reflexivity|]. split; [auto|discriminate]. }
  destruct (Au_SampleFormat_of_int fmt) as [[]|]; au_sim;
    try (do 2 eexists; split; [reflexivity|]; split; [auto|discriminate]);
    (destruct (rate <? 1); au_sim;
     [do 2 eexists; split; [reflexivity|]; split; [auto|discriminate]|]);
    (destruct (malloc_output_ok env) eqn:Em; au_sim;
     [|do 2 eexists; split; [reflexivity|]; split;
       [intros _; split; [reflexivity|]; right; left; auto|discriminate]]);
    (destruct (Pa_OpenDefaultStream_ok env); au_sim;
     do 2 eexists; (split; [reflexivity|]); split;
     try discriminate; intros _).
  all: try (eexists; split; [reflexivity|]; split; [reflexivity|];
            cbn [calls]; rewrite <- !app_assoc; reflexivity).
  all: split; [reflexivity|]; right; right; cbn [calls];
    rewrite <- !app_assoc; reflexivity.
Qed.

Lemma Au_New_Au_Delete_balanced_witness :
  exists h s1,
    Au_New (env_ok None zero_blocks) 0 44100 2 started = Done (h, s1) /\
    (h = Handle ->
     exists s2,
       Au_Delete Handle s1 = Done (TRUE, s2) /\ output s2 = None /\
       calls s2 = [C_malloc_output; C_Pa_OpenDefaultStream; C_Pa_StopStream;
                   C_Pa_CloseStream; C_free_output]).
Proof.
  destruct (Au_New_Au_Delete_balanced (env_ok None zero_blocks) 0 44100 2
              started eq_refl) as (h & s1 & E & _ & H).
  exists h, s1. split; [exact E|exact H].
Defined.

(** ** Sessions: all or nothing, one at a time, released in full *)

Lemma session_kept_refl p : session_kept p p.
Proof. constructor; reflexivity. Qed.

Lemma session_kept_trans p q r :
  session_kept p q -> session_kept q r -> session_kept p r.
Proof. intros [] []; constructor; congruence. Qed.

Lemma reader_frame_kept p p' : reader_frame p p' -> session_kept p p'.
Proof. intros []; constructor; congruence. Qed.

Lemma PACallback_kept env frameCount s p r s' :
  output s = Some p -> wf_output p ->
  PACallback_ env frameCount s = Done (r, s') ->
  exists p', output s' = Some p' /\ session_kept p p'.
Proof.
  intros Ho Hwf.
  unfold PACallback_. unfold bind at 1, get_pau. rewrite Ho.
  destruct (pa_stream p) as [[]|] eqn:Est;
    try (intros [= <- <-]; eauto using session_kept_refl).
  destruct (pa_callback p) eqn:Ecb.
  - destruct s as [ini c1 c2 o log]. cbn [output] in Ho. subst o.
    destruct p as [fmt rate ch st cb th sem ex fd0 rb slots t t0 pl mu pf].
    au_sim. intros [= <- <-]. eexists. split; [reflexivity|].
    cbn in Est. subst st. constructor; reflexivity.
  - pose proof (wf_callback _ Hwf Ecb) as Hth.
    destruct (wf_session_active p Hwf Hth) as (count & rb & slots & Hact).
    unfold bind at 1.
    rewrite (PAPlayCallback_run env frameCount s p count rb slots Ho Hact).
    destruct Hact as (Hsem & Hrb & Hdata & Hmu).
    destruct s as [ini c1 c2 o log]. cbn [output] in Ho. subst o.
    destruct p as [fmt rate ch st cb th sem ex fd0 rb0 slots0 t t0 pl mu pf].
    cbn [sf_reader_semaphore sf_buffer sf_buffer_data pa_stream] in *.
    subst.
    unfold posted, marked_not_playing, synced.
    cbv zeta. au_sim.
    repeat match goal with
           | |- context [if ?c then _ else _] => destruct c
           | |- context [match state ?b with _ => _ end] => destruct (state b)
           end; au_sim;
      try discriminate;
      intros [= <- <-]; (eexists; split; [reflexivity|]);
      constructor; reflexivity.
Qed.

Lemma run_kept ops : forall s p s',
  Forall playback_op ops ->
  AuInitialized_ s = TRUE -> output s = Some p -> wf_output p ->
  run ops s = Done (tt, s') ->
  exists p', AuInitialized_ s' = TRUE /\ output s' = Some p' /\
             wf_output p' /\ session_kept p p'.
Proof.
  induction ops as [|op ops IH]; intros s p s' Hops Hi Ho Hwf.
  - intros [= <-]. eauto using session_kept_refl.
  - inversion Hops as [|? ? Hop Hrest]; subst.
    cbn [run]. unfold bind at 1.
    destruct (exec op s) as [[[] s1]|] eqn:E; [|discriminate].
    intros Hrun.
    assert (H1 : exists p1, AuInitialized_ s1 = TRUE /\ output s1 = Some p1 /\
                            wf_output p1 /\ session_kept p p1).
    { destruct op as [| | | | |env fc]; try contradiction; cbn [exec] in E.
      - destruct (SFFileReader_step_wf s p Ho Hwf)
          as (s2 & p2 & E2 & Ho2 & Hwf2 & Hfr & Hi2 & _).
        rewrite E2 in E. injection E as <-.
        exists p2. split; [congruence|]. split; [assumption|].
        split; [assumption|]. now apply reader_frame_kept.
      - unfold bind in E.
        destruct (PACallback_ env fc s) as [[r s2]|] eqn:E2; [|discriminate].
        injection E as <-.
        destruct (PACallback_wf env fc s p r s2 Ho Hwf E2)
          as (p2 & Ho2 & Hwf2 & Hi2).
        destruct (PACallback_kept env fc s p r s2 Ho Hwf E2)
          as (p2' & Ho2' & Hk).
        rewrite Ho2 in Ho2'. injection Ho2' as <-.
        exists p2. split; [congruence|]. split; [assumption|].
        split; assumption. }
    destruct H1 as (p1 & Hi1 & Ho1 & Hwf1 & Hk1).
    destruct (IH s1 p1 s' Hrest Hi1 Ho1 Hwf1 Hrun)
      as (p' & Hi' & Ho' & Hwf' & Hk').
    exists p'. split; [assumption|]. split; [assumption|].
    split; [assumption|]. eapply session_kept_trans; eauto.
Qed.

(** X5.  [Au_Play] on a reachable output without a session is all or
    nothing, unless [pthread_create] fails.  When it returns TRUE the
    file was opened, has the sample rate of the output and two channels,
    and the session is in place.  When an earlier step or
    [Pa_StartStream] fails it returns FALSE and the rollback has left no
    part of a session behind: no reader thread, semaphore, ring buffer,
    time mutex or open file, the stream stopped and the idle callback
    installed.  When the steps up to [sem_init] succeed and
    [pthread_create] fails, the handle of the reader thread is already
    set: the rollback joins the thread id in [sf_reader_thread_storage],
    which holds no valid value, and the call faults instead of returning
    FALSE. *)
Theorem Au_Play_all_or_nothing env filename s p :
  reachable s -> output s = Some p -> sf_reader_thread p = None ->
  if thread_creation_fails env filename (sample_rate p)
  then Au_Play env Handle filename s = Crash InvalidThread
  else
    exists b s',
      Au_Play env Handle filename s = Done (b, s') /\
      (b = TRUE ->
       exists fd fresh,
         sf_open env filename = Some fd /\
         sf_samplerate fd = sample_rate p /\ sf_channels fd = 2 /\
         output s' = Some (session_start p fd fresh)) /\
      (b = FALSE ->
       exists exit_flag frames,
         output s' = Some (stopped_output p exit_flag frames)).
Proof.
  intros Hreach Ho Hth.
  destruct (reachable_wf s Hreach) as [Hi Hwf]. specialize (Hwf p Ho).
  pose proof (Au_Play_runs env filename s p Hi Ho Hwf Hth) as H.
  destruct (thread_creation_fails env filename (sample_rate p));
    [exact H|].
  destruct H as (b & s' & E & _ & Hfalse).
  exists b, s'. split; [exact E|]. split; [|exact Hfalse].
  intros ->.
  destruct (Au_Play_TRUE env filename s s' E)
    as (p' & fd & fresh & _ & Ho' & _ & _ & Hopen & Hr & Hc & _ & ->).
  rewrite Ho in Ho'. injection Ho' as <-.
  exists fd, fresh. repeat split; assumption.
Qed.

Lemma Au_Play_all_or_nothing_witness :
  (exists b s',
     Au_Play (env_ok None zero_blocks) Handle "missing.wav"
             (fresh_output AUSF_F32 44100 2) = Done (b, s') /\
     (b = FALSE ->
      exists exit_flag frames,
        output s'
        = Some (stopped_output
                  (set_pa_stream (Some PaStopped)
                     (zeroed_output (int_of_Au_SampleFormat AUSF_F32) 44100 2))
                  exit_flag frames))) /\
  Au_Play (env_no_thread (counting_file 44100 3)) Handle "a.wav"
          (fresh_output AUSF_F32 44100 2) = Crash InvalidThread.
Proof.
  split.
  - destruct (Au_Play_all_or_nothing (env_ok None zero_blocks) "missing.wav"
                (fresh_output AUSF_F32 44100 2) _
                reachable_fresh_output eq_refl eq_refl)
      as (b & s' & E & _ & H).
    exists b, s'. split; [exact E|exact H].
  - exact (Au_Play_all_or_nothing (env_no_thread (counting_file 44100 3))
             "a.wav" (fresh_output AUSF_F32 44100 2) _
             reachable_fresh_output eq_refl eq_refl).
Defined.

Lemma session_after_playback env filename s s0 ops s1 :
  reachable s -> Au_Play env Handle filename s = Done (TRUE, s0) ->
  Forall playback_op ops -> run ops s0 = Done (tt, s1) ->
  exists p fd fresh p1,
    output s = Some p /\ output s0 = Some (session_start p fd fresh) /\
    AuInitialized_ s1 = TRUE /\ output s1 = Some p1 /\ wf_output p1 /\
    session_kept (session_start p fd fresh) p1.
Proof.
  intros Hreach Hplay Hops Hrun.
  pose proof (Au_Play_wf env filename s TRUE s0 (reachable_wf s Hreach) Hplay)
    as [Hi0 Hwf0].
  destruct (Au_Play_TRUE env filename s s0 Hplay)
    as (p & fd & fresh & _ & Ho & _ & _ & _ & _ & _ & _ & Es0).
  assert (Ho0 : output s0 = Some (session_start p fd fresh))
    by (rewrite Es0; reflexivity).
  destruct (run_kept ops s0 _ s1 Hops Hi0 Ho0 (Hwf0 _ Ho0) Hrun)
    as (p1 & Hi1 & Ho1 & Hwf1 & Hk).
  exists p, fd, fresh, p1. repeat (split; [assumption|]). assumption.
Qed.

(** X6.  One file at a time: once [Au_Play] has succeeded, every further
    [Au_Play] on that output returns FALSE and changes nothing, at any
    point of the session's run, also after the whole file has been
    played, until [Au_Stop] is called. *)
Theorem Au_Play_refused_until_Au_Stop env env' filename filename' s s0 ops s1 :
  reachable s -> Au_Play env Handle filename s = Done (TRUE, s0) ->
  Forall playback_op ops -> run ops s0 = Done (tt, s1) ->
  Au_Play env' Handle filename' s1 = Done (FALSE, s1).
Proof.
  intros Hreach Hplay Hops Hrun.
  destruct (session_after_playback env filename s s0 ops s1
              Hreach Hplay Hops Hrun)
    as (p & fd & fresh & p1 & _ & _ & Hi1 & Ho1 & _ & Hk).
  pose proof (sk_stream _ _ Hk) as Hst. pose proof (sk_thread _ _ Hk) as Hth.
  cbn in Hst, Hth.
  unfold Au_Play, POW. unfold bind at 1, get_state.
  rewrite Hi1. cbn [negb TRUE]. unfold bind at 1, get_pau. rewrite Ho1.
  rewrite Hst, Hth. reflexivity.
Qed.

Lemma Au_Play_refused_until_Au_Stop_witness :
  Au_Play (env_ok (Some (counting_file 44100 1)) zero_blocks) Handle "b.wav"
    (after [OpReader; OpCallback (env_ok None zero_blocks) PA_BUFFER_FRAMECOUNT]
       (playing_output AUSF_F32 44100 2 (counting_file 44100 3)))
  = Done (FALSE,
          after [OpReader;
                 OpCallback (env_ok None zero_blocks) PA_BUFFER_FRAMECOUNT]
            (playing_output AUSF_F32 44100 2 (counting_file 44100 3))).
Proof.
  apply (Au_Play_refused_until_Au_Stop
           (env_ok (Some (counting_file 44100 3)) zero_blocks)
           (env_ok (Some (counting_file 44100 1)) zero_blocks)
           "a.wav" "b.wav" (fresh_output AUSF_F32 44100 2)
           (playing_output AUSF_F32 44100 2 (counting_file 44100 3))
           [OpReader;
            OpCallback (env_ok None zero_blocks) PA_BUFFER_FRAMECOUNT]).
  - exact reachable_fresh_output.
  - vm_compute. reflexivity.
  - repeat constructor.
  - vm_compute. reflexivity.
Defined.

Lemma calls_between_app c s s' l :
  calls s' = calls s ++ l -> calls_between c s s' = count_occ Call_eq_dec l c.
Proof.
  intros E. unfold calls_between. rewrite E, skipn_app, skipn_all, Nat.sub_diag.
  reflexivity.
Qed.

(** X7.  [Au_Stop] at any point of a session's run returns TRUE and
    releases the session in full: the output is left without reader
    thread, semaphore, ring buffer, time mutex or open file, and the
    stream is stopped, the reader signalled and joined, the semaphore and
    the mutex destroyed, the ring buffer flushed and its memory freed,
    and the file closed, each exactly once. *)
Theorem Au_Stop_releases_session env env' filename s s0 ops s1 :
  reachable s -> Au_Play env Handle filename s = Done (TRUE, s0) ->
  Forall playback_op ops -> run ops s0 = Done (tt, s1) ->
  exists s2 p exit_flag frames,
    Au_Stop env' Handle s1 = Done (TRUE, s2) /\
    output s = Some p /\
    output s2 = Some (stopped_output p exit_flag frames) /\
    forall c,
      In c [C_Pa_StopStream; C_sem_post; C_pthread_join; C_sem_destroy;
            C_PaUtil_FlushRingBuffer; C_free_buffer;
            C_pthread_mutex_destroy; C_sf_close] ->
      calls_between c s1 s2 = 1%nat.
Proof.
  intros Hreach Hplay Hops Hrun.
  destruct (session_after_playback env filename s s0 ops s1
              Hreach Hplay Hops Hrun)
    as (p & fd & fresh & p1 & Ho & _ & Hi1 & Ho1 & Hwf1 & Hk).
  destruct (Au_Stop_spec env' s1 p1 Hi1 Ho1 Hwf1) as (c1 & fr & E).
  do 4 eexists. split; [exact E|]. split; [exact Ho|]. split.
  - cbn [output]. f_equal. unfold stopped_output.
    rewrite (sk_format _ _ Hk), (sk_rate _ _ Hk), (sk_channels _ _ Hk).
    reflexivity.
  - intros c Hc.
    rewrite (calls_between_app c s1 _ (Au_Stop_calls env' p1))
      by reflexivity.
    destruct Hk as [_ _ _ Hst Hth Hsem Hrb Hdata Hfd Hmu]. cbn in *.
    unfold Au_Stop_calls. rewrite Hst, Hsem, Hrb, Hdata, Hfd, Hmu.
    destruct (sf_reader_thread p1) as [pc|]; [|discriminate].
    cbn [is_some].
    destruct pc, (pthread_join_ok env');
      repeat (destruct Hc as [<-|Hc]; [reflexivity|]); contradiction.
Qed.

Lemma Au_Stop_releases_session_witness :
  exists s2 exit_flag frames,
    Au_Stop (env_ok None zero_blocks) Handle
      (after [OpReader;
              OpCallback (env_ok None zero_blocks) PA_BUFFER_FRAMECOUNT]
         (playing_output AUSF_F32 44100 2 (counting_file 44100 3)))
    = Done (TRUE, s2) /\
    output s2
    = Some (stopped_output
              (set_pa_stream (Some PaStopped)
                 (zeroed_output (int_of_Au_SampleFormat AUSF_F32) 44100 2))
              exit_flag frames).
Proof.
  destruct (Au_Stop_releases_session
              (env_ok (Some (counting_file 44100 3)) zero_blocks)
              (env_ok None zero_blocks)
              "a.wav" (fresh_output AUSF_F32 44100 2)
              (playing_output AUSF_F32 44100 2 (counting_file 44100 3))
              [OpReader;
               OpCallback (env_ok None zero_blocks) PA_BUFFER_FRAMECOUNT]
              (after [OpReader;
                      OpCallback (env_ok None zero_blocks)
                                 PA_BUFFER_FRAMECOUNT]
                 (playing_output AUSF_F32 44100 2 (counting_file 44100 3))))
    as (s2 & p & e & f & E & Ho & Ho2 & _).
  - exact reachable_fresh_output.
  - vm_compute. reflexivity.
  - repeat constructor.
  - vm_compute. reflexivity.
  - exists s2, e, f. split; [exact E|].
    injection Ho as <-. exact Ho2.
Defined.

(** X8.  Throughout a session (reader steps and callback invocations in
    any order) the cursors of the ring buffer stay in step: the read
    cursor never passes the write cursor, so the callback never takes a
    block that was not published, and the write cursor is never more
    than the 32 slots ahead, so the reader never overwrites a block that
    was not yet taken.  Every queued block carries a frame position
    between 0 and the reader's frame counter. *)
Theorem ring_buffer_cursors_in_step env filename s s0 ops s1 :
  reachable s ->
  (forall fd, sf_open env filename = Some fd -> frames_left fd <= LONG_MAX) ->
  Au_Play env Handle filename s = Done (TRUE, s0) ->
  Forall playback_op ops -> run ops s0 = Done (tt, s1) ->
  exists p rb slots,
    output s1 = Some p /\ sf_buffer p = Some rb /\
    sf_buffer_data p = Some slots /\
    bufferSize rb = PA_RING_BUFFERCOUNT /\
    0 <= readIndex rb <= writeIndex rb /\
    writeIndex rb <= readIndex rb + PA_RING_BUFFERCOUNT /\
    forall j, readIndex rb <= j < writeIndex rb ->
              0 <= pos_frames (slot_of rb slots j) <= playback_frames p.
Proof.
  intros Hreach Hlong Hplay Hops Hrun.
  destruct (reachable_wf s Hreach) as [Hi Hwf].
  destruct (Au_Play_TRUE env filename s s0 Hplay)
    as (p & fd & fresh & _ & Ho & Hst & Hth & Hopen & Hr & Hc & Hm & Es0).
  assert (Ho0 : output s0 = Some (session_start p fd fresh))
    by (rewrite Es0; reflexivity).
  specialize (Hwf p Ho). specialize (Hlong fd Hopen).
  assert (Hinv : clock_inv (session_start p fd fresh)).
  { apply clock_inv_session_start; auto. apply (wf_rate _ Hwf). }
  destruct (run_clock ops _ _ s1 Hops Ho0 Hinv Hrun) as (p1 & Ho1 & Hs1).
  destruct (cs_inv _ _ Hs1)
    as (count & rb & slots & fd1 & (_ & Hrb & Hdata & _) & _ & _ & Hfacts).
  exists p1, rb, slots. repeat (split; [assumption|]).
  split; [exact (ci_size _ _ _ _ _ _ _ Hfacts)|].
  split; [exact (ci_read _ _ _ _ _ _ _ Hfacts)|].
  split; [exact (ci_write _ _ _ _ _ _ _ Hfacts)|].
  exact (ci_pos _ _ _ _ _ _ _ Hfacts).
Qed.

Lemma ring_buffer_cursors_in_step_witness :
  exists p rb,
    output (after [OpReader; OpReader; OpReader;
                   OpCallback (env_ok None zero_blocks) PA_BUFFER_FRAMECOUNT]
              (playing_output AUSF_F32 44100 2 (counting_file 44100 3)))
    = Some p /\
    sf_buffer p = Some rb /\
    0 <= readIndex rb <= writeIndex rb /\
    writeIndex rb <= readIndex rb + PA_RING_BUFFERCOUNT.
Proof.
  destruct (ring_buffer_cursors_in_step
              (env_ok (Some (counting_file 44100 3)) zero_blocks)
              "a.wav" (fresh_output AUSF_F32 44100 2)
              (playing_output AUSF_F32 44100 2 (counting_file 44100 3))
              [OpReader; OpReader; OpReader;
               OpCallback (env_ok None zero_blocks) PA_BUFFER_FRAMECOUNT]
              (after [OpReader; OpReader; OpReader;
                      OpCallback (env_ok None zero_blocks)
                                 PA_BUFFER_FRAMECOUNT]
                 (playing_output AUSF_F32 44100 2 (counting_file 44100 3))))
    as (p & rb & slots & Ho & Hrb & _ & _ & Hr & Hw & _).
  - exact reachable_fresh_output.
  - intros fd [= <-]. vm_compute. discriminate.
  - vm_compute. reflexivity.
  - repeat constructor.
  - vm_compute. reflexivity.
  - exists p, rb. repeat split; try assumption; apply Hr.
Defined.



(** ** What the client sees after a callback invocation *)

(** X9.  After a callback invocation that took a block (locks acquired),
    [Au_IsPlaying] reports the tag of that block: TRUE after a Playing
    block, FALSE after the Stopped block that ends the file.
    [Au_GetTimeInPlayback] reports 0 after the first block of the
    session, and afterwards the frame position of the block divided by
    the sample rate, less the start time, both operations in doubles
    (rounded to nearest, ties to even); with the start time 0 that is
    the rounded quotient itself. *)
Theorem queries_after_callback env env' s p count rb slots :
  AuInitialized_ s = TRUE -> output s = Some p ->
  session_active p count rb slots ->
  pa_stream p = Some PaActive -> pa_callback p = fn_PAPlayCallback_ ->
  0 <= bufferSizeBytes_ (Some p) <= sizeof_FRBuf_data ->
  0 < PaUtil_GetRingBufferReadAvailable rb ->
  pthread_mutex_lock_ok env = true -> pthread_mutex_trylock_ok env = true ->
  pthread_mutex_lock_ok env' = true ->
  exists r s',
    PACallback_ env PA_BUFFER_FRAMECOUNT s = Done (r, s') /\
    Au_IsPlaying env' Handle s'
    = Done (match state (slot_of rb slots (readIndex rb)) with
            | PPPS_Playing => TRUE
            | PPPS_Stopped => FALSE
            end, s') /\
    Au_GetTimeInPlayback env' Handle s'
    = Done (if Qeq_bool (playback_start_time p) time_unset
            then Double.sub time_zero time_zero
            else Double.sub
                   (frames_to_time
                      (pos_frames (slot_of rb slots (readIndex rb)))
                      (sample_rate p))
                   (playback_start_time p), s') /\
    (Double.sub time_zero time_zero == 0)%Q /\
    (playback_start_time p = time_zero ->
     (Double.sub
        (frames_to_time (pos_frames (slot_of rb slots (readIndex rb)))
                        (sample_rate p))
        (playback_start_time p)
      == frames_to_time (pos_frames (slot_of rb slots (readIndex rb)))
                        (sample_rate p))%Q).
Proof.
  intros Hi Ho Hact Hst Hcb Hsz Hav Hlock Htry Hlock'.
  unfold PACallback_. unfold bind at 1, get_pau. rewrite Ho, Hst, Hcb.
  unfold bind at 1.
  rewrite (PAPlayCallback_run env PA_BUFFER_FRAMECOUNT s p count rb slots
             Ho Hact).
  destruct Hact as (Hsem & Hrb & Hdata & Hmu).
  destruct s as [ini c1 c2 o log]. cbn [output AuInitialized_] in Ho, Hi.
  subst o ini.
  destruct p as [fmt rate ch st cb th sem ex fd0 rb0 slots0 t t0 pl mu pf].
  cbn [sf_reader_semaphore sf_buffer sf_buffer_data pa_stream pa_callback
       playback_time_mutex playback_start_time sample_rate] in *.
  subst. destruct mu as [[]|]; [|congruence].
  unfold bufferSizeBytes_ in *. cbn [format channels] in *.
  set (n := match format_size fmt with
            | Some sz => wrap_int (wrap_int (PA_BUFFER_FRAMECOUNT * ch) * sz)
            | None => -1
            end) in *.
  assert (Hn : (n <? 0) || (sizeof_FRBuf_data <? n) = false).
  { apply orb_false_iff. split; apply Z.ltb_ge; lia. }
  assert (Hav' : (PaUtil_GetRingBufferReadAvailable rb <=? 0) = false)
    by (apply Z.leb_gt; lia).
  rewrite Z.eqb_refl, Hav', Hlock, Hn. cbn [negb orb andb].
  rewrite andb_false_r. cbv zeta.
  unfold posted, marked_not_playing, synced, Au_IsPlaying,
    Au_GetTimeInPlayback, POW.
  rewrite Hlock, Htry, Hlock'. au_sim.
  assert (Hz : (Double.sub time_zero time_zero == 0)%Q)
    by (vm_compute; reflexivity).
  assert (Hq : t0 = time_zero ->
               (Double.sub
                  (frames_to_time
                     (pos_frames (slot_of rb slots (readIndex rb))) rate) t0
                == frames_to_time
                     (pos_frames (slot_of rb slots (readIndex rb))) rate)%Q).
  { intros ->. apply Double_sub_zero, frames_to_time_double. }
  destruct (state (slot_of rb slots (readIndex rb)));
    destruct (Qeq_bool t0 time_unset); au_sim;
    (do 2 eexists; split; [reflexivity|]);
    (split; [reflexivity|]); (split; [reflexivity|]);
    (split; [exact Hz|exact Hq]).
Qed.

Lemma queries_after_callback_witness :
  exists r s' t,
    PACallback_ (env_ok None zero_blocks) PA_BUFFER_FRAMECOUNT one_block_queued
    = Done (r, s') /\
    Au_IsPlaying (env_ok None zero_blocks) Handle s' = Done (TRUE, s') /\
    Au_GetTimeInPlayback (env_ok None zero_blocks) Handle s' = Done (t, s') /\
    (t == 0)%Q.
Proof.
  destruct (queries_after_callback
              (env_ok None zero_blocks) (env_ok None zero_blocks)
              one_block_queued (output_of one_block_queued) 0
              (ring_of one_block_queued) (slots_of one_block_queued))
    as (r & s' & E & Hp & Ht & Hz & _).
  - reflexivity.
  - vm_compute. reflexivity.
  - vm_compute. repeat split. discriminate.
  - vm_compute. reflexivity.
  - vm_compute. reflexivity.
  - vm_compute. split; discriminate.
  - vm_compute. reflexivity.
  - reflexivity.
  - reflexivity.
  - reflexivity.
  - exists r, s'. eexists. split; [exact E|]. split; [exact Hp|].
    split; [exact Ht|]. exact Hz.
Defined.

(** ** The reader thread at the end of a file and at an exit request *)

(** X10.  A short read ends the reader: when the file holds fewer than
    256 frames but more than none, the reader decodes them, leaving no
    frame in the file, records the diagnostic code of its format in
    [AU_SFFR_Count] (123002 for float, 123003 for 32-bit and 123005 for
    16-bit samples) and returns.  The write cursor and the frame counter
    stay as they were: the partial block at the end of a file is never
    published, and no Stopped block follows it. *)
Theorem SFFileReader_short_read_exits s p n rb slots fd width :
  output s = Some p -> sf_reader_thread p = Some (RFill n) -> 0 < n ->
  sf_buffer p = Some rb -> 0 < PaUtil_GetRingBufferWriteAvailable rb ->
  sf_buffer_data p = Some slots -> sf_fd p = Some fd -> sf_channels fd = 2 ->
  decode_width (format p) = Some width ->
  0 < frames_left fd < PA_BUFFER_FRAMECOUNT ->
  exists s' p' fd',
    SFFileReader_step s = Done (tt, s') /\ output s' = Some p' /\
    sf_reader_thread p' = Some RDone /\
    sf_buffer p' = Some rb /\
    playback_frames p' = playback_frames p /\
    sf_reader_semaphore p' = sf_reader_semaphore p /\
    sf_fd p' = Some fd' /\ frames_left fd' = 0 /\
    (Au_SampleFormat_of_int (format p) = Some AUSF_F32 ->
     AU_SFFR_Count s' = 123002) /\
    (Au_SampleFormat_of_int (format p) = Some AUSF_I32 ->
     AU_SFFR_Count s' = 123003) /\
    (Au_SampleFormat_of_int (format p) = Some AUSF_I16 ->
     AU_SFFR_Count s' = 123005).
Proof.
  intros Ho Hth Hn Hrb Hav Hdata Hfd Hch Hw Hleft.
  destruct s as [ini c1 c2 o log]. cbn [output] in Ho. subst o.
  destruct p as [fmt rate ch st cb th sem ex fd0 rb0 slots0 t t0 pl mu pf].
  cbn [sf_reader_thread sf_buffer sf_buffer_data sf_fd format] in *. subst.
  unfold SFFileReader_step. au_sim.
  destruct (0 <? n) eqn:E; [clear E|apply Z.ltb_ge in E; lia].
  unfold SFFileReader_iteration. au_sim.
  unfold PaUtil_GetRingBufferWriteRegions.
  destruct (Z.min 1 (PaUtil_GetRingBufferWriteAvailable rb) <=? 0) eqn:E;
    [apply Z.leb_le in E; lia|clear E].
  au_sim. unfold read_block, sf_readf_handle.
  assert (Hwidth : (width <= 4)%nat).
  { unfold decode_width in Hw.
    destruct (Au_SampleFormat_of_int fmt) as [[]|]; try discriminate;
      injection Hw as <-; lia. }
  destruct (sf_readf_spec width fd Hch Hwidth)
    as (k & bytes & fd' & E & Hk & Hmin & Hb & _ & _ & Hrest).
  assert (Hshort : (0 <? k) && negb (k =? PA_BUFFER_FRAMECOUNT) = true).
  { apply andb_true_iff. split; [apply Z.ltb_lt; lia|].
    apply negb_true_iff, Z.eqb_neq. lia. }
  assert (Hend : frames_left fd' = 0) by lia.
  apply Z.ltb_ge in Hb.
  unfold decode_width in Hw.
  destruct (Au_SampleFormat_of_int fmt) as [[]|]; try discriminate;
    injection Hw as <-; au_sim; rewrite E; au_sim; rewrite Hb; au_sim;
    rewrite Hshort; au_sim;
    (do 2 eexists; exists fd'; split; [reflexivity|]);
    repeat (split; [reflexivity|]);
    (split; [exact Hend|]);
    repeat split; intros H; try discriminate H; reflexivity.
Qed.

Lemma SFFileReader_short_read_exits_witness :
  exists s' p',
    SFFileReader_step reading_partial_block = Done (tt, s') /\
    output s' = Some p' /\ sf_reader_thread p' = Some RDone /\
    sf_buffer p' = Some (mkRing PA_RING_BUFFERCOUNT 0 0) /\
    AU_SFFR_Count s' = 123002.
Proof.
  destruct (SFFileReader_short_read_exits reading_partial_block
              (output_of reading_partial_block) 32
              (mkRing PA_RING_BUFFERCOUNT 0 0) zero_blocks
              partial_block_file 4)
    as (s' & p' & fd' & E & Ho & Hth & Hrb & _ & _ & _ & _ & Hc & _).
  - reflexivity.
  - reflexivity.
  - reflexivity.
  - reflexivity.
  - reflexivity.
  - reflexivity.
  - reflexivity.
  - reflexivity.
  - reflexivity.
  - vm_compute. split; reflexivity.
  - exists s', p'. repeat (split; [assumption|]). apply Hc. reflexivity.
Defined.

Lemma SFFileReader_step_towards_exit s p pc count :
  output s = Some p -> wf_output p ->
  sf_reader_thread p = Some pc -> pc <> RNotCreated -> pc <> RDone ->
  sf_reader_should_exit p = TRUE ->
  sf_reader_semaphore p = Some count -> 0 < count ->
  exists s' p' pc',
    SFFileReader_step s = Done (tt, s') /\ output s' = Some p' /\
    wf_output p' /\ sf_reader_thread p' = Some pc' /\ pc' <> RNotCreated /\
    (pc' = RDone \/
     sf_reader_should_exit p' = TRUE /\ sf_reader_semaphore p' = Some count /\
     (steps_to_exit pc' < steps_to_exit pc)%nat).
Proof.
  intros Ho Hwf Hth Hnc Hnd Hex Hsem Hc.
  destruct (SFFileReader_step_wf s p Ho Hwf)
    as (s' & p' & E & Ho' & Hwf' & _).
  exists s', p'.
  assert (H : exists pc', sf_reader_thread p' = Some pc' /\
                          pc' <> RNotCreated /\
    (pc' = RDone \/
     sf_reader_should_exit p' = TRUE /\ sf_reader_semaphore p' = Some count /\
     (steps_to_exit pc' < steps_to_exit pc)%nat)).
  { clear Hwf'. revert E Ho'.
    destruct Hwf as [Hst Hrate Hfmt Hsem' Hrb Hdata Hfile Hmu Hcb].
    destruct s as [ini c1 c2 o log]. cbn [output] in Ho. subst o.
    destruct p as [fmt rate ch st cb th sem ex fd0 rb slots t t0 pl mu pf].
    cbn [pa_stream sample_rate format sf_reader_thread sf_reader_semaphore
         sf_buffer sf_buffer_data sf_fd playback_time_mutex pa_callback
         sf_reader_should_exit] in *.
    subst th sem ex.
    specialize (Hrb ltac:(discriminate)).
    specialize (Hdata ltac:(discriminate)).
    specialize (Hfile ltac:(discriminate)).
    unfold SFFileReader_step. au_sim.
    destruct pc as [| | |n|]; try congruence.
    - (* RStart *)
      destruct ini; au_sim.
      2:{ intros [= <-] [= <-]. exists RDone. cbn. repeat split; auto.
          discriminate. }
      destruct (match Au_SampleFormat_of_int fmt with
                | Some AUSF_CUSTOM => true
                | _ => false
                end); au_sim; intros [= <-] [= <-].
      + exists RDone. cbn. repeat split; auto. discriminate.
      + exists RWait. cbn. split; [reflexivity|]. split; [discriminate|].
        right. repeat split. lia.
    - (* RWait *)
      destruct (count <=? 0) eqn:E; [apply Z.leb_le in E; lia|]. au_sim.
      intros [= <-] [= <-]. exists RDone. cbn. repeat split; auto.
      discriminate.
    - (* RFill *)
      destruct (0 <? n) eqn:En; au_sim.
      2:{ intros [= <-] [= <-]. exists RWait. cbn.
          split; [reflexivity|]. split; [discriminate|].
          right. repeat split. lia. }
      apply Z.ltb_lt in En.
      unfold SFFileReader_iteration. au_sim.
      destruct rb as [rb|]; [|congruence].
      destruct slots as [slots|]; [|congruence].
      destruct (PaUtil_GetRingBufferWriteRegions rb 1) as [ok index].
      destruct (ok <=? 0); au_sim.
      { intros [= <-] [= <-]. exists RWait. cbn.
        split; [reflexivity|]. split; [discriminate|].
        right. repeat split. lia. }
      unfold read_block, sf_readf_handle.
      destruct (Au_SampleFormat_of_int fmt) as [[]|]; au_sim;
        try (intros [= <-] [= <-]; exists RDone; cbn; repeat split; auto;
             discriminate);
        (destruct fd0 as [fd|];
         [destruct (sf_readf _ fd PA_BUFFER_FRAMECOUNT) as [[k bytes] fd']|];
         au_sim;
         repeat match goal with
                | |- context [if ?c then _ else _] => destruct c; au_sim
                end;
         try discriminate;
         intros [= <-] [= <-];
         first [ exists RDone; cbn; repeat split; auto; discriminate
               | exists (RFill (n - 1)); cbn;
                 split; [reflexivity|]; split; [discriminate|];
                 right; repeat split; lia ]). }
  destruct H as (pc' & H1 & H2 & H3).
  exists pc'. repeat (split; [assumption|]). assumption.
Qed.

Lemma ReaderPc_eq_RDone pc : pc = RDone \/ pc <> RDone.
Proof. destruct pc; auto; right; discriminate. Qed.

Lemma SFFileReader_run_done fuel s p :
  output s = Some p -> sf_reader_thread p = Some RDone ->
  SFFileReader_run fuel s = Done (tt, s).
Proof.
  intros Ho Hth. destruct fuel; [reflexivity|].
  cbn [SFFileReader_run]. unfold bind, get_pau. rewrite Ho, Hth. reflexivity.
Qed.

Lemma SFFileReader_run_exits fuel : forall s p pc count,
  output s = Some p -> wf_output p ->
  sf_reader_thread p = Some pc -> pc <> RNotCreated ->
  sf_reader_should_exit p = TRUE ->
  sf_reader_semaphore p = Some count -> 0 < count ->
  (steps_to_exit pc <= fuel)%nat ->
  exists s' p',
    SFFileReader_run fuel s = Done (tt, s') /\ output s' = Some p' /\
    sf_reader_thread p' = Some RDone.
Proof.
  induction fuel as [|fuel IH];
    intros s p pc count Ho Hwf Hth Hnc Hex Hsem Hc Hfuel.
  - destruct pc; cbn in Hfuel; try lia; try congruence.
    exists s, p. repeat split; assumption.
  - destruct (ReaderPc_eq_RDone pc) as [->|Hnd].
    { rewrite (SFFileReader_run_done _ s p Ho Hth). eauto. }
    destruct (SFFileReader_step_towards_exit s p pc count
                Ho Hwf Hth Hnc Hnd Hex Hsem Hc)
      as (s1 & p1 & pc1 & E & Ho1 & Hwf1 & Hth1 & Hnc1 & Hcase).
    assert (Erun : SFFileReader_run (S fuel) s = SFFileReader_run fuel s1).
    { cbn [SFFileReader_run]. unfold bind at 1, get_pau. rewrite Ho, Hth.
      destruct pc; try congruence; unfold bind; rewrite E; reflexivity. }
    rewrite Erun.
    destruct Hcase as [->|(Hex1 & Hsem1 & Hlt)].
    + rewrite (SFFileReader_run_done _ s1 p1 Ho1 Hth1). eauto.
    + apply (IH s1 p1 pc1 count); auto. lia.
Qed.

Ltac exit_leaf :=
  intros [= <-]; do 2 eexists;
  first [ exists 0; repeat split; try reflexivity;
          cbn [slots_to_fill] in *; rewrite ?Z.add_0_r;
          try reflexivity; try lia; try (exfalso; lia); fail
        | exists 1; repeat split; try reflexivity;
          cbn [slots_to_fill] in *; try lia; try (exfalso; lia); fail ].

Lemma SFFileReader_step_exit_effect s p pc rb s' :
  output s = Some p -> sf_reader_thread p = Some pc ->
  sf_reader_should_exit p = TRUE -> sf_buffer p = Some rb ->
  SFFileReader_step s = Done (tt, s') ->
  exists p' pc' k,
    output s' = Some p' /\ sf_reader_thread p' = Some pc' /\
    sf_buffer p'
    = Some (mkRing (bufferSize rb) (writeIndex rb + k) (readIndex rb)) /\
    0 <= k /\ k + slots_to_fill pc' <= slots_to_fill pc /\
    (slots_to_fill pc = 0 ->
     sf_fd p' = sf_fd p /\ sf_buffer_data p' = sf_buffer_data p /\
     playback_frames p' = playback_frames p).
Proof.
  intros Ho Hth Hex Hrb.
  destruct s as [ini c1 c2 o log]. cbn [output] in Ho. subst o.
  destruct p as [fmt rate ch st cb th sem ex fd0 rb0 slots t t0 pl mu pf].
  cbn [sf_reader_thread sf_reader_should_exit sf_buffer] in *. subst th ex rb0.
  destruct rb as [sz wi ri].
  unfold SFFileReader_step. au_sim. cbn [bufferSize writeIndex readIndex].
  destruct pc as [| | |n|]; try exit_leaf.
  - (* RStart *)
    destruct ini; au_sim; [|exit_leaf].
    destruct (match Au_SampleFormat_of_int fmt with
              | Some AUSF_CUSTOM => true
              | _ => false
              end); au_sim; exit_leaf.
  - (* RWait *)
    destruct sem as [count|]; [|discriminate].
    destruct (count <=? 0); au_sim; exit_leaf.
  - (* RFill *)
    destruct (0 <? n) eqn:En; au_sim.
    2:{ apply Z.ltb_ge in En. exit_leaf. }
    apply Z.ltb_lt in En.
    unfold SFFileReader_iteration. au_sim.
    destruct (PaUtil_GetRingBufferWriteRegions _ 1) as [ok index].
    destruct (ok <=? 0); au_sim; [exit_leaf|].
    unfold read_block, sf_readf_handle.
    destruct (Au_SampleFormat_of_int fmt) as [[]|]; au_sim;
      try exit_leaf;
      (destruct slots as [slots|]; [|discriminate]);
      (destruct fd0 as [fd|];
       [destruct (sf_readf _ fd PA_BUFFER_FRAMECOUNT) as [[k bytes] fd']|]);
      au_sim;
      repeat match goal with
             | |- context [if ?c then _ else _] => destruct c; au_sim
             end;
      try discriminate; exit_leaf.
Qed.

Lemma slots_to_fill_nonneg pc : 0 <= slots_to_fill pc.
Proof. destruct pc; cbn; lia. Qed.

Lemma SFFileReader_run_exit_effect fuel : forall s p pc rb s',
  output s = Some p -> wf_output p -> sf_reader_thread p = Some pc ->
  sf_reader_should_exit p = TRUE -> sf_buffer p = Some rb ->
  SFFileReader_run fuel s = Done (tt, s') ->
  exists p' pc' k,
    output s' = Some p' /\ sf_reader_thread p' = Some pc' /\
    sf_buffer p'
    = Some (mkRing (bufferSize rb) (writeIndex rb + k) (readIndex rb)) /\
    0 <= k /\ k + slots_to_fill pc' <= slots_to_fill pc /\
    (slots_to_fill pc = 0 ->
     sf_fd p' = sf_fd p /\ sf_buffer_data p' = sf_buffer_data p /\
     playback_frames p' = playback_frames p).
Proof.
  assert (Hstay : forall s p pc rb,
            output s = Some p -> sf_reader_thread p = Some pc ->
            sf_buffer p = Some rb ->
            exists p' pc' k,
              output s = Some p' /\ sf_reader_thread p' = Some pc' /\
              sf_buffer p'
              = Some (mkRing (bufferSize rb) (writeIndex rb + k)
                             (readIndex rb)) /\
              0 <= k /\ k + slots_to_fill pc' <= slots_to_fill pc /\
              (slots_to_fill pc = 0 ->
               sf_fd p' = sf_fd p /\ sf_buffer_data p' = sf_buffer_data p /\
               playback_frames p' = playback_frames p)).
  { intros s p pc rb Ho Hth Hrb. exists p, pc, 0.
    rewrite Z.add_0_r. destruct rb. repeat split; auto; lia. }
  induction fuel as [|fuel IH]; intros s p pc rb s' Ho Hwf Hth Hex Hrb.
  - intros [= <-]. eauto.
  - cbn [SFFileReader_run]. unfold bind at 1, get_pau. rewrite Ho, Hth.
    assert (Hgo : (SFFileReader_step ;; SFFileReader_run fuel) s
                  = Done (tt, s') ->
            exists p' pc' k,
              output s' = Some p' /\ sf_reader_thread p' = Some pc' /\
              sf_buffer p'
              = Some (mkRing (bufferSize rb) (writeIndex rb + k)
                             (readIndex rb)) /\
              0 <= k /\ k + slots_to_fill pc' <= slots_to_fill pc /\
              (slots_to_fill pc = 0 ->
               sf_fd p' = sf_fd p /\ sf_buffer_data p' = sf_buffer_data p /\
               playback_frames p' = playback_frames p)).
    { destruct (SFFileReader_step_wf s p Ho Hwf)
        as (s1 & p1 & E1 & Ho1 & Hwf1 & Hfr & _).
      unfold bind. rewrite E1. intros Hrun.
      destruct (SFFileReader_step_exit_effect s p pc rb s1 Ho Hth Hex Hrb E1)
        as (p1' & pc1 & k1 & Ho1' & Hth1 & Hrb1 & Hk1 & Hs1 & Hq1).
      rewrite Ho1 in Ho1'. injection Ho1' as <-.
      assert (Hex1 : sf_reader_should_exit p1 = TRUE)
        by (rewrite (rf_exit _ _ Hfr); exact Hex).
      destruct (IH s1 p1 pc1 _ s' Ho1 Hwf1 Hth1 Hex1 Hrb1 Hrun)
        as (p2 & pc2 & k2 & Ho2 & Hth2 & Hrb2 & Hk2 & Hs2 & Hq2).
      cbn [bufferSize writeIndex readIndex] in Hrb2.
      exists p2, pc2, (k1 + k2). split; [assumption|]. split; [assumption|].
      split; [rewrite Hrb2, Z.add_assoc; reflexivity|].
      pose proof (slots_to_fill_nonneg pc1). pose proof (slots_to_fill_nonneg pc2).
      split; [lia|]. split; [lia|].
      intros Hz. destruct (Hq1 Hz) as (A1 & A2 & A3).
      destruct (Hq2 ltac:(lia)) as (B1 & B2 & B3).
      repeat split; congruence. }
    destruct pc; try exact Hgo; intros [= <-]; eauto.
Qed.

(** X11.  A reader that is told to exit returns: with the exit flag set
    and the semaphore posted, as [Au_Stop] leaves them before it joins
    the thread, the reader has returned after at most [steps_to_exit]
    steps, which the join of [Au_Stop] allows for.  The reader looks at
    the exit flag only when it wakes up from [sem_wait].  A reader that
    waits there, or has not started, returns at once and leaves the ring
    buffer, the blocks, the file and the frame counter as they are.  A
    reader in the middle of a pass over the free slots finishes the pass
    first: it leaves the read cursor alone and publishes at most as many
    further blocks as it had slots left to fill. *)
Theorem reader_returns_when_told s p pc count rb fuel :
  output s = Some p -> wf_output p ->
  sf_reader_thread p = Some pc ->
  sf_reader_should_exit p = TRUE ->
  sf_reader_semaphore p = Some count -> 0 < count ->
  sf_buffer p = Some rb ->
  (steps_to_exit pc <= fuel)%nat ->
  (steps_to_exit pc <= join_fuel pc)%nat /\
  exists s' p' k,
    SFFileReader_run fuel s = Done (tt, s') /\ output s' = Some p' /\
    sf_reader_thread p' = Some RDone /\
    sf_buffer p'
    = Some (mkRing (bufferSize rb) (writeIndex rb + k) (readIndex rb)) /\
    0 <= k <= slots_to_fill pc /\
    (slots_to_fill pc = 0 ->
     sf_fd p' = sf_fd p /\ sf_buffer_data p' = sf_buffer_data p /\
     playback_frames p' = playback_frames p).
Proof.
  intros Ho Hwf Hth Hex Hsem Hc Hrb Hfuel. split.
  - destruct pc; cbn; lia.
  - pose proof (wf_created _ Hwf) as Hnc. rewrite Hth in Hnc.
    destruct (SFFileReader_run_exits fuel s p pc count
                Ho Hwf Hth ltac:(congruence) Hex Hsem Hc Hfuel)
      as (s' & p' & E & Ho' & Hd).
    destruct (SFFileReader_run_exit_effect fuel s p pc rb s'
                Ho Hwf Hth Hex Hrb E)
      as (p2 & pc2 & k & Ho2 & Hth2 & Hrb2 & Hk & Hs & Hq).
    rewrite Ho' in Ho2. injection Ho2 as <-.
    pose proof (slots_to_fill_nonneg pc2).
    exists s', p', k. repeat (split; [assumption|]).
    split; [lia|exact Hq].
Qed.

Lemma reader_returns_when_told_witness :
  (exists s' p',
     SFFileReader_run 2 exit_requested = Done (tt, s') /\
     output s' = Some p' /\ sf_reader_thread p' = Some RDone /\
     sf_buffer p' = Some (mkRing PA_RING_BUFFERCOUNT 0 0)) /\
  (exists s' p' k,
     SFFileReader_run 5 exit_requested_mid_pass = Done (tt, s') /\
     output s' = Some p' /\ sf_reader_thread p' = Some RDone /\
     sf_buffer p' = Some (mkRing PA_RING_BUFFERCOUNT (29 + k) 0) /\
     0 <= k <= 3).
Proof.
  split.
  - destruct (reader_returns_when_told exit_requested
                (output_of exit_requested) RStart 1
                (mkRing PA_RING_BUFFERCOUNT 0 0) 2)
      as (_ & s' & p' & k & E & Ho & Hth & Hrb & Hk & _).
    + reflexivity.
    + constructor; cbn; try discriminate; try reflexivity; try lia.
      intros _ fd [= <-]. reflexivity.
    + reflexivity.
    + reflexivity.
    + reflexivity.
    + lia.
    + reflexivity.
    + cbn. lia.
    + cbn [slots_to_fill] in Hk. assert (k = 0) by lia. subst k.
      exists s', p'. repeat (split; [assumption|]). exact Hrb.
  - destruct (reader_returns_when_told exit_requested_mid_pass
                (output_of exit_requested_mid_pass) (RFill 3) 1
                (mkRing PA_RING_BUFFERCOUNT 29 0) 5)
      as (_ & s' & p' & k & E & Ho & Hth & Hrb & Hk & _).
    + reflexivity.
    + constructor; cbn; try discriminate; try reflexivity; try lia.
      intros _ fd [= <-]. reflexivity.
    + reflexivity.
    + reflexivity.
    + reflexivity.
    + lia.
    + reflexivity.
    + cbn. lia.
    + exists s', p', k. repeat (split; [assumption|]). exact Hk.
Defined.

(** The reader of the second witness does publish: told to exit with
    three slots left to fill, it decodes and publishes three blocks
    before it returns. *)
Example reader_finishes_pass_before_exit :
  option_map (fun s => write_cursor s)
             (state_after (SFFileReader_run 5) exit_requested_mid_pass)
  = Some (Some 32).
Proof. vm_compute. reflexivity. Qed.

(** ** The size of the copy made by the callback *)

(** X12.  The callback copies [256 * channels * sample width] bytes out
    of a block whose data array holds 2048.  With at most 8 bytes per
    frame (the two float channels the array is sized for) the copy stays
    inside the block taken; [Au_New] does not limit the channel count,
    and on an output with more than 8 bytes per frame, such as three
    float channels, the copy runs past the end of the array. *)
Theorem PAPlayCallback_copy_and_block_size env s p count rb slots w :
  output s = Some p -> session_active p count rb slots ->
  format_size (format p) = Some w -> 1 <= channels p ->
  PA_BUFFER_FRAMECOUNT * channels p * w <= INT_MAX ->
  0 < PaUtil_GetRingBufferReadAvailable rb ->
  pthread_mutex_lock_ok env = true ->
  bufferSizeBytes_ (Some p) = PA_BUFFER_FRAMECOUNT * channels p * w /\
  (channels p * w <= 8 ->
   exists code s',
     PAPlayCallback_ env PA_BUFFER_FRAMECOUNT s
     = Done ((code,
              Some (load_bytes (data (slot_of rb slots (readIndex rb)))
                      (Z.to_nat (PA_BUFFER_FRAMECOUNT * channels p * w)))),
             s')) /\
  (8 < channels p * w ->
   PAPlayCallback_ env PA_BUFFER_FRAMECOUNT s = Crash BufferOverrun).
Proof.
  intros Ho Hact Hw Hch Hint Hav Hlock.
  pose proof (bufferSizeBytes_value p w Hw Hch Hint) as Hsize.
  pose proof (format_size_range _ _ Hw) as Hrange.
  split; [exact Hsize|].
  rewrite (PAPlayCallback_run env PA_BUFFER_FRAMECOUNT s p count rb slots
             Ho Hact).
  rewrite Hsize, Z.eqb_refl, Hlock. cbn [negb orb]. rewrite andb_false_r.
  destruct (PaUtil_GetRingBufferReadAvailable rb <=? 0) eqn:E;
    [apply Z.leb_le in E; lia|clear E].
  unfold sizeof_FRBuf_data, PA_MAX_CHANNELS, sizeof_float,
    PA_BUFFER_FRAMECOUNT in *.
  split; intros Hbytes.
  - destruct ((256 * channels p * w <? 0) || (256 * 2 * 4 <? 256 * channels p * w))
      eqn:E.
    { apply orb_true_iff in E. destruct E as [E|E]; apply Z.ltb_lt in E; nia. }
    cbv zeta.
    destruct (state (slot_of rb slots (readIndex rb))); eauto.
  - destruct ((256 * channels p * w <? 0) || (256 * 2 * 4 <? 256 * channels p * w))
      eqn:E; [reflexivity|].
    apply orb_false_iff in E. destruct E as [_ E]. apply Z.ltb_ge in E. nia.
Qed.

Lemma PAPlayCallback_copy_and_block_size_witness :
  PAPlayCallback_ (env_ok None zero_blocks) PA_BUFFER_FRAMECOUNT
                  three_channel_session
  = Crash BufferOverrun.
Proof.
  destruct (PAPlayCallback_copy_and_block_size
              (env_ok None zero_blocks) three_channel_session
              (output_of three_channel_session) 1
              (mkRing PA_RING_BUFFERCOUNT 1 0) zero_blocks 4)
    as (_ & _ & H).
  - reflexivity.
  - repeat split. discriminate.
  - reflexivity.
  - vm_compute. discriminate.
  - vm_compute. discriminate.
  - reflexivity.
  - reflexivity.
  - apply H. reflexivity.
Defined.

(** ** Au_InspectFile and the example program *)

(** X13.  [Au_InspectFile] needs no initialised library and touches no
    output.  It returns TRUE exactly when the file can be opened.  On
    failure the caller's variables keep their values and nothing is
    closed; on success the sample rate and the channel count are the
    decoder's, the file is closed again, and the length is stored only
    when a pointer for it was given and the file is seekable. *)
Theorem Au_InspectFile_effects K env info filename len_given vars s :
  exists b v s',
    Au_InspectFile K env info filename len_given vars s = Done ((b, v), s') /\
    AuInitialized_ s' = AuInitialized_ s /\ output s' = output s /\
    (b = TRUE <-> sf_open env filename <> None) /\
    (sf_open env filename = None ->
     v = vars /\ calls s' = calls s ++ [C_sf_open]) /\
    (forall fd, sf_open env filename = Some fd ->
       i_samplerate v = sf_samplerate fd /\ i_channels v = sf_channels fd /\
       calls s' = calls s ++ [C_sf_open; C_sf_close] /\
       i_len v = if len_given && sfi_seekable (info filename)
                 then wrap_long (sf_seek_end (info filename))
                 else i_len vars).
Proof.
  destruct s as [ini c1 c2 o log]. unfold Au_InspectFile. au_sim.
  destruct (sf_open env filename) as [fd|]; au_sim;
    (do 3 eexists; split; [reflexivity|]);
    cbn [AuInitialized_ output calls i_samplerate i_channels i_len].
  - split; [reflexivity|]. split; [reflexivity|].
    split; [split; [discriminate|reflexivity]|].
    split; [discriminate|].
    intros fd' [= <-]. repeat split. now rewrite <- app_assoc.
  - split; [reflexivity|]. split; [reflexivity|].
    split; [split; [discriminate|congruence]|].
    split; [split; reflexivity|]. discriminate.
Qed.



(** X15.  What [Au_InspectFile] reports can be handed on: when every
    collaborator call succeeds, a file it reports with a format other
    than AUSF_CUSTOM and a sample rate of at least 1 gives, through
    [Au_New] with the reported format, rate and channel count, an output
    on which [Au_Play] of the same file returns TRUE exactly when the
    file has two channels. *)
Theorem inspected_file_plays_iff_stereo K info filename fresh fd vars s :
  AuInitialized_ s = TRUE -> output s = None ->
  exists v s1,
    Au_InspectFile K (env_ok (Some fd) fresh) info filename false vars s
    = Done ((TRUE, v), s1) /\
    (i_format v <> AUSF_CUSTOM -> 1 <= i_samplerate v ->
     exists s2 b s3,
       Au_New (env_ok (Some fd) fresh)
              (int_of_Au_SampleFormat (i_format v))
              (i_samplerate v) (i_channels v) s1 = Done (Handle, s2) /\
       Au_Play (env_ok (Some fd) fresh) Handle filename s2 = Done (b, s3) /\
       (b = TRUE <-> i_channels v = 2)).
Proof.
  intros Hi Ho. destruct s as [ini c1 c2 o log].
  cbn [AuInitialized_ output] in Hi, Ho. subst ini o.
  unfold Au_InspectFile. au_sim. cbn [sf_open env_ok]. au_sim.
  do 2 eexists. split; [reflexivity|].
  cbn [i_format i_samplerate i_channels].
  set (fmt := subtype_format K _). clearbody fmt. intros Hfmt Hrate.
  assert (Enew : forall f, f <> AUSF_CUSTOM -> exists log',
    Au_New (env_ok (Some fd) fresh) (int_of_Au_SampleFormat f)
      (sf_samplerate fd) (sf_channels fd)
      (mkState true c1 c2 None ((log ++ [C_sf_open]) ++ [C_sf_close]))
    = Done (Handle,
            mkState TRUE c1 c2
              (Some (set_pa_stream (Some PaStopped)
                       (zeroed_output (int_of_Au_SampleFormat f)
                          (sf_samplerate fd) (sf_channels fd)))) log')).
  { intros f Hf.
    assert (E : (sf_samplerate fd <? 1) = false) by (apply Z.ltb_ge; lia).
    unfold Au_New.
    destruct f; try congruence;
      cbn [int_of_Au_SampleFormat Au_SampleFormat_of_int Z.eqb Pos.eqb
           env_ok malloc_output_ok Pa_OpenDefaultStream_ok];
      au_sim; rewrite E; au_sim; eexists; reflexivity. }
  destruct (Enew fmt Hfmt) as (log' & Enew'). clear Enew.
  rewrite Enew'.
  set (s2 := mkState TRUE c1 c2 _ log').
  assert (Hwf : wf_output
                  (set_pa_stream (Some PaStopped)
                     (zeroed_output (int_of_Au_SampleFormat fmt)
                        (sf_samplerate fd) (sf_channels fd)))).
  { constructor; cbn; try discriminate; try assumption;
      try (intros H; now elim H).
    destruct fmt; try congruence; reflexivity. }
  pose proof (Au_Play_runs (env_ok (Some fd) fresh) filename s2 _
                eq_refl eq_refl Hwf eq_refl) as Hruns.
  rewrite thread_creation_fails_ok in Hruns by reflexivity.
  destruct Hruns as (b & s3 & Eplay & _).
  exists s2, b, s3. split; [reflexivity|]. split; [exact Eplay|].
  split.
  - intros ->.
    destruct (Au_Play_TRUE _ _ _ _ Eplay)
      as (p' & fd' & fresh' & _ & _ & _ & _ & Hopen & _ & Hc & _).
    cbn in Hopen. injection Hopen as <-. exact Hc.
  - intros Hc.
    rewrite (Au_Play_succeeds (env_ok (Some fd) fresh) filename s2
               (set_pa_stream (Some PaStopped)
                  (zeroed_output (int_of_Au_SampleFormat fmt)
                     (sf_samplerate fd) (sf_channels fd))) fd fresh)
      in Eplay; try reflexivity; try assumption; try discriminate.
    injection Eplay as <- _. reflexivity.
Qed.

Lemma inspected_file_plays_iff_stereo_witness :
  exists v s1,
    Au_InspectFile sndfile_h (env_ok (Some (counting_file 44100 3)) zero_blocks)
      (fun _ => mkSF_INFO_rest 65538 true 768) "a.wav" false
      (mkInspected 0 0 AUSF_CUSTOM 0) started
    = Done ((TRUE, v), s1) /\ i_format v = AUSF_I16.
Proof.
  destruct (inspected_file_plays_iff_stereo sndfile_h
              (fun _ => mkSF_INFO_rest 65538 true 768) "a.wav" zero_blocks
              (counting_file 44100 3) (mkInspected 0 0 AUSF_CUSTOM 0) started
              eq_refl eq_refl) as (v & s1 & E & _).
  exists v, s1. split; [exact E|].
  vm_compute in E. injection E as <- _. reflexivity.
Defined.

Lemma append_length (s t : string) :
  String.length (s ++ t) = (String.length s + String.length t)%nat.
Proof. induction s as [|c s IH]; cbn; [reflexivity|now rewrite IH]. Qed.

(** X16.  The example program returns 0 exactly when it was given a
    file name, PortAudio could be initialised, the file could be opened
    and PortAudio could be terminated; its other exit statuses are 1 to
    4.  It prints the line about the file exactly when the file could be
    opened.  When the file cannot be opened it returns 3 without calling
    [Au_Shutdown]: the library is still initialised at exit, as it is
    when [Au_Shutdown] fails. *)
Theorem check_file_main_exit_status K sz init_ok term_ok env info locals argv :
  exists code out s',
    check_file_main K sz init_ok term_ok env info locals argv program_start
    = Done ((code, out), s') /\
    In code [0; 1; 2; 3; 4] /\
    (code = 0 <->
     (2 <= length argv)%nat /\ init_ok = true /\
     sf_open env (nth 1 argv EmptyString) <> None /\ term_ok = true) /\
    (code = 3 <->
     (2 <= length argv)%nat /\ init_ok = true /\
     sf_open env (nth 1 argv EmptyString) = None) /\
    (AuInitialized_ s' = TRUE <-> code = 3 \/ code = 4) /\
    (out <> sizes_line sz <-> code = 0 \/ code = 4) /\
    output s' = None.
Proof.
  assert (Hout : forall name v,
            (sizes_line sz ++ file_line name v ++ format_name (i_format v))%string
            <> sizes_line sz).
  { intros name v E. apply (f_equal String.length) in E.
    rewrite !append_length in E. unfold file_line in E.
    rewrite !append_length in E. cbn [String.length] in E. lia. }
  unfold check_file_main.
  set (line := sizes_line sz) in *. clearbody line.
  destruct argv as [|a0 [|a1 rest]].
  1,2: do 3 eexists; (split; [reflexivity|]);
    cbn [length AuInitialized_ program_start output In];
    repeat split; intros;
    intuition (try discriminate; try lia; try congruence).
  replace (Z.of_nat (length (a0 :: a1 :: rest)) <? 2) with false
    by (symmetry; apply Z.ltb_ge; cbn [length]; lia).
  cbn [nth length]. unfold Au_Startup, Au_Shutdown, Au_InspectFile,
    set_AuInitialized_, program_start. au_sim.
  assert (Hlen : (2 <= S (S (length rest)))%nat) by lia.
  destruct init_ok; au_sim.
  2:{ do 3 eexists. split; [reflexivity|]. cbn [AuInitialized_ output In].
      repeat split; intros;
        intuition (try discriminate; try lia; try congruence). }
  destruct (sf_open env a1) as [fd|]; au_sim.
  2:{ do 3 eexists. split; [reflexivity|]. cbn [AuInitialized_ output In].
      repeat split; intros;
        intuition (try discriminate; try lia; try congruence). }
  destruct term_ok; au_sim;
    (do 3 eexists; split; [reflexivity|]); cbn [AuInitialized_ output In];
    repeat split; intros;
      try (intuition (try discriminate; try lia; try congruence); fail);
      try (apply Hout); try (exfalso; eapply Hout; eassumption);
      intuition (try discriminate; try lia; try congruence).
Qed.

(** ** After Au_Stop *)

(** X17.  [Au_Stop] followed by [Au_Delete] is the complete teardown of
    an output in any reachable state: after the stop, [Au_Delete] stops
    and closes the stream and frees the output, has no file left to
    close, and returns TRUE. *)
Theorem Au_Stop_then_Au_Delete env s :
  reachable s -> output s <> None ->
  exists s1 s2,
    Au_Stop env Handle s = Done (TRUE, s1) /\
    Au_Delete Handle s1 = Done (TRUE, s2) /\ output s2 = None /\
    calls s2 = calls s1 ++ [C_Pa_StopStream; C_Pa_CloseStream; C_free_output].
Proof.
  intros Hreach Hlive.
  destruct (reachable_wf s Hreach) as [Hi Hwf].
  destruct (output s) as [p|] eqn:Ho; [|congruence].
  destruct (Au_Stop_spec env s p Hi Ho (Hwf p eq_refl)) as (c & fr & E).
  do 2 eexists. split; [exact E|].
  split; [apply Au_Delete_spec; reflexivity|].
  split; reflexivity.
Qed.

Lemma Au_Stop_then_Au_Delete_witness :
  exists s1 s2,
    Au_Stop (env_ok None zero_blocks) Handle
            (playing_output AUSF_F32 44100 2 (counting_file 44100 3))
    = Done (TRUE, s1) /\
    Au_Delete Handle s1 = Done (TRUE, s2) /\ output s2 = None.
Proof.
  destruct (Au_Stop_then_Au_Delete (env_ok None zero_blocks)
              (playing_output AUSF_F32 44100 2 (counting_file 44100 3))
              reachable_playing_output)
    as (s1 & s2 & E1 & E2 & Ho & _).
  - discriminate.
  - exists s1, s2. repeat split; assumption.
Defined.

(** X18.  After [Au_Stop] the two queries differ: [Au_GetTimeInPlayback]
    finds no time mutex and returns -2, while [Au_IsPlaying], which does
    not test the pointer, passes the NULL mutex to [pthread_mutex_lock]. *)
Theorem queries_after_Au_Stop env env' s :
  reachable s -> output s <> None ->
  exists s1,
    Au_Stop env Handle s = Done (TRUE, s1) /\
    Au_GetTimeInPlayback env' Handle s1 = Done (time_no_session, s1) /\
    Au_IsPlaying env' Handle s1 = Crash NullMutex.
Proof.
  intros Hreach Hlive.
  destruct (reachable_wf s Hreach) as [Hi Hwf].
  destruct (output s) as [p|] eqn:Ho; [|congruence].
  destruct (Au_Stop_spec env s p Hi Ho (Hwf p eq_refl)) as (c & fr & E).
  eexists. split; [exact E|].
  unfold Au_GetTimeInPlayback, Au_IsPlaying, POW. au_sim. split; reflexivity.
Qed.

Lemma queries_after_Au_Stop_witness :
  exists s1,
    Au_Stop (env_ok None zero_blocks) Handle
            (playing_output AUSF_F32 44100 2 (counting_file 44100 3))
    = Done (TRUE, s1) /\
    Au_GetTimeInPlayback (env_ok None zero_blocks) Handle s1
    = Done (time_no_session, s1).
Proof.
  destruct (queries_after_Au_Stop (env_ok None zero_blocks)
              (env_ok None zero_blocks)
              (playing_output AUSF_F32 44100 2 (counting_file 44100 3))
              reachable_playing_output)
    as (s1 & E1 & E2 & _).
  - discriminate.
  - exists s1. split; assumption.
Defined.

(** ** The start of a session *)

(** X19.  The reader fills the whole ring before it first waits: after
    [Au_Play] of a two-channel file of [K] full blocks, on an output
    whose format has a decode call, the reader's first turn publishes 32
    blocks and then blocks on its semaphore.  The first [min 32 K] of
    them are Playing blocks carrying the file's first blocks at their
    frame positions; once the file is exhausted every further slot is
    filled with a Stopped block. *)
Theorem reader_prefills_ring env filename s s0 p fd width K :
  output s = Some p ->
  decode_width (format p) = Some width ->
  1 <= channels p <= PA_MAX_CHANNELS ->
  sf_open env filename = Some fd ->
  length (sf_samples fd) = (block_samples * K)%nat ->
  PA_BUFFER_FRAMECOUNT * Z.of_nat K <= LONG_MAX ->
  Au_Play env Handle filename s = Done (TRUE, s0) ->
  exists s1 p1 slots,
    reader_turn s0 = Done (tt, s1) /\ output s1 = Some p1 /\
    sf_reader_thread p1 = Some RWait /\ sf_reader_semaphore p1 = Some 0 /\
    sf_buffer p1 = Some (mkRing PA_RING_BUFFERCOUNT 32 0) /\
    playback_frames p1 = PA_BUFFER_FRAMECOUNT * Z.of_nat (Nat.min 32 K) /\
    sf_buffer_data p1 = Some slots /\
    forall j, (j < 32)%nat ->
              block_ok width (sf_samples fd) K j (slots (Z.of_nat j)).
Proof.
  intros Ho Hw Hch Hopen Hlen Hlong Hplay.
  destruct (Au_Play_TRUE env filename s s0 Hplay)
    as (p' & fd' & fresh & _ & Ho' & _ & _ & Hopen' & _ & Hc & _ & Es0).
  rewrite Ho in Ho'. injection Ho' as <-.
  rewrite Hopen in Hopen'. injection Hopen' as <-. subst s0.
  destruct (reader_turn_first width (bufferSizeBytes_ (Some p))
              (sf_samples fd) K _ Hlen Hlong
              (round_start_session_start p fd fresh width K
                 (AU_SFFR_Count s) (AU_PAPC_Count s)
                 (calls s ++ Au_Play_calls) Hw Hch Hc))
    as (s1 & E & _ & p1 & Ho1 & Hs).
  destruct Hs as [_ _ _ _ _ Hth Hsem _ _ Hrb _ Hpf _ (slots & Hdata & Hblk)].
  exists s1, p1, slots. repeat (split; [assumption|]).
  intros j Hj. specialize (Hblk j ltac:(lia)).
  rewrite Z.mod_small in Hblk by (unfold PA_RING_BUFFERCOUNT; lia).
  exact Hblk.
Qed.

Lemma reader_prefills_ring_witness :
  exists s1 p1,
    reader_turn (playing_output AUSF_I16 44100 2 (counting_file 44100 2))
    = Done (tt, s1) /\
    output s1 = Some p1 /\
    sf_buffer p1 = Some (mkRing PA_RING_BUFFERCOUNT 32 0).
Proof.
  destruct (reader_prefills_ring
              (env_ok (Some (counting_file 44100 2)) zero_blocks) "a.wav"
              (fresh_output AUSF_I16 44100 2)
              (playing_output AUSF_I16 44100 2 (counting_file 44100 2))
              (set_pa_stream (Some PaStopped)
                 (zeroed_output (int_of_Au_SampleFormat AUSF_I16) 44100 2))
              (counting_file 44100 2) 2 2)
    as (s1 & p1 & slots & E & Ho & _ & _ & Hrb & _).
  - reflexivity.
  - reflexivity.
  - vm_compute. split; intros H; discriminate H.
  - reflexivity.
  - vm_compute. reflexivity.
  - vm_compute. intros H; discriminate H.
  - vm_compute. reflexivity.
  - exists s1, p1. repeat split; assumption.
Defined.

Lemma run_after_stream_finished ops : forall s p s',
  Forall playback_op ops ->
  output s = Some p -> wf_output p ->
  pa_stream p = Some PaFinished -> is_playing p = FALSE ->
  run ops s = Done (tt, s') ->
  exists p', output s' = Some p' /\ wf_output p' /\
             pa_stream p' = Some PaFinished /\ is_playing p' = FALSE /\
             playback_time_mutex p' = playback_time_mutex p /\
             AuInitialized_ s' = AuInitialized_ s.
Proof.
  induction ops as [|op ops IH]; intros s p s' Hops Ho Hwf Hst Hpl.
  - intros [= <-]. exists p. repeat (split; [assumption|]). split; reflexivity.
  - inversion Hops as [|? ? Hop Hrest]; subst.
    cbn [run]. unfold bind at 1.
    destruct (exec op s) as [[[] s1]|] eqn:E; [|discriminate].
    intros Hrun.
    assert (H1 : exists p1, output s1 = Some p1 /\ wf_output p1 /\
                   pa_stream p1 = Some PaFinished /\ is_playing p1 = FALSE /\
                   playback_time_mutex p1 = playback_time_mutex p /\
                   AuInitialized_ s1 = AuInitialized_ s).
    { destruct op as [| | | | |env fc]; try contradiction; cbn [exec] in E.
      - destruct (SFFileReader_step_wf s p Ho Hwf)
          as (s2 & p2 & E2 & Ho2 & Hwf2 & Hfr & Hi2 & _).
        rewrite E2 in E. injection E as <-.
        exists p2. split; [assumption|]. split; [assumption|].
        destruct Hfr. repeat split; congruence.
      - revert E. unfold PACallback_, bind, get_pau. rewrite Ho, Hst.
        intros [= <-]. exists p. repeat (split; [assumption|]).
        split; reflexivity. }
    destruct H1 as (p1 & Ho1 & Hwf1 & Hst1 & Hpl1 & Hmu1 & Hi1).
    destruct (IH s1 p1 s' Hrest Ho1 Hwf1 Hst1 Hpl1 Hrun)
      as (p' & Ho' & Hwf' & Hst' & Hpl' & Hmu' & Hi').
    exists p'. repeat (split; [assumption|]). split; congruence.
Qed.

(** X20.  A callback that comes before the reader has published its
    first block ends the playback for good: right after a successful
    [Au_Play] the ring buffer is empty, so the invocation returns
    complete and PortAudio finishes the stream.  Whatever the reader
    publishes afterwards is never taken: no later invocation is
    delivered, and [Au_IsPlaying] returns FALSE from then on. *)
Theorem callback_before_reader_ends_playback
    env env1 env2 filename s s0 ops s2 :
  reachable s -> Au_Play env Handle filename s = Done (TRUE, s0) ->
  exists s1,
    PACallback_ env1 PA_BUFFER_FRAMECOUNT s0
    = Done (Some (paComplete, None), s1) /\
    (Forall playback_op ops -> run ops s1 = Done (tt, s2) ->
     (forall env3 frameCount,
        PACallback_ env3 frameCount s2 = Done (None, s2)) /\
     Au_IsPlaying env2 Handle s2 = Done (FALSE, s2)).
Proof.
  intros Hreach Hplay.
  pose proof (Au_Play_wf env filename s TRUE s0 (reachable_wf s Hreach) Hplay)
    as [Hi0 Hwf0].
  destruct (Au_Play_TRUE env filename s s0 Hplay)
    as (p & fd & fresh & _ & Ho & _ & _ & _ & _ & _ & _ & Es0).
  subst s0. specialize (Hwf0 _ eq_refl).
  set (s0 := mkState TRUE (AU_SFFR_Count s) (AU_PAPC_Count s)
                     (Some (session_start p fd fresh))
                     (calls s ++ Au_Play_calls)) in *.
  assert (E1 : exists s1 p1,
    PACallback_ env1 PA_BUFFER_FRAMECOUNT s0
    = Done (Some (paComplete, None), s1) /\
    output s1 = Some p1 /\ AuInitialized_ s1 = TRUE /\
    pa_stream p1 = Some PaFinished /\ is_playing p1 = FALSE /\
    playback_time_mutex p1 = Some tt).
  { unfold PACallback_. unfold bind at 1, get_pau.
    cbn [output session_start pa_stream pa_callback s0]. unfold bind at 1.
    rewrite (PAPlayCallback_run env1 PA_BUFFER_FRAMECOUNT s0
               (session_start p fd fresh) 1
               (mkRing PA_RING_BUFFERCOUNT 0 0) fresh eq_refl).
    2:{ repeat split. discriminate. }
    subst s0. destruct p. unfold posted, marked_not_playing.
    destruct (pthread_mutex_lock_ok env1); au_sim;
      (do 2 eexists; split; [reflexivity|]);
      repeat split. }
  destruct E1 as (s1 & p1 & E1 & Ho1 & Hi1 & Hst1 & Hpl1 & Hmu1).
  exists s1. split; [exact E1|]. intros Hops Hrun.
  assert (Hwf1 : wf_output p1).
  { destruct (PACallback_wf env1 PA_BUFFER_FRAMECOUNT s0
                (session_start p fd fresh) _ _
                eq_refl Hwf0 E1) as (q & Hq & Hwfq & _).
    rewrite Ho1 in Hq. injection Hq as <-. exact Hwfq. }
  destruct (run_after_stream_finished ops s1 p1 s2 Hops Ho1 Hwf1 Hst1 Hpl1
              Hrun) as (p2 & Ho2 & _ & Hst2 & Hpl2 & Hmu2 & Hi2).
  split.
  - intros env3 fc. unfold PACallback_, bind, get_pau.
    rewrite Ho2, Hst2. reflexivity.
  - unfold Au_IsPlaying, POW. unfold bind at 1, get_state.
    rewrite Hi2, Hi1. cbn [negb TRUE]. unfold bind, get_pau.
    rewrite Ho2, Hmu2, Hmu1, Hpl2.
    destruct (pthread_mutex_lock_ok env2); reflexivity.
Qed.

Lemma callback_before_reader_ends_playback_witness :
  exists s1,
    PACallback_ (env_ok None zero_blocks) PA_BUFFER_FRAMECOUNT
      (playing_output AUSF_F32 44100 2 (counting_file 44100 3))
    = Done (Some (paComplete, None), s1).
Proof.
  destruct (callback_before_reader_ends_playback
              (env_ok (Some (counting_file 44100 3)) zero_blocks)
              (env_ok None zero_blocks) (env_ok None zero_blocks)
              "a.wav" (fresh_output AUSF_F32 44100 2)
              (playing_output AUSF_F32 44100 2 (counting_file 44100 3))
              [] (playing_output AUSF_F32 44100 2 (counting_file 44100 3)))
    as (s1 & E & _).
  - exact reachable_fresh_output.
  - vm_compute. reflexivity.
  - exists s1. exact E.
Defined.

(** ** The clock at the end of a file *)

Lemma in_session_wf width size samples K i w pc count p :
  in_session width size samples K i w pc count p -> pc <> RNotCreated ->
  1 <= sample_rate p -> wf_output p.
Proof.
  intros [Hw Hsz Hfit Hst Hcb Hth Hsem Hex (rate0 & Hfd) Hrb Hmu Hpf Hcur
             (slots & Hdata & Hblk)] Hpc Hrate.
  constructor; try congruence.
  - apply (decode_width_size _ _ Hw).
  - intros _ fd E. rewrite Hfd in E. injection E as <-. reflexivity.
Qed.

Lemma PACallback_takes_clock width size samples K i w s env q r s' :
  session_at width size samples K i w RWait 0 s -> (i < w)%nat ->
  pthread_mutex_lock_ok env = true -> pthread_mutex_trylock_ok env = true ->
  output s = Some q ->
  PACallback_ env PA_BUFFER_FRAMECOUNT s = Done (r, s') ->
  exists b q',
    front_block s = Done (Some b, s) /\
    output s' = Some q' /\ AuInitialized_ s' = TRUE /\
    sample_rate q' = sample_rate q /\ playback_time_mutex q' <> None /\
    playback_start_time q'
    = (if Qeq_bool (playback_start_time q) time_unset then time_zero
       else playback_start_time q) /\
    playback_time q'
    = (if Qeq_bool (playback_start_time q) time_unset then time_zero
       else frames_to_time (pos_frames b) (sample_rate q)) /\
    is_playing q' = match state b with
                    | PPPS_Playing => TRUE
                    | PPPS_Stopped => FALSE
                    end.
Proof.
  intros H Hiw Hlock Htry Hq E. open_session H.
  cbn [output] in Hq. injection Hq as Hq. subst q.
  exists (slots (Z.of_nat i mod PA_RING_BUFFERCOUNT)). revert E.
  assert (Hav : (Z.of_nat w - Z.of_nat i <=? 0) = false)
    by (apply Z.leb_gt; lia).
  assert (Hav' : (0 <? Z.of_nat w - Z.of_nat i) = true)
    by (apply Z.ltb_lt; lia).
  unfold front_block, PACallback_. au_sim.
  unfold PaUtil_GetRingBufferReadAvailable, slot_of.
  cbn [writeIndex readIndex bufferSize]. rewrite Hav'.
  match goal with
  | |- context [PAPlayCallback_ env PA_BUFFER_FRAMECOUNT
                  (mkState ?a ?b ?c (Some ?p) ?l)] =>
      rewrite (PAPlayCallback_run env PA_BUFFER_FRAMECOUNT
                 (mkState a b c (Some p) l) p 0
                 (mkRing PA_RING_BUFFERCOUNT (Z.of_nat w) (Z.of_nat i)) slots
                 eq_refl (conj eq_refl (conj eq_refl (conj eq_refl Hmu))))
  end.
  unfold PaUtil_GetRingBufferReadAvailable, slot_of.
  cbn [writeIndex readIndex bufferSize playback_start_time
       set_sf_reader_semaphore].
  rewrite Hav, Hlock, Z.eqb_refl. cbn [negb orb andb].
  rewrite andb_false_r.
  unfold bufferSizeBytes_. cbn [format channels set_sf_reader_semaphore].
  set (n := match format_size fmt with
            | Some sz => wrap_int (wrap_int (PA_BUFFER_FRAMECOUNT * ch) * sz)
            | None => -1
            end) in *.
  assert (Hn : (n <? 0) || (sizeof_FRBuf_data <? n) = false).
  { apply orb_false_iff. split; apply Z.ltb_ge; lia. }
  rewrite Hn. cbv zeta. unfold posted, marked_not_playing, synced.
  rewrite Hlock, Htry. cbn [playback_start_time].
  set (b := slots (Z.of_nat i mod PA_RING_BUFFERCOUNT)) in *.
  unfold PaUtil_AdvanceRingBufferReadIndex.
  cbn [writeIndex readIndex bufferSize]. au_sim.
  destruct (state b) eqn:Est;
    destruct (Qeq_bool t0 time_unset); au_sim;
    intros [= <- <-];
    (eexists; split; [reflexivity|]; split; [reflexivity|]);
    cbn; repeat split; assumption.
Qed.

Lemma reader_turn_wf s p :
  output s = Some p -> wf_output p ->
  exists s' p',
    reader_turn s = Done (tt, s') /\ output s' = Some p' /\
    wf_output p' /\ reader_frame p p'.
Proof.
  intros Ho Hwf.
  destruct (SFFileReader_run_wf 40 s p Ho Hwf)
    as (s2 & p2 & E2 & Ho2 & Hwf2 & Hfr & _).
  exists s2, p2. repeat (split; [assumption|]). assumption.
Qed.

Lemma reader_turn_clock width size samples K i w pc count s s1 rate j :
  session_at width size samples K i w pc count s -> pc <> RNotCreated ->
  clock_at rate j s -> reader_turn s = Done (tt, s1) -> clock_at rate j s1.
Proof.
  intros [_ (p & Ho & Hs)] Hpc (p' & Ho' & Hr & Hrate & Hstart) E.
  rewrite Ho in Ho'. injection Ho' as <-.
  assert (Hwf : wf_output p) by (eapply in_session_wf; eauto; lia).
  destruct (reader_turn_wf s p Ho Hwf) as (s2 & p2 & E2 & Ho2 & _ & Hfr).
  rewrite E in E2. injection E2 as <-.
  exists p2. split; [assumption|].
  rewrite (rf_rate _ _ Hfr), (rf_start _ _ Hfr). auto.
Qed.

Lemma round_start_session width size samples K i s :
  round_start width size samples K i s ->
  exists w pc count,
    session_at width size samples K i w pc count s /\ pc <> RNotCreated.
Proof.
  destruct i; cbn [round_start]; intros H; do 3 eexists;
    (split; [exact H|discriminate]).
Qed.

Lemma playback_round_clock width size samples K i s env rate :
  length samples = (block_samples * K)%nat ->
  PA_BUFFER_FRAMECOUNT * Z.of_nat K <= LONG_MAX ->
  round_start width size samples K i s -> clock_at rate i s ->
  pthread_mutex_lock_ok env = true -> pthread_mutex_trylock_ok env = true ->
  exists b o s' q',
    playback_round env s = Done (o, s') /\
    block_ok width samples K i b /\
    output s' = Some q' /\ AuInitialized_ s' = TRUE /\
    playback_time_mutex q' <> None /\
    playback_start_time q' = time_zero /\
    playback_time q' = match i with
                       | O => time_zero
                       | S _ => frames_to_time (pos_frames b) rate
                       end /\
    is_playing q' = match state b with
                    | PPPS_Playing => TRUE
                    | PPPS_Stopped => FALSE
                    end /\
    (state b = PPPS_Playing ->
     round_start width size samples K (S i) s' /\ clock_at rate (S i) s').
Proof.
  intros Hlen Hlong H Hclock Hlock Htry.
  destruct (reader_turn_round _ _ _ _ _ _ Hlen Hlong H) as (s1 & E1 & H1).
  destruct (round_start_session _ _ _ _ _ _ H) as (w0 & pc0 & c0 & H0 & Hpc0).
  pose proof (reader_turn_clock _ _ _ _ _ _ _ _ _ _ _ _ H0 Hpc0 Hclock E1)
    as (q & Hq & Hr & Hrate & Hstart).
  destruct (PACallback_takes _ _ _ _ _ _ _ env H1 ltac:(lia) Hlock)
    as (b & s' & Ef & Hb & Ec & Hnext).
  destruct (PACallback_takes_clock _ _ _ _ _ _ _ env q _ _
              H1 ltac:(lia) Hlock Htry Hq Ec)
    as (b' & q' & Ef' & Hq' & Hi' & Hr' & Hmu' & Hstart' & Htime' & Hpl').
  rewrite Ef in Ef'. injection Ef' as <-.
  exists b. do 2 eexists. exists q'. split.
  { unfold playback_round, bind. rewrite E1, Ef, Ec. reflexivity. }
  split; [exact Hb|]. split; [exact Hq'|]. split; [exact Hi'|].
  split; [exact Hmu'|].
  assert (Hzero : playback_start_time q' = time_zero).
  { rewrite Hstart', Hstart. destruct i; reflexivity. }
  split; [exact Hzero|]. split.
  { rewrite Htime', Hstart, Hr. destruct i; reflexivity. }
  split; [exact Hpl'|].
  intros Est. rewrite Est in Hnext. split.
  - cbn [round_start]. replace (S i + 31)%nat with (i + 32)%nat by lia.
    exact Hnext.
  - exists q'. repeat split; try assumption. congruence.
Qed.

Lemma playback_clock width size samples K env rate :
  length samples = (block_samples * K)%nat ->
  PA_BUFFER_FRAMECOUNT * Z.of_nat K <= LONG_MAX ->
  pthread_mutex_lock_ok env = true -> pthread_mutex_trylock_ok env = true ->
  forall m i s,
    (i + m = K)%nat -> round_start width size samples K i s ->
    clock_at rate i s ->
    exists obs s' q',
      playback env (S m) s = Done (obs, s') /\
      output s' = Some q' /\ AuInitialized_ s' = TRUE /\
      playback_time_mutex q' <> None /\
      playback_start_time q' = time_zero /\ is_playing q' = FALSE /\
      playback_time q'
      = match K with
        | O => time_zero
        | S _ => frames_to_time (PA_BUFFER_FRAMECOUNT * Z.of_nat K) rate
        end.
Proof.
  intros Hlen Hlong Hlock Htry.
  induction m as [|m IH]; intros i s Him H Hclock;
    destruct (playback_round_clock _ _ _ _ _ _ env rate Hlen Hlong H Hclock
                Hlock Htry)
      as (b & o & s1 & q1 & Er & Hb & Hq1 & Hi1 & Hmu1 & Hst1 & Ht1 & Hpl1
          & Hnext);
    unfold block_ok in Hb.
  - destruct (Nat.ltb_spec i K) as [Hlt|_]; [lia|].
    destruct Hb as [Hst Hpos]. rewrite Hst in Hpl1.
    assert (i = K) by lia. subst i.
    exists [o], s1, q1. split.
    { rewrite playback_S, Er. reflexivity. }
    repeat (split; [assumption|]).
    rewrite Ht1, Hpos. reflexivity.
  - destruct (Nat.ltb_spec i K) as [Hlt|Hge]; [|lia].
    destruct Hb as (Hst & _). destruct (Hnext Hst) as [Hround Hclock'].
    destruct (IH (S i) s1 ltac:(lia) Hround Hclock')
      as (obs & s' & q' & Ep & Hrest).
    exists (o :: obs), s', q'. split; [|exact Hrest].
    rewrite playback_S, Er, Ep. reflexivity.
Qed.

(** X21.  The clock ends at the length of the file: under the schedule
    in which the reader keeps up, with the locks acquired, once the
    [K + 1] invocations that play a file of [K] full blocks are over,
    [Au_IsPlaying] returns FALSE and [Au_GetTimeInPlayback] returns the
    file's [256 * K] frames divided by the sample rate in doubles: the
    quotient rounded to nearest (ties to even), which for a length and a
    rate of up to 53 bits is within a relative error of 2^-53 of the
    exact quotient. *)
Theorem playback_ends_at_file_length
    env env' env2 filename s s0 p fd width K :
  reachable s -> output s = Some p ->
  decode_width (format p) = Some width ->
  1 <= channels p <= PA_MAX_CHANNELS ->
  sf_open env filename = Some fd ->
  length (sf_samples fd) = (block_samples * K)%nat ->
  PA_BUFFER_FRAMECOUNT * Z.of_nat K <= LONG_MAX ->
  Au_Play env Handle filename s = Done (TRUE, s0) ->
  pthread_mutex_lock_ok env' = true -> pthread_mutex_trylock_ok env' = true ->
  pthread_mutex_lock_ok env2 = true ->
  exists obs s' t,
    playback env' (S K) s0 = Done (obs, s') /\
    Au_IsPlaying env2 Handle s' = Done (FALSE, s') /\
    Au_GetTimeInPlayback env2 Handle s' = Done (t, s') /\
    (t == frames_to_time (PA_BUFFER_FRAMECOUNT * Z.of_nat K)
                         (sample_rate p))%Q /\
    (PA_BUFFER_FRAMECOUNT * Z.of_nat K <= 2 ^ 53 ->
     sample_rate p <= 2 ^ 53 ->
     (t == Double.round (inject_Z (PA_BUFFER_FRAMECOUNT * Z.of_nat K)
                         / inject_Z (sample_rate p)))%Q /\
     (Qabs (t - inject_Z (PA_BUFFER_FRAMECOUNT * Z.of_nat K)
                / inject_Z (sample_rate p))
      <= inject_Z (PA_BUFFER_FRAMECOUNT * Z.of_nat K)
         / inject_Z (sample_rate p) * (1 # 2 ^ 53))%Q).
Proof.
  intros Hreach Ho Hw Hch Hopen Hlen Hlong Hplay Hlock Htry Hlock2.
  destruct (reachable_wf s Hreach) as [_ Hwf]. specialize (Hwf p Ho).
  destruct (Au_Play_TRUE env filename s s0 Hplay)
    as (p' & fd' & fresh & _ & Ho' & _ & _ & Hopen' & _ & Hc & _ & Es0).
  rewrite Ho in Ho'. injection Ho' as <-.
  rewrite Hopen in Hopen'. injection Hopen' as <-. subst s0.
  destruct (playback_clock width (bufferSizeBytes_ (Some p)) (sf_samples fd)
              K env' (sample_rate p) Hlen Hlong Hlock Htry K 0%nat _ eq_refl
              (round_start_session_start p fd fresh width K
                 (AU_SFFR_Count s) (AU_PAPC_Count s)
                 (calls s ++ Au_Play_calls) Hw Hch Hc))
    as (obs & s' & q' & Ep & Hq' & Hi' & Hmu' & Hst' & Hpl' & Ht').
  { exists (session_start p fd fresh). repeat split. apply (wf_rate _ Hwf). }
  exists obs, s'. eexists. split; [exact Ep|]. split.
  - unfold Au_IsPlaying, POW. unfold bind at 1, get_state.
    rewrite Hi'. cbn [negb TRUE]. unfold bind, get_pau. rewrite Hq'.
    destruct (playback_time_mutex q'); [|congruence].
    rewrite Hlock2, Hpl'. reflexivity.
  - split; [apply (Au_GetTimeInPlayback_locked env2 s' q' Hq' Hmu' Hlock2)|].
    assert (Ht : (Double.sub (playback_time q') (playback_start_time q')
                  == frames_to_time (PA_BUFFER_FRAMECOUNT * Z.of_nat K)
                                    (sample_rate p))%Q).
    { rewrite Ht', Hst'. destruct K.
      - cbn [Z.of_nat]. rewrite Z.mul_0_r, frames_to_time_0.
        vm_compute. reflexivity.
      - apply Double_sub_zero, frames_to_time_double. }
    split; [exact Ht|]. intros HK Hrate.
    destruct (frames_to_time_near (PA_BUFFER_FRAMECOUNT * Z.of_nat K)
                (sample_rate p)) as [Hround Herr].
    { unfold PA_BUFFER_FRAMECOUNT in *. lia. }
    { split; [apply (wf_rate _ Hwf)|exact Hrate]. }
    split.
    + rewrite Ht. exact Hround.
    + rewrite Ht. exact Herr.
Qed.

Lemma playback_ends_at_file_length_witness :
  exists obs s' t,
    playback (env_ok None zero_blocks) 3
      (playing_output AUSF_I16 44100 2 (counting_file 44100 2))
    = Done (obs, s') /\
    Au_IsPlaying (env_ok None zero_blocks) Handle s' = Done (FALSE, s') /\
    Au_GetTimeInPlayback (env_ok None zero_blocks) Handle s' = Done (t, s') /\
    (t == 6692696262570359 # 576460752303423488)%Q /\
    (Qabs (t - (512 # 44100)) <= (512 # 44100) * (1 # 2 ^ 53))%Q.
Proof.
  destruct (playback_ends_at_file_length
              (env_ok (Some (counting_file 44100 2)) zero_blocks)
              (env_ok None zero_blocks) (env_ok None zero_blocks) "a.wav"
              (fresh_output AUSF_I16 44100 2)
              (playing_output AUSF_I16 44100 2 (counting_file 44100 2))
              (set_pa_stream (Some PaStopped)
                 (zeroed_output (int_of_Au_SampleFormat AUSF_I16) 44100 2))
              (counting_file 44100 2) 2 2)
    as (obs & s' & t & E & Hp & Ht & Hq & Hnear).
  - apply (reach_exec started
             (OpNew (env_ok None zero_blocks) 3 44100 2) tt).
    + constructor.
    + reflexivity.
    + reflexivity.
  - reflexivity.
  - reflexivity.
  - vm_compute. split; intros H; discriminate H.
  - reflexivity.
  - vm_compute. reflexivity.
  - vm_compute. intros H; discriminate H.
  - vm_compute. reflexivity.
  - reflexivity.
  - reflexivity.
  - reflexivity.
  - exists obs, s', t. do 3 (split; [assumption|]). split.
    + rewrite Hq. vm_compute. reflexivity.
    + destruct Hnear as [_ Herr]; [vm_compute; discriminate ..|].
      exact Herr.
Defined.
